(** * Ingestion tools front end: a shallow embedding and its properties

    The development follows the React front end of the inspection-schedule
    generator: the HTTP client ([api/client.js]), the file-generation hook
    ([hooks/useFileGeneration.js]) with its file utilities, the teams
    provider, and the pages that paste, preview, edit and submit entries
    ([SchedulePage], [DailyLogsPage], and the Schedule page that keeps its
    own state).  The date expression grammar lives in the Python back end;
    it is modelled from the written specification in [DateExpr]. *)

From Stdlib Require Import ZArith List Ascii String Lia Permutation.
From stdpp Require Import base decidable countable strings pretty list sorting gmap fin_maps.

Local Open Scope string_scope.
Set Warnings "-register-all".

(** ** JavaScript values *)

Module JS.

(** The fragment of JavaScript values that flows through the pages: what
    [JSON.parse] can produce, plus [undefined].  Numbers are restricted to
    integers; entry fields are strings or [null]. *)
Inductive jsval : Type :=
| JUndefined
| JNull
| JBool (b : bool)
| JNum (n : Z)
| JStr (s : string)
| JArr (xs : list jsval)
| JObj (props : list (string * jsval)).

(** A plain object: its own properties in insertion order, keys unique. *)
Definition object := list (string * jsval).

(** [o[k]]: the property's value, [undefined] when absent. *)
Fixpoint obj_get (o : object) (k : string) : jsval :=
  match o with
  | [] => JUndefined
  | (k', v) :: o' => if String.eqb k' k then v else obj_get o' k
  end.

(** [o[k] = v] on a fresh copy: an existing key keeps its position, a new
    key is appended. *)
Fixpoint obj_set (o : object) (k : string) (v : jsval) : object :=
  match o with
  | [] => [(k, v)]
  | (k', v') :: o' =>
      if String.eqb k' k then (k', v) :: o' else (k', v') :: obj_set o' k v
  end.

(** ToBoolean. *)
Definition truthy (v : jsval) : bool :=
  match v with
  | JUndefined | JNull => false
  | JBool b => b
  | JNum n => negb (n =? 0)%Z
  | JStr s => negb (String.eqb s "")
  | JArr _ | JObj _ => true
  end.

(** [a || b] *)
Definition js_or (a b : jsval) : jsval := if truthy a then a else b.

(** [a || d] for [a] a string, [null] or [undefined]. *)
Definition str_or (a : option string) (d : string) : string :=
  match a with
  | Some s => if String.eqb s "" then d else s
  | None => d
  end.

(** [a === s] for a string literal [s]. *)
Definition strict_eq_str (a : jsval) (s : string) : bool :=
  match a with
  | JStr s' => String.eqb s' s
  | _ => false
  end.

Fixpoint join (sep : string) (parts : list string) : string :=
  match parts with
  | [] => ""
  | [p] => p
  | p :: ps => p ++ sep ++ join sep ps
  end.

(** Whether a plain object has an own property of that name. *)
Fixpoint obj_has (o : object) (k : string) : bool :=
  match o with
  | [] => false
  | (k', _) :: o' => String.eqb k' k || obj_has o' k
  end.

(** Arrays may have holes once an index past the end is assigned; a hole
    reads as [undefined], which is [None] here. *)
Abbreviation array A := (list (option A)) (only parsing).

Definition arr_get {A} (a : array A) (i : nat) : option A :=
  match a !! i with
  | Some (Some x) => Some x
  | _ => None
  end.

(** [a[i] = x]: in range the slot is overwritten; past the end the array
    grows, the skipped slots being holes. *)
Definition arr_set {A} (a : array A) (i : nat) (x : A) : array A :=
  if decide (i < length a) then <[i := Some x]> a
  else a ++ replicate (i - length a) None ++ [Some x].

(** [{...x}] for [x] an object or [undefined]. *)
Definition spread (x : option object) : object :=
  match x with
  | Some o => o
  | None => []
  end.

(** WhiteSpace and LineTerminator among the code units below 256: tab,
    line feed, vertical tab, form feed, carriage return, space and the
    no-break space. *)
Definition white_space (c : ascii) : bool :=
  let n := nat_of_ascii c in
  ((9 <=? n)%nat && (n <=? 13)%nat) || (n =? 32)%nat || (n =? 160)%nat.

Fixpoint trim_start (s : string) : string :=
  match s with
  | EmptyString => EmptyString
  | String c s' => if white_space c then trim_start s' else s
  end.

Fixpoint trim_end (s : string) : string :=
  match s with
  | EmptyString => EmptyString
  | String c s' =>
      match trim_end s' with
      | EmptyString => if white_space c then EmptyString else String c EmptyString
      | t => String c t
      end
  end.

(** [s.trim()] *)
Definition trim (s : string) : string := trim_end (trim_start s).

End JS.

Import JS.

(** ** The preview table shared by both pages *)

(** What React puts in the DOM for a child value: strings and numbers as
    text, [null], [undefined] and booleans as nothing; a plain object is
    refused (the render throws), which is [None]. *)
Fixpoint react_text (v : jsval) : option string :=
  match v with
  | JUndefined | JNull | JBool _ => Some ""
  | JNum n => Some (pretty n)
  | JStr s => Some s
  | JArr xs =>
      fold_right (fun x acc =>
                    match react_text x, acc with
                    | Some a, Some b => Some (a ++ b)
                    | _, _ => None
                    end) (Some "") xs
  | JObj _ => None
  end.

Module SchedulePage.

(** [MASTER_SCHEDULE_COLUMNS], in source order. *)
Definition MASTER_SCHEDULE_COLUMNS : list (string * nat) :=
  [ ("county", 0); ("bin", 1); ("feature_carried", 2);
    ("feature_crossed", 3); ("prev_inspection_due_date", 5);
    ("due_date", 6); ("gr", 9); ("access", 15);
    ("scheduled_date", 16); ("town", 19) ].

(** The columns of the preview table, in display order. *)
Definition preview_fields : list string :=
  [ "bin"; "county"; "feature_carried"; "feature_crossed"; "due_date";
    "scheduled_date"; "access"; "lane_closed"; "town" ].

(** The updater passed to [setEntries] by [handleCellChange]. *)
Definition handleCellChange (rowIndex : nat) (field : string) (value : jsval)
    (prev : array object) : array object :=
  let updated := prev in
  arr_set updated rowIndex (obj_set (spread (arr_get updated rowIndex)) field value).

(** The [className] of a preview cell. *)
Definition cell_className (entry : object) (field : string) : string :=
  if String.eqb field "lane_closed" && strict_eq_str (obj_get entry field) "Y"
  then "lc-y" else "".

(** The child expression of a preview cell. *)
Definition cell_child (entry : object) (field : string) : jsval :=
  js_or (obj_get entry field)
        (if String.eqb field "due_date" then JStr "-" else JStr "").

Definition cell_text (entry : object) (field : string) : option string :=
  react_text (cell_child entry field).

End SchedulePage.

Module DailyLogsPage.

(** [MASTER_SCHEDULE_COLUMNS], the page's own copy. *)
Definition MASTER_SCHEDULE_COLUMNS : list (string * nat) :=
  [ ("county", 0); ("bin", 1); ("feature_carried", 2);
    ("feature_crossed", 3); ("prev_inspection_due_date", 5);
    ("due_date", 6); ("gr", 9); ("access", 15);
    ("scheduled_date", 16); ("town", 19) ].

Definition DAY_NAMES : list string :=
  [ "SUN"; "MON"; "TUE"; "WED"; "THU"; "FRI"; "SAT" ].

(** What [getDay()] answers: a day number, or [NaN] for an invalid date. *)
Inductive day_index : Type :=
| DayNum (n : nat)
| DayNaN.

#[global] Instance day_index_eq_dec : EqDecision day_index.
Proof. solve_decision. Defined.

#[global] Instance day_index_countable : Countable day_index :=
  inj_countable'
    (fun d => match d with DayNum n => Some n | DayNaN => None end)
    (fun o => match o with Some n => DayNum n | None => DayNaN end)
    (fun d => match d with DayNum _ => eq_refl | DayNaN => eq_refl end).

(** The property key a day index turns into, [String(dayIndex)]. *)
Definition day_key (d : day_index) : string :=
  match d with
  | DayNum n => pretty n
  | DayNaN => "NaN"
  end.

(** [dayIndex === activeDay]: [NaN] equals nothing, and [null] is no
    number. *)
Definition is_active (dayIndex : day_index) (activeDay : option day_index) : bool :=
  match dayIndex, activeDay with
  | DayNum a, Some (DayNum b) => (a =? b)%nat
  | _, _ => false
  end.

(** [DAY_NAMES[dayIndex]] as React shows it: [undefined], off the week,
    shows as nothing. *)
Definition day_name (dayIndex : day_index) : string :=
  match dayIndex with
  | DayNum n => default "" (DAY_NAMES !! n)
  | DayNaN => ""
  end.

(** A day button: its key, whether it carries the colours of the active
    day, the number in its label, and the label. *)
Record Tab := {
  tab_day : day_index;
  tab_active : bool;
  tab_count : nat;
  tab_text : string
}.

(** The block under the buttons: the date line, the rows (six cells
    each), and the note about entries left out. *)
Record DayTable := {
  table_date : jsval;
  table_rows : list (list jsval);
  table_note : option string
}.

(** What one render of [DailyLogPreview] amounts to: the [setActiveDay]
    call it makes, if any, the buttons and the table. *)
Record Preview := {
  activated : option day_index;
  tabs : list Tab;
  table : option DayTable
}.

(** The cells of one row of the day table. *)
Definition log_row (entry : object) : list jsval :=
  [ js_or (obj_get entry "region") (JStr "8");
    js_or (obj_get entry "county") (JStr "");
    js_or (obj_get entry "bin") (JStr "");
    js_or (obj_get entry "feature_carried") (JStr "");
    js_or (obj_get entry "feature_crossed") (JStr "");
    js_or (obj_get entry "access") (JStr "") ].

(** The table block for [currentEntries]; nothing is shown for an empty
    list. *)
Definition day_table (currentEntries : list object) : option DayTable :=
  let currentDate :=
    js_or (match head currentEntries with
           | Some entry => obj_get entry "scheduled_date"
           | None => JUndefined
           end) (JStr "") in
  if (0 <? length currentEntries)%nat then
    Some {| table_date := currentDate;
            table_rows := map log_row (take 7 currentEntries);
            table_note :=
              if (7 <? length currentEntries)%nat then
                Some ("Note: Daily log sheet can hold max 7 entries. "
                      ++ pretty (length currentEntries - 7)%nat
                      ++ " entries will not be displayed.")
              else None |}
  else None.

Section DailyLogPreview.

(** [new Date(v).getDay()]: date parsing and the local time zone belong
    to the browser. *)
Variable Date_getDay : jsval -> day_index.

Definition entry_day (entry : object) : day_index :=
  Date_getDay (obj_get entry "scheduled_date").

(** One round of the [forEach]: create the bucket if the day has none,
    then push the entry. *)
Definition group_step (entriesByDay : gmap day_index (list object))
    (entry : object) : gmap day_index (list object) :=
  let dayIndex := entry_day entry in
  let entriesByDay' :=
    match entriesByDay !! dayIndex with
    | None => <[dayIndex := []]> entriesByDay
    | Some _ => entriesByDay
    end in
  alter (fun bucket => (bucket ++ [entry])%list) dayIndex entriesByDay'.

Definition entriesByDay (entries : list object) : gmap day_index (list object) :=
  foldl group_step ∅ entries.

(** [Object.keys(entriesByDay).map(parseInt).sort()]: the default sort
    compares the numbers as strings. *)
Definition daysWithEntries (entries : list object) : list day_index :=
  merge_sort (fun a b => String.leb (day_key a) (day_key b))
             (map fst (map_to_list (entriesByDay entries))).

(** Everything the buckets hold. *)
Definition bucket_union (entries : list object) : list object :=
  mjoin (snd <$> map_to_list (entriesByDay entries)).

(** [entriesByDay[dayIndex] || []] *)
Definition bucket (entries : list object) (dayIndex : day_index) : list object :=
  default [] (entriesByDay entries !! dayIndex).

(** The button of a listed day; every listed day has its bucket. *)
Definition tab_of (entries : list object) (activeDay : option day_index)
    (dayIndex : day_index) : Tab :=
  let count := length (bucket entries dayIndex) in
  {| tab_day := dayIndex;
     tab_active := is_active dayIndex activeDay;
     tab_count := count;
     tab_text := day_name dayIndex ++ " (" ++ pretty count ++ ")" |}.

(** One render of the component with the state [activeDay] ([None] is
    [null]); the result [None] is the [null] returned for no days.  With
    [activeDay] still [null] the lookup [entriesByDay[null]] names no
    bucket, so the current entries are the empty list. *)
Definition DailyLogPreview (activeDay : option day_index) (entries : list object)
    : option Preview :=
  let daysWithEntries := daysWithEntries entries in
  if (length daysWithEntries =? 0)%nat then None
  else
    let activated :=
      match activeDay with
      | None => head daysWithEntries
      | Some _ => None
      end in
    let currentEntries :=
      match activeDay with
      | Some currentDayIndex => bucket entries currentDayIndex
      | None => []
      end in
    Some {| activated := activated;
            tabs := map (tab_of entries activeDay) daysWithEntries;
            table := day_table currentEntries |}.

(** The state after React has applied the [setActiveDay] call of a
    render. *)
Definition next_activeDay (activeDay : option day_index) (entries : list object)
    : option day_index :=
  match DailyLogPreview activeDay entries with
  | Some view =>
      match activated view with
      | Some dayIndex => Some dayIndex
      | None => activeDay
      end
  | None => activeDay
  end.

End DailyLogPreview.

Definition preview_fields : list string :=
  [ "bin"; "county"; "feature_carried"; "feature_crossed"; "due_date";
    "scheduled_date"; "access"; "lane_closed"; "town" ].

Definition handleCellChange (rowIndex : nat) (field : string) (value : jsval)
    (prev : array object) : array object :=
  let updated := prev in
  arr_set updated rowIndex (obj_set (spread (arr_get updated rowIndex)) field value).

Definition cell_className (entry : object) (field : string) : string :=
  if String.eqb field "lane_closed" && strict_eq_str (obj_get entry field) "Y"
  then "lc-y" else "".

Definition cell_child (entry : object) (field : string) : jsval :=
  js_or (obj_get entry field)
        (if String.eqb field "due_date" then JStr "-" else JStr "").

Definition cell_text (entry : object) (field : string) : option string :=
  react_text (cell_child entry field).

End DailyLogsPage.

(** Index of a named column in a layout. *)
Definition column_index (layout : list (string * nat)) (name : string) : option nat :=
  snd <$> find (fun p => String.eqb (fst p) name) layout.

(** ** Completions: a call returns normally or throws *)

(** A thrown value, as far as the front end inspects it: [err.name] and
    [err.message]. *)
Record exn := mk_exn { exn_name : string; exn_message : string }.

Inductive completion (A : Type) : Type :=
| Normal (a : A)
| Throw (e : exn).
Arguments Normal {A} a.
Arguments Throw {A} e.

Definition cbind {A B} (c : completion A) (k : A -> completion B) : completion B :=
  match c with
  | Normal a => k a
  | Throw e => Throw e
  end.

#[global] Instance completion_ret : MRet completion := @Normal.
#[global] Instance completion_bind : MBind completion := fun A B k c => cbind c k.

(** The TypeError of a conversion to a primitive that finds no method to
    call (wording of V8). *)
Definition TypeError_convert : exn :=
  {| exn_name := "TypeError";
     exn_message := "Cannot convert object to primitive value" |}.

(** ToString, as [new Error(v)] applies it.  A number prints as its
    decimal text (the numbers of the model are the integers a double holds
    and prints exactly).  An array joins the texts of its elements with
    commas, [null] and [undefined] counting for the empty text.  A plain
    object answers "[object Object]" through [Object.prototype.toString];
    an own [toString] property, which in a parsed body is never a function,
    hides that method, [valueOf] gives no primitive either, and the
    conversion throws. *)
Fixpoint to_string (v : jsval) : completion string :=
  match v with
  | JUndefined => Normal "undefined"
  | JNull => Normal "null"
  | JBool true => Normal "true"
  | JBool false => Normal "false"
  | JNum n => Normal (pretty n)
  | JStr s => Normal s
  | JArr xs =>
      cbind
        ((fix each (xs : list jsval) : completion (list string) :=
            match xs with
            | [] => Normal []
            | x :: xs' =>
                cbind (match x with
                       | JUndefined | JNull => Normal ""
                       | _ => to_string x
                       end)
                  (fun part => cbind (each xs') (fun parts => Normal (part :: parts)))
            end) xs)
        (fun parts => Normal (join "," parts))
  | JObj props =>
      if obj_has props "toString" then Throw TypeError_convert
      else Normal "[object Object]"
  end.

(** [new Error(v)]: the message is ToString of [v], and the empty text
    when [v] is [undefined]. *)
Definition new_Error (v : jsval) : completion exn :=
  match v with
  | JUndefined => Normal {| exn_name := "Error"; exn_message := "" |}
  | _ =>
      message ← to_string v;
      Normal {| exn_name := "Error"; exn_message := message |}
  end.

(** The TypeError of reading a property of [null] or [undefined] (wording of
    V8). *)
Definition TypeError_read (v : jsval) (k : string) : exn :=
  {| exn_name := "TypeError";
     exn_message := "Cannot read properties of "
                    ++ match v with
                       | JNull => "null"
                       | _ => "undefined"
                       end
                    ++ " (reading '" ++ k ++ "')" |}.

(** [v.k] for a name [k] that is neither an index nor [length]: only plain
    objects carry such a property; [null] and [undefined] throw. *)
Definition get_named_prop (v : jsval) (k : string) : completion jsval :=
  match v with
  | JUndefined | JNull => Throw (TypeError_read v k)
  | JObj o => Normal (obj_get o k)
  | _ => Normal JUndefined
  end.

(** ** JSON.stringify *)

Module JSON.

Definition dquote : ascii := "034"%char.
Definition backslash : ascii := "092"%char.

Definition hex_digit (n : nat) : ascii :=
  nth n [ "0"; "1"; "2"; "3"; "4"; "5"; "6"; "7"; "8"; "9";
          "a"; "b"; "c"; "d"; "e"; "f" ]%char "0"%char.

(** QuoteJSONString on one code unit. *)
Definition quote_char (c : ascii) : string :=
  let n := nat_of_ascii c in
  if Ascii.eqb c dquote then String backslash (String dquote "")
  else if Ascii.eqb c backslash then String backslash (String backslash "")
  else if (n =? 8)%nat then "\b"
  else if (n =? 12)%nat then "\f"
  else if (n =? 10)%nat then "\n"
  else if (n =? 13)%nat then "\r"
  else if (n =? 9)%nat then "\t"
  else if (n <? 32)%nat then
    "\u00" ++ String (hex_digit (n / 16)%nat) (String (hex_digit (n mod 16)%nat) "")
  else String c "".

Fixpoint quote_body (s : string) : string :=
  match s with
  | EmptyString => ""
  | String c s' => quote_char c ++ quote_body s'
  end.

Definition quote (s : string) : string :=
  String dquote (quote_body s ++ String dquote "").

(** SerializeJSONProperty for a value in array-element position
    ([undefined] prints as [null] there); object members whose value is
    [undefined] are left out. *)
Fixpoint serialize (v : jsval) : string :=
  match v with
  | JUndefined | JNull => "null"
  | JBool true => "true"
  | JBool false => "false"
  | JNum n => pretty n
  | JStr s => quote s
  | JArr xs => "[" ++ join "," (map serialize xs) ++ "]"
  | JObj props =>
      "{" ++ join ","
               (omap (fun p : string * jsval =>
                        match p with
                        | (_, JUndefined) => None
                        | (k, v) => Some (quote k ++ ":" ++ serialize v)
                        end) props)
          ++ "}"
  end.

(** [JSON.stringify(v)]: [undefined] for [undefined], a string otherwise. *)
Definition stringify (v : jsval) : jsval :=
  match v with
  | JUndefined => JUndefined
  | _ => JStr (serialize v)
  end.

End JSON.

(** ** Reading JSON text back *)

Module JSONText.

Import JSON.

(** The receiving side of a request: a reader of the JSON texts that
    [JSON.serialize] writes (no white space, integers only, escapes of one
    byte).  It is used to state that a serialization loses nothing. *)

Definition digit_value (c : ascii) : option N :=
  let n := N_of_ascii c in
  if (48 <=? n)%N && (n <=? 57)%N then Some (n - 48)%N else None.

Fixpoint read_digits (acc : N) (s : string) : N * string :=
  match s with
  | String c r =>
      match digit_value c with
      | Some d => read_digits (10 * acc + d)%N r
      | None => (acc, s)
      end
  | EmptyString => (acc, s)
  end.

Definition starts_with_digit (s : string) : bool :=
  match s with
  | String c _ => match digit_value c with Some _ => true | None => false end
  | EmptyString => false
  end.

Definition read_natural (s : string) : option (N * string) :=
  if starts_with_digit s then Some (read_digits 0 s) else None.

Definition read_number (s : string) : option (Z * string) :=
  match s with
  | String c r =>
      if Ascii.eqb c "-"
      then '(n, rest) ← read_natural r; Some (- Z.of_N n, rest)%Z
      else '(n, rest) ← read_natural s; Some (Z.of_N n, rest)
  | EmptyString => None
  end.

Definition hex_value (c : ascii) : option nat :=
  let n := nat_of_ascii c in
  if (48 <=? n)%nat && (n <=? 57)%nat then Some (n - 48)%nat
  else if (97 <=? n)%nat && (n <=? 102)%nat then Some (n - 87)%nat
  else if (65 <=? n)%nat && (n <=? 70)%nat then Some (n - 55)%nat
  else None.

(** The character an escape letter stands for. *)
Definition escaped (e : ascii) : option ascii :=
  if Ascii.eqb e dquote then Some dquote
  else if Ascii.eqb e backslash then Some backslash
  else if Ascii.eqb e "/" then Some "/"%char
  else if Ascii.eqb e "b" then Some (ascii_of_nat 8)
  else if Ascii.eqb e "f" then Some (ascii_of_nat 12)
  else if Ascii.eqb e "n" then Some (ascii_of_nat 10)
  else if Ascii.eqb e "r" then Some (ascii_of_nat 13)
  else if Ascii.eqb e "t" then Some (ascii_of_nat 9)
  else None.

(** The characters of a string literal up to its closing quote. *)
Fixpoint read_string_body (s : string) : option (string * string) :=
  match s with
  | EmptyString => None
  | String c r =>
      if Ascii.eqb c dquote then Some ("", r)
      else if Ascii.eqb c backslash then
        match r with
        | String e r1 =>
            if Ascii.eqb e "u" then
              match r1 with
              | String h1 (String h2 (String h3 (String h4 r2))) =>
                  match hex_value h1, hex_value h2, hex_value h3, hex_value h4 with
                  | Some 0%nat, Some 0%nat, Some a, Some b =>
                      '(t, rest) ← read_string_body r2;
                      Some (String (ascii_of_nat (16 * a + b)) t, rest)
                  | _, _, _, _ => None
                  end
              | _ => None
              end
            else
              x ← escaped e;
              '(t, rest) ← read_string_body r1;
              Some (String x t, rest)
        | EmptyString => None
        end
      else '(t, rest) ← read_string_body r; Some (String c t, rest)
  end.

(** The rest of [s] behind [word]. *)
Fixpoint expect (word : string) (s : string) : option string :=
  match word, s with
  | EmptyString, _ => Some s
  | String c word', String c' s' => if Ascii.eqb c c' then expect word' s' else None
  | String _ _, EmptyString => None
  end.

Fixpoint read_value (fuel : nat) (s : string) : option (jsval * string) :=
  match fuel with
  | O => None
  | S fuel' =>
      match s with
      | EmptyString => None
      | String c r =>
          if Ascii.eqb c "n" then rest ← expect "ull" r; Some (JNull, rest)
          else if Ascii.eqb c "t" then rest ← expect "rue" r; Some (JBool true, rest)
          else if Ascii.eqb c "f" then rest ← expect "alse" r; Some (JBool false, rest)
          else if Ascii.eqb c dquote then
            '(t, rest) ← read_string_body r; Some (JStr t, rest)
          else if Ascii.eqb c "[" then
            match r with
            | String "]" rest => Some (JArr [], rest)
            | _ => '(xs, rest) ← read_elements fuel' r; Some (JArr xs, rest)
            end
          else if Ascii.eqb c "{" then
            match r with
            | String "}" rest => Some (JObj [], rest)
            | _ => '(ps, rest) ← read_members fuel' r; Some (JObj ps, rest)
            end
          else '(n, rest) ← read_number s; Some (JNum n, rest)
      end
  end
with read_elements (fuel : nat) (s : string) : option (list jsval * string) :=
  match fuel with
  | O => None
  | S fuel' =>
      '(v, rest) ← read_value fuel' s;
      match rest with
      | String "," rest' =>
          '(vs, rest'') ← read_elements fuel' rest'; Some (v :: vs, rest'')
      | String "]" rest' => Some ([v], rest')
      | _ => None
      end
  end
with read_members (fuel : nat) (s : string) : option (list (string * jsval) * string) :=
  match fuel with
  | O => None
  | S fuel' =>
      match s with
      | String c r =>
          if Ascii.eqb c dquote then
            '(k, rest) ← read_string_body r;
            match rest with
            | String ":" rest0 =>
                '(v, rest1) ← read_value fuel' rest0;
                match rest1 with
                | String "," rest' =>
                    '(ps, rest'') ← read_members fuel' rest'; Some ((k, v) :: ps, rest'')
                | String "}" rest' => Some ([(k, v)], rest')
                | _ => None
                end
            | _ => None
            end
          else None
      | EmptyString => None
      end
  end.

(** The number of rounds the reader needs for a value. *)
Fixpoint weight (v : jsval) : nat :=
  match v with
  | JArr xs => S (list_sum (map (fun x => S (weight x)) xs))
  | JObj ps => S (list_sum (map (fun p : string * jsval => S (weight (snd p))) ps))
  | _ => 1
  end.

(** A whole text. *)
Definition read (s : string) : option jsval :=
  match read_value (String.length s) s with
  | Some (v, EmptyString) => Some v
  | _ => None
  end.

(** Values that JSON text can express: no [undefined] inside. *)
Fixpoint expressible (v : jsval) : bool :=
  match v with
  | JUndefined => false
  | JArr xs => forallb expressible xs
  | JObj ps => forallb (fun p : string * jsval => expressible (snd p)) ps
  | _ => true
  end.

End JSONText.

(** ** Regular expressions, as far as the client uses them *)

Module Regex.

Inductive atom : Type :=
| AChar (c : ascii)      (* a literal character *)
| ADot.                  (* [.]: anything but a line terminator *)

Inductive regex : Type :=
| RAtom (a : atom)
| RPlus (a : atom)       (* greedy [a+] *)
| RSeq (r1 r2 : regex)
| RGroup (r : regex).    (* capturing group 1 *)

Definition line_terminator (c : ascii) : bool :=
  (nat_of_ascii c =? 10)%nat || (nat_of_ascii c =? 13)%nat.

Definition atom_ok (a : atom) (c : ascii) : bool :=
  match a with
  | AChar c' => Ascii.eqb c' c
  | ADot => negb (line_terminator c)
  end.

(** Continuations receive the rest of the input and the capture so far. *)
Definition cont (R : Type) := list ascii -> option (list ascii) -> option R.

(** After one [a] has been consumed: take as many more as possible, giving
    back one at a time while the continuation fails. *)
Fixpoint plus_loop {R} (a : atom) (s : list ascii) (cap : option (list ascii))
    (k : cont R) : option R :=
  match s with
  | c :: s' =>
      if atom_ok a c then
        match plus_loop a s' cap k with
        | Some r => Some r
        | None => k s cap
        end
      else k s cap
  | [] => k [] cap
  end.

(** Backtracking matcher anchored at the head of [s]. *)
Fixpoint rmatch {R} (r : regex) (s : list ascii) (cap : option (list ascii))
    (k : cont R) : option R :=
  match r with
  | RAtom a =>
      match s with
      | c :: s' => if atom_ok a c then k s' cap else None
      | [] => None
      end
  | RPlus a =>
      match s with
      | c :: s' => if atom_ok a c then plus_loop a s' cap k else None
      | [] => None
      end
  | RSeq r1 r2 => rmatch r1 s cap (fun s' cap' => rmatch r2 s' cap' k)
  | RGroup r1 =>
      rmatch r1 s cap
        (fun s' _ => k s' (Some (take (length s - length s') s)))
  end.

(** [String.prototype.match] without the [g] flag: the leftmost start
    position at which the pattern matches; the result is capture 1. *)
Fixpoint search (r : regex) (s : list ascii) : option (option (list ascii)) :=
  match rmatch r s None (fun _ cap => Some cap) with
  | Some cap => Some cap
  | None =>
      match s with
      | [] => None
      | _ :: s' => search r s'
      end
  end.

Fixpoint lit (cs : list ascii) (r : regex) : regex :=
  match cs with
  | [] => r
  | c :: cs' => RSeq (RAtom (AChar c)) (lit cs' r)
  end.

End Regex.

(** ** api/client.js *)

Module ApiClient.

Import Regex.

Definition Blob := string.

Record Request := {
  req_url : string;
  req_method : string;
  req_headers : list (string * string);
  req_body : string
}.

(** The parts of a [Response] the client reads.  [resp_json] is
    [response.json()]: it rejects when the body is not JSON. *)
Record Response := {
  resp_ok : bool;
  resp_headers_get : string -> option string;
  resp_json : completion jsval;
  resp_blob : Blob
}.

Record Schedule := {
  blob : Blob;
  filename : string;
  contentType : string
}.

Section Client.

(** [import.meta.env.VITE_API_URL] *)
Variable VITE_API_URL : option string.

(** [fetch]: the server's answer to a request, or a network failure. *)
Variable fetch : Request -> completion Response.

Definition API_BASE_URL : string :=
  str_or VITE_API_URL "http://localhost:8000/api".

(** [/filename="(.+)"/] *)
Definition filename_pattern : regex :=
  lit (list_ascii_of_string "filename=")
    (RSeq (RAtom (AChar JSON.dquote))
       (RSeq (RGroup (RPlus ADot)) (RAtom (AChar JSON.dquote)))).

(** [header?.match(/filename="(.+)"/)?.[1]] *)
Definition disposition_filename (header : option string) : option string :=
  match header with
  | None => None
  | Some h =>
      match search filename_pattern (list_ascii_of_string h) with
      | Some (Some name) => Some (string_of_list_ascii name)
      | Some None => None
      | None => None
      end
  end.

(** [fetch(url)] without options: a GET that carries no header and no
    body of the client's own (the empty text here). *)
Definition teams_request : Request :=
  {| req_url := API_BASE_URL ++ "/teams/";
     req_method := "GET";
     req_headers := [];
     req_body := "" |}.

Definition fetchTeams : completion jsval :=
  response ← fetch teams_request;
  if negb (resp_ok response) then
    err ← new_Error (JStr "Failed to fetch teams");
    Throw err
  else resp_json response.

Definition preview_request (rawTsv : string) : Request :=
  {| req_url := API_BASE_URL ++ "/inspections/preview/";
     req_method := "POST";
     req_headers := [("Content-Type", "application/json")];
     req_body := JSON.serialize (JObj [("raw_tsv", JStr rawTsv)]) |}.

Definition previewSchedule (rawTsv : string) : completion jsval :=
  response ← fetch (preview_request rawTsv);
  if negb (resp_ok response) then
    err ← new_Error (JStr "Failed to preview schedule");
    Throw err
  else resp_json response.

Definition schedule_request (teamName : string) (entries : jsval)
    (outputDir : string) (saveToSystem : bool) : Request :=
  {| req_url := API_BASE_URL ++ "/inspections/schedule/";
     req_method := "POST";
     req_headers := [("Content-Type", "application/json")];
     req_body :=
       JSON.serialize
         (JObj [ ("team_name", JStr teamName);
                 ("entries_json", JSON.stringify entries);
                 ("output_dir", JStr outputDir);
                 ("save_to_system", JBool saveToSystem) ]) |}.

Definition generateSchedule (teamName : string) (entries : jsval)
    (outputDir : string) (saveToSystem : bool) : completion Schedule :=
  response ← fetch (schedule_request teamName entries outputDir saveToSystem);
  if negb (resp_ok response) then
    let error :=
      match resp_json response with
      | Normal v => v
      | Throw _ => JObj [("error", JStr "Failed to generate schedule")]
      end in
    message ← get_named_prop error "error";
    err ← new_Error (js_or message (JStr "Failed to generate schedule"));
    Throw err
  else
    let contentType := str_or (resp_headers_get response "Content-Type") "" in
    let filename :=
      str_or (disposition_filename
                (resp_headers_get response "Content-Disposition"))
             "schedule.xlsx" in
    let blob := resp_blob response in
    Normal {| blob := blob; filename := filename; contentType := contentType |}.

End Client.

End ApiClient.

(** ** utils/fileGeneration.js and hooks/useFileGeneration.js *)

Module FileGeneration.

Import ApiClient.

(** A [FileSystemWritableFileStream], by what its calls answer. *)
Record Writable := {
  w_write : Blob -> completion unit;
  w_close : completion unit
}.

Record FileHandle := {
  fh_createWritable : completion Writable
}.

(** A [FileSystemDirectoryHandle]. *)
Record DirHandle := {
  dh_name : string;
  dh_getFileHandle : string -> completion FileHandle
}.

(** The state held by the hook. *)
Record HookState := {
  error : option string;
  successMessage : option string;
  loading : bool;
  outputDir : string;
  useDefaultDownload : bool
}.

(** The hook's state together with what the browser has been asked to do:
    files offered as downloads and files written through a directory
    handle (directory name, file name, content). *)
Record World := {
  hook : HookState;
  downloads : list (Blob * string);
  written : list (string * string * Blob)
}.

(** Effectful code: a world transformer that returns or throws. *)
Definition Eff (A : Type) : Type := World -> completion A * World.

#[global] Instance Eff_ret : MRet Eff := fun A a w => (Normal a, w).
#[global] Instance Eff_bind : MBind Eff := fun A B k m w =>
  match m w with
  | (Normal a, w') => k a w'
  | (Throw e, w') => (Throw e, w')
  end.

Definition lift {A} (c : completion A) : Eff A := fun w => (c, w).

Definition try_catch {A} (body : Eff A) (handler : exn -> Eff A) : Eff A :=
  fun w =>
    match body w with
    | (Normal a, w') => (Normal a, w')
    | (Throw e, w') => handler e w'
    end.

Definition try_finally {A} (body : Eff A) (final : Eff unit) : Eff A :=
  fun w =>
    match body w with
    | (c, w') =>
        match final w' with
        | (Normal _, w'') => (c, w'')
        | (Throw e, w'') => (Throw e, w'')
        end
    end.

Definition modify_hook (f : HookState -> HookState) : Eff unit :=
  fun w => (Normal tt,
            {| hook := f (hook w); downloads := downloads w; written := written w |}).

Definition setError (v : option string) : Eff unit :=
  modify_hook (fun h =>
    {| error := v; successMessage := successMessage h; loading := loading h;
       outputDir := outputDir h; useDefaultDownload := useDefaultDownload h |}).

Definition setSuccessMessage (v : option string) : Eff unit :=
  modify_hook (fun h =>
    {| error := error h; successMessage := v; loading := loading h;
       outputDir := outputDir h; useDefaultDownload := useDefaultDownload h |}).

Definition setLoading (v : bool) : Eff unit :=
  modify_hook (fun h =>
    {| error := error h; successMessage := successMessage h; loading := v;
       outputDir := outputDir h; useDefaultDownload := useDefaultDownload h |}).

Definition setOutputDir (v : string) : Eff unit :=
  modify_hook (fun h =>
    {| error := error h; successMessage := successMessage h; loading := loading h;
       outputDir := v; useDefaultDownload := useDefaultDownload h |}).

(** [triggerBrowserDownload]: the browser saves [blob] as [filename]. *)
Definition triggerBrowserDownload (b : Blob) (name : string) : Eff unit :=
  fun w => (Normal tt,
            {| hook := hook w; downloads := downloads w ++ [(b, name)];
               written := written w |}).

(** [selectOutputDirectory]: [None] is the [null] returned when the user
    dismisses the picker. *)
Definition selectOutputDirectory (showDirectoryPicker : completion DirHandle)
    : completion (option (DirHandle * string)) :=
  match showDirectoryPicker with
  | Normal dirHandle => Normal (Some (dirHandle, str_or (Some (dh_name dirHandle)) ""))
  | Throw err =>
      if String.eqb (exn_name err) "AbortError" then Normal None else Throw err
  end.

(** The four awaited calls of [saveFileToDirectory]. *)
Definition write_calls (b : Blob) (name : string) (dirHandle : DirHandle)
    : completion unit :=
  fileHandle ← dh_getFileHandle dirHandle name;
  writable ← fh_createWritable fileHandle;
  _ ← w_write writable b;
  w_close writable.

(** [saveFileToDirectory]: the file is in the directory once the stream
    has been closed. *)
Definition saveFileToDirectory (b : Blob) (name : string) (dirHandle : DirHandle)
    : Eff unit :=
  fun w =>
    match write_calls b name dirHandle with
    | Normal _ =>
        (Normal tt,
         {| hook := hook w; downloads := downloads w;
            written := written w ++ [(dh_name dirHandle, name, b)] |})
    | Throw e => (Throw e, w)
    end.

(** What [dataValidator()] returns. *)
Record Validation := {
  valid : bool;
  validation_error : option string
}.

Section Handler.

(** The values the handler closes over: the state of the render that
    created it, the API call and the validator of the page, and what
    the directory picker will answer. *)
Variable captured : HookState.
Variable apiFunction : string -> completion Schedule.
Variable dataValidator : unit -> Validation.
Variable showDirectoryPicker : completion DirHandle.

(** The block that may pick a directory; [None] is the early [return]. *)
Definition choose_directory : Eff (option (option DirHandle * string)) :=
  let trimmedDir := outputDir captured in
  let dirHandle : option DirHandle := None in
  if negb (useDefaultDownload captured) && String.eqb (outputDir captured) "" then
    try_catch
      (result ← lift (selectOutputDirectory showDirectoryPicker);
       match result with
       | None => mret None
       | Some (h, dirName) => mret (Some (Some h, dirName))
       end)
      (fun _ =>
         _ ← setError (Some "Failed to select directory. Falling back to browser download.");
         mret (Some (dirHandle, "")))
  else mret (Some (dirHandle, trimmedDir)).

(** The body of the outer [try]. *)
Definition deliver (dirHandle : option DirHandle) (trimmedDir : string) : Eff unit :=
  s ← lift (apiFunction trimmedDir);
  let blob := blob s in
  let filename := filename s in
  if useDefaultDownload captured then
    _ ← triggerBrowserDownload blob filename;
    setSuccessMessage
      (Some ("Download complete, saved to default browser download folder as "
             ++ String JSON.dquote filename ++ String JSON.dquote ""))
  else
    match dirHandle with
    | Some h =>
        try_catch
          (_ ← saveFileToDirectory blob filename h;
           setSuccessMessage
             (Some ("Download complete, saved to output: "
                    ++ dh_name h ++ "/" ++ filename)))
          (fun _ =>
             _ ← setError (Some "Failed to save file to directory. Downloading instead.");
             triggerBrowserDownload blob filename)
    | None =>
        setSuccessMessage (Some ("Saved to " ++ trimmedDir ++ "/" ++ filename))
    end.

(** The handler returned by [createGenerateHandler]. *)
Definition generateHandler : Eff unit :=
  let validation := dataValidator tt in
  if negb (valid validation) then setError (validation_error validation)
  else
    choice ← choose_directory;
    match choice with
    | None => mret tt
    | Some (dirHandle, trimmedDir) =>
        _ ← setOutputDir trimmedDir;
        _ ← setLoading true;
        _ ← setError None;
        _ ← setSuccessMessage None;
        try_finally
          (try_catch (deliver dirHandle trimmedDir)
             (fun err => setError (Some (exn_message err))))
          (setLoading false)
    end.

End Handler.

(** The hook's state on the first render: the [useState] defaults. *)
Definition initial_hook : HookState :=
  {| error := None;
     successMessage := None;
     loading := false;
     outputDir := "";
     useDefaultDownload := true |}.

End FileGeneration.

(** ** context/TeamContext *)

Module TeamContext.

(** The two state cells of [TeamsProvider]. *)
Record TeamsState := {
  teams : jsval;
  error : option string
}.

Definition initial : TeamsState := {| teams := JArr []; error := None |}.

(** The effect run on mount:
    [fetchTeams().then(setTeams).catch(err => setError(err.message))]. *)
Definition mount (fetchTeams : completion jsval) (s : TeamsState) : TeamsState :=
  match fetchTeams with
  | Normal data => {| teams := data; error := error s |}
  | Throw err => {| teams := teams s; error := Some (exn_message err) |}
  end.

(** What the provider hands to the pages once the effect has run. *)
Definition TeamsProvider (VITE_API_URL : option string)
    (fetch : ApiClient.Request -> completion ApiClient.Response) : TeamsState :=
  mount (ApiClient.fetchTeams VITE_API_URL fetch) initial.

End TeamContext.

(** ** The handlers of the pages *)

Module PageHandlers.

Import ApiClient FileGeneration.

(** A page's own [entries] cell beside the world of its hook. *)
Record Page := {
  world : World;
  entries : jsval
}.

Definition Act (A : Type) : Type := Page -> completion A * Page.

#[global] Instance Act_ret : MRet Act := fun A a p => (Normal a, p).
#[global] Instance Act_bind : MBind Act := fun A B k m p =>
  match m p with
  | (Normal a, p') => k a p'
  | (Throw e, p') => (Throw e, p')
  end.

(** A call of one of the hook's setters. *)
Definition use_hook {A} (m : Eff A) : Act A :=
  fun p =>
    match m (world p) with
    | (c, w') => (c, {| world := w'; entries := entries p |})
    end.

Definition setEntries (v : jsval) : Act unit :=
  fun p => (Normal tt, {| world := world p; entries := v |}).

Definition await {A} (c : completion A) : Act A := fun p => (c, p).

Definition act_catch {A} (body : Act A) (handler : exn -> Act A) : Act A :=
  fun p =>
    match body p with
    | (Normal a, p') => (Normal a, p')
    | (Throw e, p') => handler e p'
    end.

Definition act_finally {A} (body : Act A) (final : Act unit) : Act A :=
  fun p =>
    match body p with
    | (c, p') =>
        match final p' with
        | (Normal _, p'') => (c, p'')
        | (Throw e, p'') => (Throw e, p'')
        end
    end.

Section Handlers.

Variable VITE_API_URL : option string.
Variable fetch : Request -> completion Response.

(** The values of the render that created the handlers. *)
Variable selectedTeam : string.
Variable rawTsv : string.

(** [handlePreview], the same on both pages but for the texts it logs.
    [result.entries] is read off the parsed body: an own property of a
    plain object, nothing on a primitive, a TypeError on [null].  (An array
    would answer its [entries] method, which is no value of [jsval]; array
    bodies are left out of the statements.) *)
Definition handlePreview : Act unit :=
  if String.eqb (trim rawTsv) "" then
    use_hook (setError (Some "Data is empty, cannot generate preview"))
  else
    _ ← use_hook (setLoading true);
    _ ← use_hook (setError None);
    act_finally
      (act_catch
         (result ← await (previewSchedule VITE_API_URL fetch rawTsv);
          entries ← await (get_named_prop result "entries");
          setEntries entries)
         (fun err => use_hook (setError (Some (exn_message err)))))
      (use_hook (setLoading false)).

(** The elements of the [entries] array of the render. *)
Variable entries : list jsval.

(** The validator both pages hand to [createGenerateHandler]. *)
Definition dataValidator (_ : unit) : Validation :=
  if String.eqb selectedTeam "" || (length entries =? 0)%nat then
    let errorMsg :=
      if String.eqb selectedTeam "" then "Please select a team"
      else "Please preview data to add entries" in
    {| valid := false; validation_error := Some errorMsg |}
  else {| valid := true; validation_error := None |}.

(** [disabled] of the Generate button. *)
Definition generate_disabled (loading : bool) : bool :=
  loading || (length entries =? 0)%nat || String.eqb selectedTeam "".

(** [handleGenerate] of the Schedule page: [generateSchedule] is called
    with three arguments, so [saveToSystem] takes its default. *)
Definition handleGenerate (captured : HookState)
    (showDirectoryPicker : completion DirHandle) : Eff unit :=
  generateHandler captured
    (fun trimmedDir =>
       generateSchedule VITE_API_URL fetch selectedTeam (JArr entries) trimmedDir false)
    dataValidator showDirectoryPicker.

End Handlers.

(** The rows of a table as the array value the page holds; a hole reads as
    [undefined]. *)
Definition rows_value (rows : array object) : list jsval :=
  map (fun row => match row with
                  | Some o => JObj o
                  | None => JUndefined
                  end) rows.

(** [onBlur] of a preview cell on the Schedule page. *)
Definition schedule_cell_onBlur (idx : nat) (field innerText : string)
    (prev : array object) : array object :=
  SchedulePage.handleCellChange idx field (JStr (trim innerText)) prev.

(** [onBlur] of a preview cell on the Daily Logs page. *)
Definition daily_cell_onBlur (idx : nat) (field innerText : string)
    (prev : array object) : array object :=
  DailyLogsPage.handleCellChange idx field (JStr (trim innerText)) prev.

End PageHandlers.

(** ** pages/SchedulePage.jsx, the page that keeps its own state *)

Module StandaloneSchedulePage.

Import ApiClient FileGeneration PageHandlers.

(** This page has no hook: [outputDir], [loading] and [error] are cells of
    its own, and it hands the file to the browser itself.  They are kept
    in the same record as the hook's cells; the two cells this page does
    not have are never touched. *)

Section Handlers.

Variable VITE_API_URL : option string.
Variable fetch : Request -> completion Response.

(** The values of the render that created the handlers. *)
Variable selectedTeam : string.
Variable rawTsv : string.

Definition handlePreview : Act unit :=
  if String.eqb (trim rawTsv) "" then mret tt
  else
    _ ← use_hook (setLoading true);
    _ ← use_hook (setError None);
    act_finally
      (act_catch
         (result ← await (previewSchedule VITE_API_URL fetch rawTsv);
          entries ← await (get_named_prop result "entries");
          setEntries entries)
         (fun err => use_hook (setError (Some (exn_message err)))))
      (use_hook (setLoading false)).

(** The elements of the [entries] array of the render. *)
Variable entries : list jsval.

(** What [prompt] answers: the text of the dialog, or [None] for the
    [null] of a cancelled dialog. *)
Variable prompt : option string.

Definition handleGenerate : Eff unit :=
  if String.eqb selectedTeam "" || (length entries =? 0)%nat then mret tt
  else
    match prompt with
    | None => mret tt
    | Some dir =>
        let trimmedDir := trim dir in
        _ ← setOutputDir trimmedDir;
        _ ← setLoading true;
        _ ← setError None;
        try_finally
          (try_catch
             (s ← lift (generateSchedule VITE_API_URL fetch selectedTeam
                          (JArr entries) trimmedDir false);
              triggerBrowserDownload (blob s) (filename s))
             (fun err => setError (Some (exn_message err))))
          (setLoading false)
    end.

End Handlers.

End StandaloneSchedulePage.

(** ** The date expression grammar of the back end *)

Module DateExpr.

Local Open Scope Z_scope.

(** Modelled from the spec: the Date Expression Parser of section 4.1 is
    back-end code that is not among the sources.  A calendar date of the
    proleptic Gregorian calendar. *)
Record date := mk_date { year : Z; month : Z; day : Z }.

Definition is_leap (y : Z) : bool :=
  (y mod 4 =? 0) && (negb (y mod 100 =? 0) || (y mod 400 =? 0)).

Definition days_in_month (y m : Z) : Z :=
  match m with
  | 1 | 3 | 5 | 7 | 8 | 10 | 12 => 31
  | 4 | 6 | 9 | 11 => 30
  | 2 => if is_leap y then 29 else 28
  | _ => 0
  end.

Definition valid_date (d : date) : bool :=
  (1 <=? year d) && (1 <=? month d) && (month d <=? 12)
  && (1 <=? day d) && (day d <=? days_in_month (year d) (month d)).

Definition days_before_year (y : Z) : Z :=
  let p := y - 1 in 365 * p + p / 4 - p / 100 + p / 400.

Definition days_before_month (y m : Z) : Z :=
  let feb := if is_leap y then 29 else 28 in
  match m with
  | 1 => 0
  | 2 => 31
  | 3 => 31 + feb
  | 4 => 62 + feb
  | 5 => 92 + feb
  | 6 => 123 + feb
  | 7 => 153 + feb
  | 8 => 184 + feb
  | 9 => 215 + feb
  | 10 => 245 + feb
  | 11 => 276 + feb
  | 12 => 306 + feb
  | _ => 0
  end.

(** The day number of a date; [(D2 - D1).days] is a difference of these. *)
Definition ordinal (d : date) : Z :=
  days_before_year (year d) + days_before_month (year d) (month d) + day d.

Definition days_between (d1 d2 : date) : Z := ordinal d2 - ordinal d1.

(** Calendar order. *)
Definition date_ltb (a b : date) : bool :=
  (year a <? year b)
  || ((year a =? year b)
      && ((month a <? month b) || ((month a =? month b) && (day a <? day b)))).

Definition date_leb (a b : date) : bool := negb (date_ltb b a).

(** The day after. *)
Definition next_day (d : date) : date :=
  if day d <? days_in_month (year d) (month d) then
    mk_date (year d) (month d) (day d + 1)
  else if month d <? 12 then mk_date (year d) (month d + 1) 1
  else mk_date (year d + 1) 1 1.

(** Modelled from the spec: "every calendar day from D1 through D2
    inclusive, ordered ascending" -- the loop that appends the current
    day and steps to the next while it is not past D2. *)
Fixpoint days_through (fuel : nat) (cur d2 : date) : list date :=
  match fuel with
  | O => []
  | S fuel' =>
      if date_leb cur d2 then cur :: days_through fuel' (next_day cur) d2
      else []
  end.

(** Modelled from the spec: a range "fails if D2 < D1". *)
Definition expand_range (d1 d2 : date) : option (list date) :=
  if date_ltb d2 d1 then None
  else Some (days_through (Z.to_nat (days_between d1 d2 + 1)) d1 d2).

(** *** Tokens *)

Definition is_space (c : ascii) : bool :=
  let n := nat_of_ascii c in
  (n =? 32)%nat || ((9 <=? n)%nat && (n <=? 13)%nat).

Definition is_digit (c : ascii) : bool :=
  let n := nat_of_ascii c in (48 <=? n)%nat && (n <=? 57)%nat.

Definition lower (c : ascii) : ascii :=
  let n := nat_of_ascii c in
  if (65 <=? n)%nat && (n <=? 90)%nat then ascii_of_nat (n + 32) else c.

Fixpoint drop_spaces (s : list ascii) : list ascii :=
  match s with
  | c :: s' => if is_space c then drop_spaces s' else s
  | [] => []
  end.

Definition trim (s : list ascii) : list ascii :=
  rev (drop_spaces (rev (drop_spaces s))).

Fixpoint split_on (sep : ascii) (s : list ascii) : list (list ascii) :=
  match s with
  | [] => [[]]
  | c :: s' =>
      if Ascii.eqb c sep then [] :: split_on sep s'
      else match split_on sep s' with
           | w :: ws => (c :: w) :: ws
           | [] => [[c]]
           end
  end.

(** A run of decimal digits, most significant first. *)
Fixpoint digits_value (acc : Z) (s : list ascii) : option Z :=
  match s with
  | [] => Some acc
  | c :: s' =>
      if is_digit c
      then digits_value (10 * acc + (Z.of_nat (nat_of_ascii c) - 48)) s'
      else None
  end.

Definition number (lo hi : nat) (s : list ascii) : option Z :=
  if (lo <=? length s)%nat && (length s <=? hi)%nat then digits_value 0 s
  else None.

(** Modelled from the spec: the year of a token -- two digits mean
    2000+YY, four digits are taken as they are. *)
Definition year_field (s : list ascii) : option Z :=
  match length s with
  | 2%nat => (fun yy => 2000 + yy) <$> digits_value 0 s
  | 4%nat => digits_value 0 s
  | _ => None
  end.

(** Modelled from the spec: a date token [MM/DD/YY], [MM/DD] (the year
    is then [implicit_year]) or [MM/DD/YYYY]. *)
Definition parse_token (implicit_year : Z) (s : list ascii) : option date :=
  let fields := split_on "/"%char (trim s) in
  let build (m d y : option Z) : option date :=
    match m, d, y with
    | Some m, Some d, Some y =>
        let r := mk_date y m d in
        if valid_date r then Some r else None
    | _, _, _ => None
    end in
  match fields with
  | [m; d] => build (number 1 2 m) (number 1 2 d) (Some implicit_year)
  | [m; d; y] => build (number 1 2 m) (number 1 2 d) (year_field y)
  | _ => None
  end.

(** *** Expressions *)

Definition starts_with_to (s : list ascii) : bool :=
  match s with
  | a :: b :: _ => Ascii.eqb (lower a) "t"%char && Ascii.eqb (lower b) "o"%char
  | _ => false
  end.

(** The text before and after the first [to], in any letter case. *)
Fixpoint split_range (s : list ascii) : option (list ascii * list ascii) :=
  if starts_with_to s then Some ([], drop 2 s)
  else match s with
       | [] => None
       | c :: s' =>
           match split_range s' with
           | Some (l, r) => Some (c :: l, r)
           | None => None
           end
       end.

Inductive parsed : Type :=
| Dates (ds : list date)
| DateParseError (offending : string).

Fixpoint parse_all (implicit_year : Z) (tokens : list (list ascii)) : parsed :=
  match tokens with
  | [] => Dates []
  | t :: ts =>
      match parse_token implicit_year t with
      | None => DateParseError (string_of_list_ascii (trim t))
      | Some d =>
          match parse_all implicit_year ts with
          | Dates ds => Dates (d :: ds)
          | DateParseError o => DateParseError o
          end
      end
  end.

(** Modelled from the spec: the grammar in its order of precedence --
    range, then multi-date, then single date. *)
Definition parse_dates (implicit_year : Z) (text : string) : parsed :=
  let s := trim (list_ascii_of_string text) in
  match split_range s with
  | Some (l, r) =>
      match parse_token implicit_year l, parse_token implicit_year r with
      | Some d1, Some d2 =>
          match expand_range d1 d2 with
          | Some ds => Dates ds
          | None => DateParseError (string_of_list_ascii s)
          end
      | None, _ => DateParseError (string_of_list_ascii (trim l))
      | _, None => DateParseError (string_of_list_ascii (trim r))
      end
  | None => parse_all implicit_year (split_on "&"%char s)
  end.

End DateExpr.

(** ** Sample values *)

Definition sample_refusal : exn :=
  {| exn_name := "NotAllowedError"; exn_message := "denied" |}.

(** A directory whose files cannot be opened for writing. *)
Definition sample_refusing_directory : FileGeneration.DirHandle :=
  {| FileGeneration.dh_name := "schedules";
     FileGeneration.dh_getFileHandle := fun _ => Throw sample_refusal |}.

Definition sample_document : ApiClient.Schedule :=
  {| ApiClient.blob := "PK"; ApiClient.filename := "week.xlsx";
     ApiClient.contentType := "application/zip" |}.

(** The hook of a page on which "Save to default download folder" has been
    unticked and no directory has been typed. *)
Definition sample_hook_state : FileGeneration.HookState :=
  {| FileGeneration.error := None;
     FileGeneration.successMessage := None;
     FileGeneration.loading := false;
     FileGeneration.outputDir := "";
     FileGeneration.useDefaultDownload := false |}.

Definition sample_world : FileGeneration.World :=
  {| FileGeneration.hook := sample_hook_state;
     FileGeneration.downloads := [];
     FileGeneration.written := [] |}.

Definition sample_validation : FileGeneration.Validation :=
  {| FileGeneration.valid := true; FileGeneration.validation_error := None |}.

(** [attachment; filename="week_20251012.xlsx"] *)
Definition sample_disposition : string :=
  "attachment; filename="
  ++ String JSON.dquote ("week_20251012.xlsx" ++ String JSON.dquote "").

(** A successful answer of the server. *)
Definition sample_ok_response : ApiClient.Response :=
  {| ApiClient.resp_ok := true;
     ApiClient.resp_headers_get := fun name =>
       if String.eqb name "Content-Disposition" then Some sample_disposition
       else if String.eqb name "Content-Type"
            then Some "application/vnd.openxmlformats-officedocument.spreadsheetml.sheet"
            else None;
     ApiClient.resp_json := Throw {| exn_name := "SyntaxError"; exn_message := "Unexpected token" |};
     ApiClient.resp_blob := "PK" |}.

(** [attachment; filename="a.xlsx"; size="3"] *)
Definition sample_two_quotes : string :=
  "attachment; filename="
  ++ String JSON.dquote
       ("a.xlsx" ++ String JSON.dquote
          ("; size=" ++ String JSON.dquote ("3" ++ String JSON.dquote ""))).

Definition sample_two_quotes_response : ApiClient.Response :=
  {| ApiClient.resp_ok := true;
     ApiClient.resp_headers_get := fun name =>
       if String.eqb name "Content-Disposition" then Some sample_two_quotes else None;
     ApiClient.resp_json := Throw {| exn_name := "SyntaxError"; exn_message := "Unexpected token" |};
     ApiClient.resp_blob := "PK" |}.

(** A refusal of the server whose body is the JSON text [null]. *)
Definition sample_null_response : ApiClient.Response :=
  {| ApiClient.resp_ok := false;
     ApiClient.resp_headers_get := fun _ => None;
     ApiClient.resp_json := Normal JS.JNull;
     ApiClient.resp_blob := "" |}.

(** A refusal of the server with a JSON body [{"error": ...}]. *)
Definition sample_error_response : ApiClient.Response :=
  {| ApiClient.resp_ok := false;
     ApiClient.resp_headers_get := fun _ => None;
     ApiClient.resp_json := Normal (JS.JObj [("error", JS.JStr "Unknown team: T9")]);
     ApiClient.resp_blob := "" |}.

Definition sample_entries : JS.jsval :=
  JS.JArr [ JS.JObj [ ("bin", JS.JStr "1017250"); ("county", JS.JStr "Erie");
                      ("due_date", JS.JNull);
                      ("scheduled_date", JS.JStr "2025-10-14");
                      ("lane_closed", JS.JStr "Y") ] ].

(** ** Vocabulary of the statements *)

(** A field that is missing, [null] or the empty string. *)
Definition missing_or_empty (v : JS.jsval) : Prop :=
  v = JS.JUndefined ∨ v = JS.JNull ∨ v = JS.JStr "".

(** The characters of a header value. *)
Definition chars (s : string) : list ascii := list_ascii_of_string s.

(** The literal text the file-name pattern starts with: [filename=] and an
    opening double quote. *)
Definition filename_key : list ascii := (chars "filename=" ++ [JSON.dquote])%list.

Definition no_line_terminator (name : list ascii) : Prop :=
  Forall (fun c => Regex.line_terminator c = false) name.

(** [name] stands in [h] as a quoted file name: after [filename=] and a
    double quote, before a double quote, not empty and on one line. *)
Definition quoted_filename_in (h name : list ascii) : Prop :=
  ∃ pre post,
    h = (pre ++ filename_key ++ name ++ JSON.dquote :: post)%list
    ∧ name ≠ [] ∧ no_line_terminator name.

(** The [filename=] and quote that follow [pre] are the first in the
    header: the key starts nowhere inside [pre]. *)
Definition key_first_after (pre : list ascii) : Prop :=
  ∀ p1 p2, pre = (p1 ++ p2)%list → p2 ≠ [] →
           ¬ filename_key `prefix_of` (p2 ++ filename_key)%list.

(** A continuation of the matcher that expects a closing double quote and
    answers [f] of the input it is given. *)
Definition closes {R} (f : list ascii → R) (k : Regex.cont R)
    (cap : option (list ascii)) : Prop :=
  ∀ s, k s cap = match s with
                 | c :: _ => if Ascii.eqb JSON.dquote c then Some (f s) else None
                 | [] => None
                 end.

(** The file-name pattern from behind its opening quote on, matched at the
    head of [s]. *)
Definition after_key (s : list ascii) : option (option (list ascii)) :=
  Regex.rmatch
    (Regex.RSeq (Regex.RGroup (Regex.RPlus Regex.ADot))
                (Regex.RAtom (Regex.AChar JSON.dquote)))
    s None (fun _ cap => Some cap).

(** What the matcher does once the group has consumed [s] down to [s1]:
    the group is recorded and the closing quote is expected. *)
Definition group_end (s : list ascii) : Regex.cont (option (list ascii)) :=
  fun s1 _ =>
    Regex.rmatch (Regex.RAtom (Regex.AChar JSON.dquote)) s1
      (Some (take (length s - length s1) s)) (fun _ cap => Some cap).

(** The number of days of a year. *)
Definition year_length (y : Z) : Z := if DateExpr.is_leap y then 366%Z else 365%Z.

(** ** Sample dates *)

Definition oct_14 : DateExpr.date := DateExpr.mk_date 2025 10 14.
Definition oct_16 : DateExpr.date := DateExpr.mk_date 2025 10 16.

(** The characters a number can start with. *)
Definition opens_number (c : ascii) : bool :=
  Ascii.eqb c "-"
  || match JSONText.digit_value c with Some _ => true | None => false end.

(** The characters a value can start with. *)
Definition opens_value (c : ascii) : bool :=
  opens_number c || Ascii.eqb c "n" || Ascii.eqb c "t" || Ascii.eqb c "f"
  || Ascii.eqb c JSON.dquote || Ascii.eqb c "[" || Ascii.eqb c "{".

(** One member of an object, as written. *)
Definition member_text (p : string * JS.jsval) : string :=
  JSON.quote (fst p) ++ ":" ++ JSON.serialize (snd p).

(** What the reader is shown to do on the text of a value. *)
Definition reads_back (v : JS.jsval) : Prop :=
  JSONText.expressible v = true →
  ∀ (fuel : nat) (r : string),
    (JSONText.weight v ≤ fuel)%nat → JSONText.starts_with_digit r = false →
    JSONText.read_value fuel (JSON.serialize v ++ r) = Some (v, r).

(** ** The handlers at work: vocabulary and sample values *)

(** A text of white space only. *)
Definition blank (s : string) : bool :=
  forallb JS.white_space (list_ascii_of_string s).

(** A page after a handler has run: the hook's new state and the new
    [entries]; downloads and written files as they were. *)
Definition page_with (h : FileGeneration.HookState) (v : JS.jsval)
    (p : PageHandlers.Page) : PageHandlers.Page :=
  {| PageHandlers.world :=
       {| FileGeneration.hook := h;
          FileGeneration.downloads :=
            FileGeneration.downloads (PageHandlers.world p);
          FileGeneration.written :=
            FileGeneration.written (PageHandlers.world p) |};
     PageHandlers.entries := v |}.

(** The world with nothing changed but the hook's [error]. *)
Definition with_error (msg : option string) (w : FileGeneration.World)
    : FileGeneration.World :=
  {| FileGeneration.hook :=
       {| FileGeneration.error := msg;
          FileGeneration.successMessage :=
            FileGeneration.successMessage (FileGeneration.hook w);
          FileGeneration.loading := FileGeneration.loading (FileGeneration.hook w);
          FileGeneration.outputDir := FileGeneration.outputDir (FileGeneration.hook w);
          FileGeneration.useDefaultDownload :=
            FileGeneration.useDefaultDownload (FileGeneration.hook w) |};
     FileGeneration.downloads := FileGeneration.downloads w;
     FileGeneration.written := FileGeneration.written w |}.

(** The hook at the end of a run that reached the API call: [loading] is
    off again and [outputDir] holds the directory of the run. *)
Definition hook_after (err success : option string) (dir : string)
    (w : FileGeneration.World) : FileGeneration.HookState :=
  {| FileGeneration.error := err;
     FileGeneration.successMessage := success;
     FileGeneration.loading := false;
     FileGeneration.outputDir := dir;
     FileGeneration.useDefaultDownload :=
       FileGeneration.useDefaultDownload (FileGeneration.hook w) |}.

(** Tab, space, line feed. *)
Definition sample_blank_text : string :=
  String "009" (String " " (String "010" "")).

(** Two cells of a pasted row, with the tab between them and a line feed
    after them. *)
Definition sample_tsv : string :=
  "1017250" ++ String "009" ("Erie" ++ String "010" "").

Definition sample_preview_response : ApiClient.Response :=
  {| ApiClient.resp_ok := true;
     ApiClient.resp_headers_get := fun _ => None;
     ApiClient.resp_json := Normal (JS.JObj [("entries", sample_entries)]);
     ApiClient.resp_blob := "" |}.

Definition sample_page : PageHandlers.Page :=
  {| PageHandlers.world := sample_world; PageHandlers.entries := JS.JArr [] |}.

(** Whether a Generate click ends at a dismissed directory picker. *)
Definition dismissed (captured : FileGeneration.HookState)
    (showDirectoryPicker : completion FileGeneration.DirHandle) : bool :=
  negb (FileGeneration.useDefaultDownload captured)
  && String.eqb (FileGeneration.outputDir captured) ""
  && match showDirectoryPicker with
     | Throw e => String.eqb (exn_name e) "AbortError"
     | Normal _ => false
     end.

(** The directory a Generate click that is not dismissed goes on with: the
    picked directory's name when the picker was opened (nothing when it
    failed), the text of the output field otherwise. *)
Definition run_dir (captured : FileGeneration.HookState)
    (showDirectoryPicker : completion FileGeneration.DirHandle) : string :=
  if negb (FileGeneration.useDefaultDownload captured)
     && String.eqb (FileGeneration.outputDir captured) ""
  then match showDirectoryPicker with
       | Normal h => FileGeneration.dh_name h
       | Throw _ => ""
       end
  else FileGeneration.outputDir captured.

(** The world once a run has made its four state calls before the API
    call. *)
Definition started (dir : string) (w : FileGeneration.World) : FileGeneration.World :=
  {| FileGeneration.hook :=
       {| FileGeneration.error := None;
          FileGeneration.successMessage := None;
          FileGeneration.loading := true;
          FileGeneration.outputDir := dir;
          FileGeneration.useDefaultDownload :=
            FileGeneration.useDefaultDownload (FileGeneration.hook w) |};
     FileGeneration.downloads := FileGeneration.downloads w;
     FileGeneration.written := FileGeneration.written w |}.

(** A directory that takes every file. *)
Definition sample_directory : FileGeneration.DirHandle :=
  {| FileGeneration.dh_name := "schedules";
     FileGeneration.dh_getFileHandle := fun _ =>
       Normal {| FileGeneration.fh_createWritable :=
                   Normal {| FileGeneration.w_write := fun _ => Normal tt;
                             FileGeneration.w_close := Normal tt |} |} |}.

(** What the picker throws when the user closes it. *)
Definition sample_abort : exn :=
  {| exn_name := "AbortError"; exn_message := "The user aborted a request." |}.

(** The hook of a page with the box unticked and a path typed. *)
Definition sample_typed_hook : FileGeneration.HookState :=
  {| FileGeneration.error := None;
     FileGeneration.successMessage := None;
     FileGeneration.loading := false;
     FileGeneration.outputDir := "/srv/schedules";
     FileGeneration.useDefaultDownload := false |}.

Definition sample_network_failure : exn :=
  {| exn_name := "TypeError"; exn_message := "Failed to fetch" |}.

(** The rows of a previewed table: two bridges, the second without a due
    date. *)
Definition sample_rows : list (option JS.object) :=
  [ Some [ ("bin", JS.JStr "1017250"); ("county", JS.JStr "Erie");
           ("due_date", JS.JStr "10/31/25");
           ("scheduled_date", JS.JStr "2025-10-14") ];
    Some [ ("bin", JS.JStr "1017260"); ("county", JS.JStr "Erie");
           ("due_date", JS.JNull);
           ("scheduled_date", JS.JStr "2025-10-16") ] ].

(** The place of a day in the row of buttons: Sunday to Saturday, then
    the invalid dates. *)
Definition week_rank (d : DailyLogsPage.day_index) : nat :=
  match d with
  | DailyLogsPage.DayNum n => n
  | DailyLogsPage.DayNaN => 7
  end.

(** What [getDay()] can answer: 0 to 6, or [NaN]. *)
Definition on_week (d : DailyLogsPage.day_index) : Prop :=
  match d with
  | DailyLogsPage.DayNum n => (n < 7)%nat
  | DailyLogsPage.DayNaN => True
  end.

(** The order the default sort puts two days in. *)
Definition key_le (a b : DailyLogsPage.day_index) : Prop :=
  String.leb (DailyLogsPage.day_key a) (DailyLogsPage.day_key b).

(** The entries of a day, in the order of the input. *)
Definition entries_of_day (Date_getDay : JS.jsval → DailyLogsPage.day_index)
    (d : DailyLogsPage.day_index) (entries : list JS.object) : list JS.object :=
  filter (λ e, Date_getDay (JS.obj_get e "scheduled_date") = d) entries.

(** A calendar that knows three dates of October 2025 and takes every
    other value for an invalid date. *)
Definition sample_getDay (v : JS.jsval) : DailyLogsPage.day_index :=
  match v with
  | JS.JStr s =>
      if String.eqb s "2025-10-12" then DailyLogsPage.DayNum 0
      else if String.eqb s "2025-10-14" then DailyLogsPage.DayNum 2
      else if String.eqb s "2025-10-16" then DailyLogsPage.DayNum 4
      else DailyLogsPage.DayNaN
  | _ => DailyLogsPage.DayNaN
  end.

(** Four entries: two on a Tuesday, one on a Sunday, one without a
    date. *)
Definition sample_log_entries : list JS.object :=
  [ [ ("bin", JS.JStr "1017250"); ("scheduled_date", JS.JStr "2025-10-14") ];
    [ ("bin", JS.JStr "1017260"); ("scheduled_date", JS.JStr "2025-10-12") ];
    [ ("bin", JS.JStr "1017270"); ("scheduled_date", JS.JNull) ];
    [ ("bin", JS.JStr "1017280"); ("scheduled_date", JS.JStr "2025-10-14") ] ].

(** Values whose numbers all lie within the integers a double holds
    exactly, where the decimal text is what JavaScript prints. *)
Fixpoint safe_numbers (v : JS.jsval) : bool :=
  match v with
  | JS.JNum n => (Z.abs n <=? 9007199254740992)%Z
  | JS.JArr xs => forallb safe_numbers xs
  | _ => true
  end.

(** A refusal of the server whose [error] is an object with a property
    named [toString]. *)
Definition sample_object_error_response : ApiClient.Response :=
  {| ApiClient.resp_ok := false;
     ApiClient.resp_headers_get := fun _ => None;
     ApiClient.resp_json :=
       Normal (JS.JObj [("error", JS.JObj [("toString", JS.JStr "x")])]);
     ApiClient.resp_blob := "" |}.

(** * Properties *)

Import JS.
Local Open Scope list_scope.

(** ** Objects and arrays *)

Lemma obj_get_set_eq (o : object) (k : string) (v : jsval) :
  obj_get (obj_set o k v) k = v.
Proof.
  induction o as [|[k' v'] o IH]; simpl.
  - by rewrite String.eqb_refl.
  - destruct (String.eqb k' k) eqn:E; simpl; rewrite E; [done | apply IH].
Qed.


Lemma arr_get_set_eq {A} (a : list (option A)) (i : nat) (x : A) :
  arr_get (arr_set a i x) i = Some x.
Proof.
  unfold arr_get, arr_set. destruct (decide (i < length a)) as [Hlt|Hge].
  - by rewrite list_lookup_insert_eq.
  - rewrite lookup_app_r by lia.
    rewrite lookup_app_r by (rewrite length_replicate; lia).
    rewrite length_replicate.
    by replace (i - length a - (i - length a)) with 0 by lia.
Qed.



(** ** The column layout *)

(** C2: the column layout is a fixed constant: county is column 0, bin 1,
    feature_carried 2, feature_crossed 3, the previous inspection's due date
    5, due_date 6, gr 9, access 15, scheduled_date 16 and town 19; the
    indices in between are not used; the Schedule page and the Daily Logs
    page hold the same mapping. *)
Theorem master_schedule_columns_fixed :
  let layout := SchedulePage.MASTER_SCHEDULE_COLUMNS in
  column_index layout "county" = Some 0
  ∧ column_index layout "bin" = Some 1
  ∧ column_index layout "feature_carried" = Some 2
  ∧ column_index layout "feature_crossed" = Some 3
  ∧ column_index layout "prev_inspection_due_date" = Some 5
  ∧ column_index layout "due_date" = Some 6
  ∧ column_index layout "gr" = Some 9
  ∧ column_index layout "access" = Some 15
  ∧ column_index layout "scheduled_date" = Some 16
  ∧ column_index layout "town" = Some 19
  ∧ map fst layout =
      [ "county"; "bin"; "feature_carried"; "feature_crossed";
        "prev_inspection_due_date"; "due_date"; "gr"; "access";
        "scheduled_date"; "town" ]
  ∧ Forall (fun gap => gap ∉ map snd layout) [4; 7; 8; 10; 11; 12; 13; 14; 17; 18]
  ∧ DailyLogsPage.MASTER_SCHEDULE_COLUMNS = SchedulePage.MASTER_SCHEDULE_COLUMNS.
Proof.
  cbv zeta. repeat split.
  repeat constructor; cbn; rewrite !elem_of_cons, elem_of_nil; lia.
Qed.

(** ** Editing a preview cell *)



(** ** Rendering a preview cell *)

(** C8: a missing or empty due_date is shown as a dash; any other missing
    or empty field is shown as an empty cell; on both pages. *)
Theorem blank_cell_text (entry : object) (field : string) :
  missing_or_empty (obj_get entry field) →
  SchedulePage.cell_text entry field
    = Some (if decide (field = "due_date") then "-" else "")
  ∧ DailyLogsPage.cell_text entry field = SchedulePage.cell_text entry field.
Proof.
  intros Hv. split; [|done].
  unfold SchedulePage.cell_text, SchedulePage.cell_child, js_or.
  assert (truthy (obj_get entry field) = false) as ->
    by (destruct Hv as [-> | [-> | ->]]; done).
  case_decide as Hf.
  - subst field. done.
  - destruct (String.eqb field "due_date") eqn:E; [|done].
    apply String.eqb_eq in E. done.
Qed.

Lemma blank_cell_text_witness :
  let entry := [("bin", JStr "1017250"); ("due_date", JNull); ("town", JStr "")] in
  SchedulePage.cell_text entry "due_date" = Some "-"
  ∧ SchedulePage.cell_text entry "town" = Some ""
  ∧ SchedulePage.cell_text entry "county" = Some "".
Proof.
  cbv zeta. split; [|split].
  - apply (blank_cell_text _ "due_date"). right; left; reflexivity.
  - apply (blank_cell_text _ "town"). right; right; reflexivity.
  - apply (blank_cell_text _ "county"). left; reflexivity.
Defined.

(** C9: a preview cell carries the class [lc-y] exactly when its field is
    lane_closed and its value is the string [Y]; every other cell has the
    empty class; on both pages. *)
Theorem lane_closed_class (entry : object) (field : string) :
  (SchedulePage.cell_className entry field = "lc-y"
   ↔ field = "lane_closed" ∧ obj_get entry field = JStr "Y")
  ∧ (SchedulePage.cell_className entry field = "lc-y"
     ∨ SchedulePage.cell_className entry field = "")
  ∧ DailyLogsPage.cell_className entry field = SchedulePage.cell_className entry field.
Proof.
  unfold SchedulePage.cell_className, DailyLogsPage.cell_className.
  split; [|split; [|done]].
  - destruct (String.eqb field "lane_closed") eqn:Ef; simpl.
    + apply String.eqb_eq in Ef.
      destruct (obj_get entry field) as [| | | |s| |]; simpl;
        try (split; [done | intros [_ ?]; done]).
      destruct (String.eqb s "Y") eqn:Es.
      * apply String.eqb_eq in Es. by subst.
      * apply String.eqb_neq in Es. split; [done | intros [_ ?]; congruence].
    + apply String.eqb_neq in Ef. split; [done | intros [? _]; done].
  - destruct (_ && _); auto.
Qed.

(** ** Grouping the entries by day *)

Section Grouping.

Import DailyLogsPage.

Variable Date_getDay : jsval → day_index.

Local Abbreviation group_step := (group_step Date_getDay).
Local Abbreviation entriesByDay := (entriesByDay Date_getDay).
Local Abbreviation entry_day := (entry_day Date_getDay).

Lemma group_step_lookup_eq (acc : gmap day_index (list object)) (e : object) :
  group_step acc e !! entry_day e
  = Some (default [] (acc !! entry_day e) ++ [e])%list.
Proof.
  unfold DailyLogsPage.group_step. rewrite lookup_alter_eq.
  destruct (acc !! entry_day e) as [b|] eqn:E.
  - by rewrite E.
  - by rewrite lookup_insert_eq.
Qed.

Lemma group_step_lookup_ne (acc : gmap day_index (list object)) (e : object) k :
  k ≠ entry_day e → group_step acc e !! k = acc !! k.
Proof.
  intros Hne. unfold DailyLogsPage.group_step.
  rewrite lookup_alter_ne by done.
  destruct (acc !! entry_day e); [done|]. by rewrite lookup_insert_ne.
Qed.

(** The bucket of a day holds the entries of that day, in input order;
    a day without entries has no bucket. *)
Lemma entriesByDay_lookup (entries : list object) (k : day_index) :
  entriesByDay entries !! k
  = match filter (λ e, entry_day e = k) entries with
    | [] => None
    | b => Some b
    end.
Proof.
  induction entries as [|e entries IH] using rev_ind.
  - done.
  - unfold DailyLogsPage.entriesByDay in *. rewrite foldl_snoc, filter_app.
    destruct (decide (k = entry_day e)) as [->|Hne].
    + rewrite group_step_lookup_eq, IH.
      rewrite (filter_cons_True _ e []) by done.
      by destruct (filter _ entries).
    + rewrite group_step_lookup_ne, IH by done.
      rewrite (filter_cons_False _ e []) by done.
      by rewrite app_nil_r.
Qed.

Lemma group_step_union (acc : gmap day_index (list object)) (e : object) :
  mjoin (snd <$> map_to_list (group_step acc e))
  ≡ₚ (mjoin (snd <$> map_to_list acc) ++ [e])%list.
Proof.
  unfold DailyLogsPage.group_step.
  destruct (acc !! entry_day e) as [b|] eqn:E.
  - rewrite <-(insert_delete_id acc (entry_day e) b) by done.
    rewrite alter_insert_eq.
    rewrite !map_to_list_insert by apply lookup_delete_eq.
    csimpl. by rewrite <-(assoc_L (++)), (Permutation_app_comm [e]), (assoc_L (++)).
  - rewrite alter_insert_eq, map_to_list_insert by done.
    csimpl. apply Permutation_cons_append.
Qed.

End Grouping.

(** C1: grouping by day drops no entry and duplicates none: the buckets
    taken together are a rearrangement of the input, and the bucket of each
    day key holds exactly the entries whose scheduled_date falls on that
    day, so every entry sits in the one bucket of its own day. *)
Theorem grouping_partitions
    (Date_getDay : jsval → DailyLogsPage.day_index) (entries : list object) :
  DailyLogsPage.bucket_union Date_getDay entries ≡ₚ entries
  ∧ (∀ k, default [] (DailyLogsPage.entriesByDay Date_getDay entries !! k)
          = filter (λ e, Date_getDay (obj_get e "scheduled_date") = k) entries)
  ∧ (∀ k, DailyLogsPage.entriesByDay Date_getDay entries !! k ≠ Some [])
  ∧ DailyLogsPage.daysWithEntries Date_getDay entries
    ≡ₚ (map_to_list (DailyLogsPage.entriesByDay Date_getDay entries)).*1.
Proof.
  split; [|split; [|split]].
  - unfold DailyLogsPage.bucket_union.
    induction entries as [|e entries IH] using rev_ind; [done|].
    unfold DailyLogsPage.entriesByDay in *. rewrite foldl_snoc.
    by rewrite group_step_union, IH.
  - intros k. rewrite entriesByDay_lookup. unfold DailyLogsPage.entry_day.
    by destruct (filter _ entries).
  - intros k. rewrite entriesByDay_lookup. by destruct (filter _ entries).
  - unfold DailyLogsPage.daysWithEntries. apply merge_sort_Permutation.
Qed.

(** ** The generate handler *)

Section GenerateHandler.

Import ApiClient FileGeneration.

Variable captured : HookState.
Variable apiFunction : string → completion Schedule.
Variable dataValidator : unit → Validation.
Variable showDirectoryPicker : completion DirHandle.

Local Abbreviation handler :=
  (generateHandler captured apiFunction dataValidator showDirectoryPicker).

Lemma str_or_empty_default (s : string) : str_or (Some s) "" = s.
Proof.
  unfold str_or. destruct (String.eqb s "") eqn:E; [|done].
  apply String.eqb_eq in E. by subst.
Qed.

(** Whatever the validator, the picker, the API and the file system
    answer, the handler itself completes: every failure ends up in the
    hook's [error]. *)
Lemma generateHandler_completes (w : World) :
  ∃ w', handler w = (Normal tt, w').
Proof.
  unfold generateHandler. destruct (negb (valid (dataValidator tt))).
  { eexists. reflexivity. }
  unfold mbind, Eff_bind.
  assert (∃ c w1, choose_directory captured showDirectoryPicker w = (Normal c, w1))
    as (c & w1 & ->).
  { unfold choose_directory.
    destruct (negb (useDefaultDownload captured) && String.eqb (outputDir captured) "").
    - unfold try_catch, mbind, Eff_bind, lift, selectOutputDirectory.
      destruct showDirectoryPicker as [h|err]; simpl.
      + eauto.
      + destruct (String.eqb (exn_name err) "AbortError"); simpl; eauto.
    - eexists _, _. reflexivity. }
  destruct c as [[dirHandle trimmedDir]|]; [|eexists; reflexivity].
  simpl. unfold try_finally, try_catch.
  destruct (deliver captured apiFunction dirHandle trimmedDir _) as [[[]|e] w2];
    simpl; eauto.
Qed.

End GenerateHandler.

(** C3: when the user has picked a target directory and writing the
    generated file into it fails, the handler still completes, the hook's
    error reads "Failed to save file to directory. Downloading instead.",
    and the document is handed to the browser as a download under its file
    name; nothing is recorded as written. *)
Theorem directory_write_failure_falls_back_to_download
    (captured : FileGeneration.HookState)
    (apiFunction : string → completion ApiClient.Schedule)
    (dataValidator : unit → FileGeneration.Validation)
    (showDirectoryPicker : completion FileGeneration.DirHandle)
    (dirHandle : FileGeneration.DirHandle) (doc : ApiClient.Schedule)
    (err : exn) (w : FileGeneration.World) :
  FileGeneration.valid (dataValidator tt) = true →
  FileGeneration.useDefaultDownload captured = false →
  FileGeneration.outputDir captured = "" →
  showDirectoryPicker = Normal dirHandle →
  apiFunction (FileGeneration.dh_name dirHandle) = Normal doc →
  FileGeneration.write_calls (ApiClient.blob doc) (ApiClient.filename doc) dirHandle
    = Throw err →
  ∃ w',
    FileGeneration.generateHandler captured apiFunction dataValidator
      showDirectoryPicker w = (Normal tt, w')
    ∧ FileGeneration.error (FileGeneration.hook w')
      = Some "Failed to save file to directory. Downloading instead."
    ∧ FileGeneration.downloads w'
      = (FileGeneration.downloads w ++ [(ApiClient.blob doc, ApiClient.filename doc)])%list
    ∧ FileGeneration.written w' = FileGeneration.written w
    ∧ FileGeneration.loading (FileGeneration.hook w') = false.
Proof.
  intros Hvalid Hdefault Hdir Hpick Hapi Hwrite.
  unfold FileGeneration.generateHandler. rewrite Hvalid. simpl.
  unfold FileGeneration.choose_directory. rewrite Hdefault, Hdir, Hpick. simpl.
  unfold mbind, FileGeneration.Eff_bind, FileGeneration.try_catch,
    FileGeneration.try_finally, FileGeneration.lift. simpl.
  unfold FileGeneration.deliver. rewrite Hdefault.
  unfold mbind, FileGeneration.Eff_bind, FileGeneration.lift,
    FileGeneration.try_catch, FileGeneration.saveFileToDirectory.
  pose proof (str_or_empty_default (FileGeneration.dh_name dirHandle)) as Hname.
  unfold str_or in Hname. rewrite !Hname, Hapi, Hwrite. simpl.
  eexists. split; [reflexivity|]. simpl. done.
Qed.

Lemma directory_write_failure_witness :
  ∃ w',
    FileGeneration.generateHandler sample_hook_state (fun _ => Normal sample_document)
      (fun _ => sample_validation) (Normal sample_refusing_directory) sample_world
    = (Normal tt, w')
    ∧ FileGeneration.error (FileGeneration.hook w')
      = Some "Failed to save file to directory. Downloading instead."
    ∧ FileGeneration.downloads w' = [("PK", "week.xlsx")]
    ∧ FileGeneration.written w' = []
    ∧ FileGeneration.loading (FileGeneration.hook w') = false.
Proof.
  exact (directory_write_failure_falls_back_to_download
           sample_hook_state (fun _ => Normal sample_document)
           (fun _ => sample_validation) (Normal sample_refusing_directory)
           sample_refusing_directory sample_document sample_refusal sample_world
           eq_refl eq_refl eq_refl eq_refl eq_refl eq_refl).
Defined.

(** ** The file-name pattern *)

Section FilenamePattern.

Import Regex.

Local Abbreviation q := JSON.dquote.

Lemma rmatch_lit_app {R} cs r s cap (k : cont R) :
  rmatch (lit cs r) (cs ++ s) cap k = rmatch r s cap k.
Proof.
  induction cs as [|c cs IH]; [done|].
  simpl. by rewrite Ascii.eqb_refl.
Qed.

Lemma rmatch_lit_inv {R} cs r t cap (k : cont R) x :
  rmatch (lit cs r) t cap k = Some x →
  ∃ s, t = (cs ++ s)%list ∧ rmatch r s cap k = Some x.
Proof.
  revert t. induction cs as [|c cs IH]; intros t H; [by exists t|].
  simpl in H. destruct t as [|c' t]; [done|].
  destruct (Ascii.eqb c c') eqn:E; [|done].
  apply Ascii.eqb_eq in E. subst c'.
  destruct (IH _ H) as (s & -> & Hs). by exists s.
Qed.

Lemma plus_loop_no_quote {R} (f : list ascii → R) k cap s :
  closes f k cap → q ∉ s → plus_loop ADot s cap k = None.
Proof.
  intros Hk. induction s as [|c s IH]; intros Hq; simpl.
  - by rewrite Hk.
  - apply not_elem_of_cons in Hq as [Hc Hs].
    assert (k (c :: s) cap = None) as Hhere.
    { rewrite Hk. destruct (Ascii.eqb q c) eqn:E; [|done].
      apply Ascii.eqb_eq in E. congruence. }
    destruct (negb (line_terminator c)); [|done].
    by rewrite IH.
Qed.

(** Greedy: the group ends at the last quote. *)
Lemma plus_loop_last_quote {R} (f : list ascii → R) k cap name post :
  closes f k cap → no_line_terminator name → q ∉ post →
  plus_loop ADot (name ++ q :: post) cap k = Some (f (q :: post)).
Proof.
  intros Hk Hname Hpost. induction Hname as [|c name Hc _ IH]; simpl.
  - rewrite (plus_loop_no_quote f) by done.
    rewrite Hk. by rewrite Ascii.eqb_refl.
  - rewrite Hc. simpl. by rewrite IH.
Qed.

Lemma plus_loop_sound {R} (f : list ascii → R) k cap s r :
  closes f k cap → plus_loop ADot s cap k = Some r →
  ∃ name post, s = (name ++ q :: post)%list ∧ no_line_terminator name
               ∧ r = f (q :: post).
Proof.
  intros Hk. induction s as [|c s IH]; simpl; intros H.
  - by rewrite Hk in H.
  - assert (k (c :: s) cap = Some r →
            ∃ name post, c :: s = (name ++ q :: post)%list
                         ∧ no_line_terminator name ∧ r = f (q :: post)) as Hhere.
    { rewrite Hk. destruct (Ascii.eqb q c) eqn:E; [|done].
      apply Ascii.eqb_eq in E. subst c. intros [= <-].
      exists [], s. split; [done|]. split; [constructor | done]. }
    destruct (line_terminator c) eqn:Hc; simpl in H; [by apply Hhere|].
    destruct (plus_loop ADot s cap k) as [r'|] eqn:Hrec; [|by apply Hhere].
    injection H as ->.
    destruct (IH eq_refl) as (name & post & -> & Hname & ->).
    exists (c :: name), post. split; [done|]. split; [by constructor | done].
Qed.

Lemma plus_loop_complete {R} (f : list ascii → R) k cap name post :
  closes f k cap → no_line_terminator name →
  plus_loop ADot (name ++ q :: post) cap k ≠ None.
Proof.
  intros Hk Hname. induction Hname as [|c name Hc _ IH]; simpl.
  - destruct (plus_loop ADot post cap k); [done|].
    rewrite Hk. by rewrite Ascii.eqb_refl.
  - rewrite Hc. simpl.
    by destruct (plus_loop ADot (name ++ q :: post) cap k).
Qed.

Lemma after_key_closes (s : list ascii) :
  closes (fun s1 => Some (take (length s - length s1) s)) (group_end s) None.
Proof. by intros [|c s1]. Qed.

Lemma after_key_unfold (s : list ascii) :
  after_key s = match s with
                | c :: s' =>
                    if negb (line_terminator c)
                    then plus_loop ADot s' None (group_end s)
                    else None
                | [] => None
                end.
Proof. by destruct s. Qed.

Lemma take_group (c : ascii) (name post : list ascii) :
  take (length (c :: name ++ q :: post) - length (q :: post))
       (c :: name ++ q :: post) = c :: name.
Proof.
  replace (length (c :: name ++ q :: post) - length (q :: post))
    with (length (c :: name)) by (simpl; rewrite length_app; simpl; lia).
  by rewrite app_comm_cons, take_app_length.
Qed.

Lemma pattern_at_key (s : list ascii) :
  rmatch (ApiClient.filename_pattern) (filename_key ++ s) None (fun _ cap => Some cap)
  = after_key s.
Proof.
  unfold ApiClient.filename_pattern, filename_key, chars.
  by rewrite <-(assoc_L (++)), rmatch_lit_app.
Qed.

Lemma pattern_inv (t : list ascii) x :
  rmatch (ApiClient.filename_pattern) t None (fun _ cap => Some cap) = Some x →
  ∃ s, t = (filename_key ++ s)%list ∧ after_key s = Some x.
Proof.
  intros H. apply rmatch_lit_inv in H as (s & -> & H).
  cbn [rmatch atom_ok] in H. destruct s as [|c s]; [done|].
  destruct (Ascii.eqb q c) eqn:E; [|done].
  apply Ascii.eqb_eq in E. subst c.
  exists s. split; [|done].
  unfold filename_key, chars. by rewrite <-(assoc_L (++)).
Qed.

Lemma after_key_exact (name post : list ascii) :
  name ≠ [] → no_line_terminator name → q ∉ post →
  after_key (name ++ q :: post) = Some (Some name).
Proof.
  intros Hne Hname Hpost. destruct Hname as [|c name Hc Hname]; [done|].
  rewrite after_key_unfold, <-app_comm_cons, Hc. simpl negb. cbv iota.
  rewrite (plus_loop_last_quote _ _ _ name post (after_key_closes _) Hname Hpost).
  by rewrite take_group.
Qed.

Lemma after_key_sound (s : list ascii) x :
  after_key s = Some x →
  ∃ name post, s = (name ++ q :: post)%list ∧ name ≠ []
               ∧ no_line_terminator name ∧ x = Some name.
Proof.
  rewrite after_key_unfold. destruct s as [|c s]; [done|].
  destruct (line_terminator c) eqn:Hc; [done|]. simpl negb. cbv iota.
  intros H.
  apply (plus_loop_sound _ _ _ _ _ (after_key_closes _)) in H
    as (name & post & -> & Hname & ->).
  exists (c :: name), post. split; [done|]. split; [done|].
  split; [by constructor|]. by rewrite take_group.
Qed.

Lemma after_key_complete (name post : list ascii) :
  name ≠ [] → no_line_terminator name →
  after_key (name ++ q :: post) ≠ None.
Proof.
  intros Hne Hname. destruct Hname as [|c name Hc Hname]; [done|].
  rewrite after_key_unfold, <-app_comm_cons, Hc. simpl negb. cbv iota.
  by apply (plus_loop_complete _ _ _ _ _ (after_key_closes _)).
Qed.

Lemma search_unfold (r : regex) (h : list ascii) :
  search r h = match rmatch r h None (fun _ cap => Some cap) with
               | Some cap => Some cap
               | None => match h with
                         | [] => None
                         | _ :: h' => search r h'
                         end
               end.
Proof. by destruct h. Qed.

Lemma search_sound (r : regex) (h : list ascii) c :
  search r h = Some c →
  ∃ pre t, h = (pre ++ t)%list ∧ rmatch r t None (fun _ cap => Some cap) = Some c.
Proof.
  induction h as [|a h IH]; rewrite search_unfold; intros H.
  - exists [], []. split; [done|].
    by destruct (rmatch r [] None _).
  - destruct (rmatch r (a :: h) None _) as [x|] eqn:E.
    + exists [], (a :: h). by simplify_eq.
    + destruct (IH H) as (pre & t & -> & Ht). by exists (a :: pre), t.
Qed.

Lemma search_complete (r : regex) (pre t : list ascii) :
  search r (pre ++ t) = None → rmatch r t None (fun _ cap => Some cap) = None.
Proof.
  induction pre as [|a pre IH]; rewrite search_unfold; simpl.
  - by destruct (rmatch r t None _).
  - destruct (rmatch r (a :: pre ++ t) None _); [done | apply IH].
Qed.

(** The leftmost start wins: where the pattern fails at every start
    inside [pre], the search answers what the pattern finds at [t]. *)
Lemma search_leftmost (r : regex) (pre t : list ascii) c :
  (∀ p1 p2, pre = (p1 ++ p2)%list → p2 ≠ [] →
            rmatch r (p2 ++ t) None (fun _ cap => Some cap) = None) →
  rmatch r t None (fun _ cap => Some cap) = Some c →
  search r (pre ++ t) = Some c.
Proof.
  intros Hpre Ht. induction pre as [|a pre IH]; rewrite search_unfold; simpl.
  - by rewrite Ht.
  - pose proof (Hpre [] (a :: pre) eq_refl) as Hhere.
    simpl in Hhere. rewrite Hhere by done.
    apply IH. intros p1 p2 -> Hp2. by apply (Hpre (a :: p1) p2).
Qed.

Lemma key_quote_is_last (j : nat) : filename_key !! j = Some q → j = 9.
Proof. do 10 (destruct j as [|j]; [done|]). done. Qed.

(** No match can start where the key does not start. *)
Lemma pattern_fails_off_key (p rest : list ascii) :
  p ≠ [] → ¬ filename_key `prefix_of` (p ++ filename_key) →
  rmatch ApiClient.filename_pattern (p ++ filename_key ++ rest) None
    (fun _ cap => Some cap) = None.
Proof.
  intros Hp Hoff.
  destruct (rmatch _ _ None _) as [x|] eqn:H; [|done].
  apply pattern_inv in H as (s & Heq & _). destruct Hoff.
  assert (10 ≤ length (p ++ filename_key))%nat as Hlen
    by (rewrite length_app; simpl; lia).
  apply (f_equal (take 10)) in Heq.
  rewrite (assoc_L (++)), take_app_le in Heq by done.
  rewrite (take_app_length' filename_key s 10) in Heq by done.
  pose proof (prefix_take (p ++ filename_key) 10) as Htake.
  by rewrite Heq in Htake.
Qed.

(** Where no double quote precedes it, the key is the first. *)
Lemma no_quote_key_first (pre : list ascii) : q ∉ pre → key_first_after pre.
Proof.
  intros Hq p1 p2 -> Hp2 Hprefix.
  assert ((p2 ++ filename_key) !! 9 = Some q) as Hl
    by by apply (prefix_lookup_Some filename_key).
  destruct (decide (9 < length p2)) as [Hlt|Hge].
  - rewrite lookup_app_l in Hl by done.
    apply list_elem_of_lookup_2 in Hl. apply Hq, elem_of_app. by right.
  - rewrite lookup_app_r in Hl by lia.
    assert (0 < length p2) by (destruct p2; [done | simpl; lia]).
    apply key_quote_is_last in Hl. lia.
Qed.

(** From the first key to the last quote. *)
Lemma disposition_exact (h : string) (pre name post : list ascii) :
  chars h = (pre ++ filename_key ++ name ++ q :: post)%list →
  name ≠ [] → no_line_terminator name → key_first_after pre → q ∉ post →
  ApiClient.disposition_filename (Some h) = Some (string_of_list_ascii name).
Proof.
  intros Hh Hne Hname Hpre Hpost. unfold ApiClient.disposition_filename.
  fold (chars h). rewrite Hh.
  rewrite (search_leftmost _ pre _ (Some name)); [done| |].
  - intros p1 p2 Hsplit Hp2. apply pattern_fails_off_key; [done|].
    by apply (Hpre p1 p2).
  - rewrite pattern_at_key. by apply after_key_exact.
Qed.

Lemma disposition_sound (h n : string) :
  ApiClient.disposition_filename (Some h) = Some n →
  ∃ name, quoted_filename_in (chars h) name ∧ n = string_of_list_ascii name.
Proof.
  unfold ApiClient.disposition_filename. fold (chars h).
  destruct (search _ (chars h)) as [[name|]|] eqn:E; [|done..].
  intros [= <-]. exists name. split; [|done].
  apply search_sound in E as (pre & t & Hh & Ht).
  apply pattern_inv in Ht as (s & -> & Hs).
  apply after_key_sound in Hs as (name' & post & -> & Hne & Hname & [= <-]).
  by exists pre, post.
Qed.

Lemma disposition_complete (h : string) (name : list ascii) :
  ApiClient.disposition_filename (Some h) = None →
  ¬ quoted_filename_in (chars h) name.
Proof.
  unfold ApiClient.disposition_filename. fold (chars h).
  intros H (pre & post & Hh & Hne & Hname).
  destruct (search _ (chars h)) as [[n|]|] eqn:E; [done| |].
  - apply search_sound in E as (pre' & t & _ & Ht).
    apply pattern_inv in Ht as (s & _ & Hs).
    by apply after_key_sound in Hs as (? & ? & _ & _ & _ & ?).
  - rewrite Hh in E. apply search_complete in E.
    rewrite pattern_at_key in E. by apply after_key_complete in E.
Qed.

End FilenamePattern.

(** ** The Generate call of the client *)

Section GenerateSchedule.

Import ApiClient.

Lemma str_or_nonempty (name : list ascii) (d : string) :
  name ≠ [] → str_or (Some (string_of_list_ascii name)) d = string_of_list_ascii name.
Proof. by destruct name. Qed.

Variable VITE_API_URL : option string.
Variable fetch : Request → completion Response.
Variables (teamName : string) (entries : jsval) (outputDir : string) (saveToSystem : bool).

Local Abbreviation request :=
  (schedule_request VITE_API_URL teamName entries outputDir saveToSystem).
Local Abbreviation run :=
  (generateSchedule VITE_API_URL fetch teamName entries outputDir saveToSystem).

(** What the call answers to a successful response. *)
Lemma generateSchedule_ok (response : Response) :
  fetch request = Normal response → resp_ok response = true →
  run = Normal
          {| blob := resp_blob response;
             filename :=
               str_or (disposition_filename
                         (resp_headers_get response "Content-Disposition"))
                      "schedule.xlsx";
             contentType := str_or (resp_headers_get response "Content-Type") "" |}.
Proof.
  intros Hfetch Hok. unfold generateSchedule. rewrite Hfetch. simpl.
  by rewrite Hok.
Qed.

(** What the call answers to a refusal. *)
Lemma generateSchedule_not_ok (response : Response) :
  fetch request = Normal response → resp_ok response = false →
  run = (message ← get_named_prop
                      (match resp_json response with
                       | Normal v => v
                       | Throw _ => JObj [("error", JStr "Failed to generate schedule")]
                       end) "error";
         err ← new_Error (js_or message (JStr "Failed to generate schedule"));
         Throw err).
Proof.
  intros Hfetch Hok. unfold generateSchedule. rewrite Hfetch. simpl.
  by rewrite Hok.
Qed.

End GenerateSchedule.

(** C6: where the claim and the code part.  To a response that is not ok
    and whose JSON body is [null] the Generate call throws the TypeError of
    reading [error] of [null]: the message is neither an error string of the
    server nor "Failed to generate schedule". *)
Theorem generateSchedule_null_body
    (VITE_API_URL : option string)
    (fetch : ApiClient.Request → completion ApiClient.Response)
    (teamName : string) (entries : jsval) (outputDir : string) (saveToSystem : bool)
    (response : ApiClient.Response) :
  fetch (ApiClient.schedule_request VITE_API_URL teamName entries outputDir saveToSystem)
    = Normal response →
  ApiClient.resp_ok response = false →
  ApiClient.resp_json response = Normal JNull →
  ApiClient.generateSchedule VITE_API_URL fetch teamName entries outputDir saveToSystem
    = Throw (TypeError_read JNull "error")
  ∧ exn_name (TypeError_read JNull "error") = "TypeError"%string
  ∧ exn_message (TypeError_read JNull "error")
    = "Cannot read properties of null (reading 'error')"%string
  ∧ exn_message (TypeError_read JNull "error") ≠ "Failed to generate schedule"%string.
Proof.
  intros Hfetch Hok Hjson.
  rewrite (generateSchedule_not_ok _ _ _ _ _ _ _ Hfetch Hok), Hjson.
  repeat split. discriminate.
Qed.

Lemma generateSchedule_null_body_witness :
  ApiClient.generateSchedule None (fun _ => Normal sample_null_response)
    "T1" sample_entries "" false
  = Throw {| exn_name := "TypeError";
             exn_message := "Cannot read properties of null (reading 'error')" |}.
Proof.
  exact (proj1 (generateSchedule_null_body None (fun _ => Normal sample_null_response)
                  "T1" sample_entries "" false sample_null_response
                  eq_refl eq_refl eq_refl)).
Defined.

(** The file name of a successful response, case by case: "schedule.xlsx"
    where the Content-Disposition header is absent or holds no [filename=]
    followed by a quote, a text that is not empty and a quote; the quoted
    file name where the header holds no other double quote; in general the
    text between the first [filename=] with its opening quote and the last
    double quote after it. *)
Lemma generateSchedule_filename
    (VITE_API_URL : option string)
    (fetch : ApiClient.Request → completion ApiClient.Response)
    (teamName : string) (entries : jsval) (outputDir : string) (saveToSystem : bool)
    (response : ApiClient.Response) :
  fetch (ApiClient.schedule_request VITE_API_URL teamName entries outputDir saveToSystem)
    = Normal response →
  ApiClient.resp_ok response = true →
  ∃ doc,
    ApiClient.generateSchedule VITE_API_URL fetch teamName entries outputDir saveToSystem
      = Normal doc
    ∧ (ApiClient.resp_headers_get response "Content-Disposition" = None →
       ApiClient.filename doc = "schedule.xlsx")
    ∧ (∀ h, ApiClient.resp_headers_get response "Content-Disposition" = Some h →
         ((∀ name, ¬ quoted_filename_in (chars h) name) →
          ApiClient.filename doc = "schedule.xlsx")
         ∧ (ApiClient.filename doc = "schedule.xlsx"
            ∨ ∃ name, quoted_filename_in (chars h) name
                      ∧ ApiClient.filename doc = string_of_list_ascii name)
         ∧ (∀ pre name post,
              chars h = pre ++ filename_key ++ name ++ JSON.dquote :: post →
              name ≠ [] → no_line_terminator name →
              key_first_after pre → JSON.dquote ∉ post →
              ApiClient.filename doc = string_of_list_ascii name)
         ∧ (∀ pre name post,
              chars h = pre ++ filename_key ++ name ++ JSON.dquote :: post →
              name ≠ [] → no_line_terminator name →
              JSON.dquote ∉ pre → JSON.dquote ∉ name → JSON.dquote ∉ post →
              ApiClient.filename doc = string_of_list_ascii name)).
Proof.
  intros Hfetch Hok. eexists. split; [by apply generateSchedule_ok|]. simpl.
  split; [by intros ->|].
  intros h ->. split; [|split; [|split]].
  - intros Hnone.
    destruct (ApiClient.disposition_filename (Some h)) as [n|] eqn:E; [|done].
    apply disposition_sound in E as (name & Hin & _). by destruct (Hnone name).
  - destruct (ApiClient.disposition_filename (Some h)) as [n|] eqn:E; [|by left].
    apply disposition_sound in E as (name & Hin & ->).
    right. exists name. split; [done|].
    destruct Hin as (_ & _ & _ & Hne & _). by apply str_or_nonempty.
  - intros pre name post Hh Hne Hname Hpre Hpost.
    rewrite (disposition_exact h pre name post) by done.
    by apply str_or_nonempty.
  - intros pre name post Hh Hne Hname Hpre _ Hpost.
    rewrite (disposition_exact h pre name post)
      by auto using no_quote_key_first.
    by apply str_or_nonempty.
Qed.

Lemma generateSchedule_filename_witness :
  ∃ doc,
    ApiClient.generateSchedule None (fun _ => Normal sample_ok_response)
      "T1" sample_entries "" false = Normal doc
    ∧ ApiClient.filename doc = "week_20251012.xlsx".
Proof.
  destruct (generateSchedule_filename None (fun _ => Normal sample_ok_response)
              "T1" sample_entries "" false sample_ok_response eq_refl eq_refl)
    as (doc & Hrun & _ & Hheader).
  exists doc. split; [exact Hrun|].
  destruct (Hheader sample_disposition eq_refl) as (_ & _ & _ & Hexact).
  apply (Hexact (chars "attachment; ") (chars "week_20251012.xlsx") []).
  - reflexivity.
  - discriminate.
  - repeat constructor.
  - unfold chars. simpl list_ascii_of_string.
    rewrite !elem_of_cons, elem_of_nil. intuition discriminate.
  - unfold chars. simpl list_ascii_of_string.
    rewrite !elem_of_cons, elem_of_nil. intuition discriminate.
  - apply not_elem_of_nil.
Defined.

(** C10: where the claim and the code part.  When the Content-Disposition
    header of a successful response holds a quoted file name and a further
    double quote after it (a second quoted parameter, say), the Generate
    call does not answer with the quoted file name: the group of the
    pattern is greedy, and the file name returned runs on from the name
    through its closing quote up to the last double quote of the header. *)
Theorem generateSchedule_filename_overshoots
    (VITE_API_URL : option string)
    (fetch : ApiClient.Request → completion ApiClient.Response)
    (teamName : string) (entries : jsval) (outputDir : string) (saveToSystem : bool)
    (response : ApiClient.Response) (h : string) (pre name mid post : list ascii) :
  fetch (ApiClient.schedule_request VITE_API_URL teamName entries outputDir saveToSystem)
    = Normal response →
  ApiClient.resp_ok response = true →
  ApiClient.resp_headers_get response "Content-Disposition" = Some h →
  chars h = pre ++ filename_key ++ name ++ JSON.dquote :: mid ++ JSON.dquote :: post →
  key_first_after pre → name ≠ [] → JSON.dquote ∉ name → JSON.dquote ∉ post →
  no_line_terminator name → no_line_terminator mid →
  ∃ doc,
    ApiClient.generateSchedule VITE_API_URL fetch teamName entries outputDir saveToSystem
      = Normal doc
    ∧ quoted_filename_in (chars h) name
    ∧ ApiClient.filename doc = string_of_list_ascii (name ++ JSON.dquote :: mid)
    ∧ ApiClient.filename doc ≠ string_of_list_ascii name.
Proof.
  intros Hfetch Hok Hheader Hh Hpre Hne Hname Hpost Hline Hmid.
  eexists. split; [by apply generateSchedule_ok|]. simpl. rewrite Hheader.
  split; [by exists pre, (mid ++ JSON.dquote :: post)|].
  rewrite (disposition_exact h pre (name ++ JSON.dquote :: mid) post).
  - rewrite str_or_nonempty by by destruct name. split; [done|].
    intros Heq. apply (f_equal list_ascii_of_string) in Heq.
    rewrite !list_ascii_of_string_of_list_ascii in Heq.
    apply (f_equal length) in Heq. rewrite length_app in Heq. simpl in Heq. lia.
  - rewrite Hh. by rewrite <-(assoc_L (++) name).
  - by destruct name.
  - apply Forall_app. split; [done|]. by constructor.
  - done.
  - done.
Qed.

(** [attachment; filename="a.xlsx"; size="3"]: the quoted file name is
    [a.xlsx], the call answers with [a.xlsx"; size="3]. *)
Lemma generateSchedule_filename_overshoots_witness :
  ∃ doc,
    ApiClient.generateSchedule None (fun _ => Normal sample_two_quotes_response)
      "T1" sample_entries "" false = Normal doc
    ∧ quoted_filename_in (chars sample_two_quotes) (chars "a.xlsx")
    ∧ ApiClient.filename doc
      = ("a.xlsx" ++ String JSON.dquote ("; size=" ++ String JSON.dquote "3"))%string
    ∧ ApiClient.filename doc ≠ "a.xlsx"%string.
Proof.
  apply (generateSchedule_filename_overshoots None
           (fun _ => Normal sample_two_quotes_response) "T1" sample_entries "" false
           sample_two_quotes_response sample_two_quotes
           (chars "attachment; ") (chars "a.xlsx")
           (chars "; size=" ++ JSON.dquote :: chars "3") []).
  - reflexivity.
  - reflexivity.
  - reflexivity.
  - reflexivity.
  - apply no_quote_key_first. unfold chars. simpl list_ascii_of_string.
    rewrite !elem_of_cons, elem_of_nil. intuition discriminate.
  - discriminate.
  - unfold chars. simpl list_ascii_of_string.
    rewrite !elem_of_cons, elem_of_nil. intuition discriminate.
  - apply not_elem_of_nil.
  - repeat constructor.
  - repeat constructor.
Defined.

(** ** Calendar arithmetic *)

Section Calendar.

Import DateExpr.
Local Open Scope Z_scope.

Lemma valid_date_inv (d : date) :
  valid_date d = true →
  1 ≤ year d ∧ 1 ≤ month d ≤ 12 ∧ 1 ≤ day d ≤ days_in_month (year d) (month d).
Proof. unfold valid_date. rewrite !andb_true_iff, !Z.leb_le. lia. Qed.

Lemma valid_date_intro (d : date) :
  1 ≤ year d → 1 ≤ month d ≤ 12 → 1 ≤ day d ≤ days_in_month (year d) (month d) →
  valid_date d = true.
Proof. unfold valid_date. rewrite !andb_true_iff, !Z.leb_le. lia. Qed.

Lemma month_cases (m : Z) :
  1 ≤ m ≤ 12 →
  m = 1 ∨ m = 2 ∨ m = 3 ∨ m = 4 ∨ m = 5 ∨ m = 6
  ∨ m = 7 ∨ m = 8 ∨ m = 9 ∨ m = 10 ∨ m = 11 ∨ m = 12.
Proof. lia. Qed.

Ltac each_month H :=
  apply month_cases in H;
  repeat (destruct H as [H|H]; [subst|]); [..|subst].

Lemma days_in_month_pos (y m : Z) : 1 ≤ m ≤ 12 → 28 ≤ days_in_month y m ≤ 31.
Proof.
  intros Hm. each_month Hm; unfold days_in_month; destruct (is_leap y); lia.
Qed.

Lemma days_before_next_month (y m : Z) :
  1 ≤ m ≤ 11 →
  days_before_month y (m + 1) = days_before_month y m + days_in_month y m.
Proof.
  intros Hm. assert (1 ≤ m ≤ 12) as Hm' by lia.
  each_month Hm'; try lia;
    unfold days_before_month, days_in_month; simpl; destruct (is_leap y); lia.
Qed.

Lemma days_before_december (y : Z) :
  days_before_month y 12 + 31 = year_length y.
Proof. unfold days_before_month, year_length. destruct (is_leap y); lia. Qed.

Lemma days_before_month_mono (y m1 m2 : Z) :
  1 ≤ m1 ≤ 12 → 1 ≤ m2 ≤ 12 → m1 < m2 →
  days_before_month y m1 + days_in_month y m1 ≤ days_before_month y m2.
Proof.
  intros H1 H2 Hlt.
  each_month H1; each_month H2; try lia;
    unfold days_before_month, days_in_month; destruct (is_leap y); lia.
Qed.

Lemma days_before_next_year (y : Z) :
  days_before_year (y + 1) = days_before_year y + year_length y.
Proof.
  unfold days_before_year, year_length, is_leap.
  replace (y + 1 - 1) with y by lia.
  destruct (Z.eqb_spec (y mod 4) 0), (Z.eqb_spec (y mod 100) 0),
    (Z.eqb_spec (y mod 400) 0); simpl;
    Z.div_mod_to_equations; lia.
Qed.

Lemma days_before_year_mono (y y' : Z) :
  y ≤ y' → days_before_year y ≤ days_before_year y'.
Proof.
  intros Hle. unfold days_before_year.
  Z.div_mod_to_equations. lia.
Qed.

Lemma year_length_bounds (y : Z) : 365 ≤ year_length y ≤ 366.
Proof. unfold year_length. destruct (is_leap y); lia. Qed.

Lemma days_before_month_within (y m : Z) :
  1 ≤ m ≤ 12 →
  0 ≤ days_before_month y m
  ∧ days_before_month y m + days_in_month y m ≤ year_length y.
Proof.
  intros Hm. each_month Hm;
    unfold days_before_month, days_in_month, year_length;
    destruct (is_leap y); lia.
Qed.

(** A valid date lies within its year. *)
Lemma ordinal_within_year (d : date) :
  valid_date d = true →
  days_before_year (year d) < ordinal d ≤ days_before_year (year d + 1).
Proof.
  intros (Hy & Hm & Hd)%valid_date_inv. unfold ordinal.
  rewrite days_before_next_year.
  pose proof (days_before_month_within (year d) (month d) Hm).
  lia.
Qed.

Lemma valid_next_day (d : date) :
  valid_date d = true → valid_date (next_day d) = true.
Proof.
  intros (Hy & Hm & Hd)%valid_date_inv. unfold next_day.
  destruct (Z.ltb_spec (day d) (days_in_month (year d) (month d))).
  - apply valid_date_intro; simpl; lia.
  - destruct (Z.ltb_spec (month d) 12).
    + apply valid_date_intro; simpl; try lia.
      pose proof (days_in_month_pos (year d) (month d + 1)). lia.
    + apply valid_date_intro; simpl; lia.
Qed.

Lemma ordinal_next_day (d : date) :
  valid_date d = true → ordinal (next_day d) = ordinal d + 1.
Proof.
  intros (Hy & Hm & Hd)%valid_date_inv. unfold next_day, ordinal.
  destruct (Z.ltb_spec (day d) (days_in_month (year d) (month d))); simpl.
  - lia.
  - destruct (Z.ltb_spec (month d) 12); simpl.
    + rewrite days_before_next_month by lia. lia.
    + assert (month d = 12) as Hdec by lia.
      rewrite days_before_next_year. pose proof (days_before_december (year d)).
      rewrite Hdec in *.
      unfold days_before_month, days_in_month, year_length in *.
      destruct (is_leap (year d)); lia.
Qed.

(** Calendar order agrees with the order of day numbers. *)
Lemma date_ltb_ordinal (a b : date) :
  valid_date a = true → valid_date b = true →
  date_ltb a b = true → ordinal a < ordinal b.
Proof.
  intros Ha Hb. unfold date_ltb.
  rewrite orb_true_iff, !andb_true_iff, orb_true_iff, andb_true_iff,
    !Z.ltb_lt, !Z.eqb_eq.
  pose proof (ordinal_within_year a Ha). pose proof (ordinal_within_year b Hb).
  apply valid_date_inv in Ha as (Hya & Hma & Hda).
  apply valid_date_inv in Hb as (Hyb & Hmb & Hdb).
  intros [Hy | [Hy [Hm | [Hm Hd]]]].
  - pose proof (days_before_year_mono (year a + 1) (year b)). lia.
  - unfold ordinal. rewrite Hy in *.
    pose proof (days_before_month_mono (year b) (month a) (month b)). lia.
  - unfold ordinal. rewrite Hy, Hm. lia.
Qed.

Lemma date_ltb_total (a b : date) :
  date_ltb b a = false → a = b ∨ date_ltb a b = true.
Proof.
  destruct a as [ya ma da], b as [yb mb db]. unfold date_ltb. simpl.
  destruct (Z.ltb_spec yb ya), (Z.eqb_spec yb ya), (Z.ltb_spec mb ma),
    (Z.eqb_spec mb ma), (Z.ltb_spec db da), (Z.ltb_spec ya yb),
    (Z.eqb_spec ya yb), (Z.ltb_spec ma mb), (Z.eqb_spec ma mb),
    (Z.ltb_spec da db); simpl; intros; try done; try lia; auto.
  left. f_equal; lia.
Qed.

Lemma date_leb_ordinal (a b : date) :
  valid_date a = true → valid_date b = true →
  date_leb a b = true ↔ ordinal a ≤ ordinal b.
Proof.
  intros Ha Hb. unfold date_leb.
  destruct (date_ltb b a) eqn:E; simpl.
  - apply date_ltb_ordinal in E; [|done..]. split; [done | lia].
  - split; [|done]. intros _.
    destruct (date_ltb_total a b E) as [->|Hlt]; [lia|].
    apply date_ltb_ordinal in Hlt; [lia | done..].
Qed.

(** Two valid dates with the same day number are the same date. *)
Lemma ordinal_inj (a b : date) :
  valid_date a = true → valid_date b = true → ordinal a = ordinal b → a = b.
Proof.
  intros Ha Hb Heq.
  destruct (date_ltb b a) eqn:E.
  - apply date_ltb_ordinal in E; [lia | done..].
  - destruct (date_ltb_total a b E) as [->|Hlt]; [done|].
    apply date_ltb_ordinal in Hlt; [lia | done..].
Qed.

End Calendar.

(** ** Range expressions *)

Section Ranges.

Import DateExpr.
Local Open Scope Z_scope.

Lemma iter_next_day (n : nat) (d : date) :
  valid_date d = true →
  valid_date (Nat.iter n next_day d) = true
  ∧ ordinal (Nat.iter n next_day d) = ordinal d + Z.of_nat n.
Proof.
  intros Hd. induction n as [|n [IHv IHo]]; simpl.
  - split; [done | lia].
  - split; [by apply valid_next_day|].
    rewrite ordinal_next_day by done. lia.
Qed.

(** The loop yields the day after day after day, [fuel] times. *)
Lemma days_through_iter (fuel : nat) (cur d2 : date) :
  valid_date cur = true → valid_date d2 = true →
  ordinal cur + Z.of_nat fuel = ordinal d2 + 1 →
  days_through fuel cur d2 = (λ i, Nat.iter i next_day cur) <$> seq 0 fuel.
Proof.
  revert cur. induction fuel as [|fuel IH]; intros cur Hcur Hd2 Hfuel; [done|].
  simpl days_through.
  assert (date_leb cur d2 = true) as -> by (apply date_leb_ordinal; [done..|lia]).
  rewrite IH; [|by apply valid_next_day|done|rewrite ordinal_next_day by done; lia].
  simpl. f_equal. rewrite <-fmap_S_seq, <-list_fmap_compose.
  apply list_fmap_ext. intros i n _. unfold compose.
  by rewrite Nat.iter_succ_r.
Qed.

Lemma lookup_iter_seq (n i : nat) (d a : date) :
  ((λ i, Nat.iter i next_day d) <$> seq 0 n) !! i = Some a →
  (i < n)%nat ∧ a = Nat.iter i next_day d.
Proof.
  rewrite list_lookup_fmap. intros H.
  destruct (seq 0 n !! i) as [j|] eqn:E; [|done].
  apply lookup_seq in E as [-> ?]. simpl in H. by simplify_eq.
Qed.

Lemma parse_token_valid (implicit_year : Z) (s : list ascii) (d : date) :
  parse_token implicit_year s = Some d → valid_date d = true.
Proof.
  unfold parse_token.
  destruct (split_on _ _) as [|m [|dd [|y [|? ?]]]]; try done.
  - destruct (number 1 2 m), (number 1 2 dd); try done.
    destruct (valid_date _) eqn:E; [|done]. by intros [= <-].
  - destruct (number 1 2 m), (number 1 2 dd), (year_field y); try done.
    destruct (valid_date _) eqn:E; [|done]. by intros [= <-].
Qed.

(** The days of a range between two valid dates in calendar order. *)
Lemma expand_range_days (d1 d2 : date) :
  valid_date d1 = true → valid_date d2 = true → date_leb d1 d2 = true →
  expand_range d1 d2
  = Some ((λ i, Nat.iter i next_day d1)
            <$> seq 0 (Z.to_nat (days_between d1 d2 + 1))).
Proof.
  intros H1 H2 Hle. unfold expand_range.
  assert (date_ltb d2 d1 = false) as ->
    by (unfold date_leb in Hle; by destruct (date_ltb d2 d1)).
  apply date_leb_ordinal in Hle; [|done..].
  rewrite days_through_iter; [done..|]. unfold days_between. lia.
Qed.

End Ranges.

(** C4: a range expression whose two tokens denote the dates D1 and D2
    (the text splits at [to] into two tokens that parse to them): when
    D1 ≤ D2 the parser returns (D2 - D1).days + 1 dates, starting at D1,
    ending at D2, each the day after the one before, so day numbers go up
    by one and every calendar day from D1 through D2 is there; when
    D2 < D1 the parser fails. *)
Theorem range_expression_expands
    (implicit_year : Z) (text : string) (l r : list ascii) (d1 d2 : DateExpr.date) :
  DateExpr.split_range (DateExpr.trim (chars text)) = Some (l, r) →
  DateExpr.parse_token implicit_year l = Some d1 →
  DateExpr.parse_token implicit_year r = Some d2 →
  (DateExpr.date_leb d1 d2 = true →
   ∃ ds,
     DateExpr.parse_dates implicit_year text = DateExpr.Dates ds
     ∧ Z.of_nat (length ds) = (DateExpr.days_between d1 d2 + 1)%Z
     ∧ head ds = Some d1
     ∧ last ds = Some d2
     ∧ (∀ i a b, ds !! i = Some a → ds !! S i = Some b → b = DateExpr.next_day a)
     ∧ (∀ i a, ds !! i = Some a →
               DateExpr.valid_date a = true
               ∧ DateExpr.ordinal a = (DateExpr.ordinal d1 + Z.of_nat i)%Z)
     ∧ (∀ d, DateExpr.valid_date d = true →
             (DateExpr.ordinal d1 ≤ DateExpr.ordinal d ≤ DateExpr.ordinal d2)%Z →
             d ∈ ds))
  ∧ (DateExpr.date_ltb d2 d1 = true →
     ∃ offending,
       DateExpr.parse_dates implicit_year text = DateExpr.DateParseError offending).
Proof.
  intros Hsplit Hl Hr.
  pose proof (parse_token_valid _ _ _ Hl) as Hv1.
  pose proof (parse_token_valid _ _ _ Hr) as Hv2.
  unfold DateExpr.parse_dates. fold (chars text). rewrite Hsplit, Hl, Hr.
  split.
  - intros Hle. rewrite expand_range_days by done.
    pose proof (proj1 (date_leb_ordinal d1 d2 Hv1 Hv2) Hle) as Hord.
    unfold DateExpr.days_between in *.
    set (n := Z.to_nat (DateExpr.ordinal d2 - DateExpr.ordinal d1 + 1)).
    assert (Z.of_nat n = (DateExpr.ordinal d2 - DateExpr.ordinal d1 + 1)%Z) as Hn
      by (unfold n; lia).
    eexists. split; [reflexivity|].
    split; [by rewrite length_fmap, length_seq|].
    split; [destruct n; [lia | done]|].
    split; [|split; [|split]].
    + rewrite last_lookup, length_fmap, length_seq, list_lookup_fmap.
      rewrite lookup_seq_lt by lia. simpl. f_equal.
      destruct (iter_next_day (Nat.pred n) d1 Hv1) as [Hv Ho].
      apply ordinal_inj; [done..|]. lia.
    + intros i a b (Hi & ->)%lookup_iter_seq (Hi' & ->)%lookup_iter_seq. done.
    + intros i a (Hi & ->)%lookup_iter_seq. by apply iter_next_day.
    + intros d Hd Hbetween.
      set (i := Z.to_nat (DateExpr.ordinal d - DateExpr.ordinal d1)).
      apply (list_elem_of_lookup_2 _ i).
      rewrite list_lookup_fmap, lookup_seq_lt by lia. simpl. f_equal.
      destruct (iter_next_day i d1 Hv1) as [Hv Ho].
      apply ordinal_inj; [done..|]. lia.
  - intros Hlt. unfold DateExpr.expand_range. rewrite Hlt. by eexists.
Qed.

Lemma range_expression_witness :
  (∃ ds,
     DateExpr.parse_dates 2025 "10/14/25 to 10/16/25" = DateExpr.Dates ds
     ∧ Z.of_nat (length ds) = 3%Z
     ∧ head ds = Some oct_14
     ∧ last ds = Some oct_16)
  ∧ (∃ offending,
       DateExpr.parse_dates 2025 "10/16/25 to 10/14/25"
       = DateExpr.DateParseError offending).
Proof.
  split.
  - destruct (proj1 (range_expression_expands 2025 "10/14/25 to 10/16/25"
                       (chars "10/14/25 ") (chars " 10/16/25") oct_14 oct_16
                       eq_refl eq_refl eq_refl) eq_refl)
      as (ds & Hparse & Hlen & Hhead & Hlast & _).
    exists ds. repeat split; assumption.
  - exact (proj2 (range_expression_expands 2025 "10/16/25 to 10/14/25"
                    (chars "10/16/25 ") (chars " 10/14/25") oct_16 oct_14
                    eq_refl eq_refl eq_refl) eq_refl).
Defined.

(** ** Reading a serialization back *)

Section ReadBack.

Import JSON JSONText.
Local Open Scope string_scope.

Lemma string_app_cons (x : ascii) (a b : string) :
  String x a ++ b = String x (a ++ b).
Proof. reflexivity. Qed.

Lemma string_app_char (x : ascii) (b : string) : String x "" ++ b = String x b.
Proof. reflexivity. Qed.

Lemma string_app_assoc (a b c : string) : (a ++ b) ++ c = a ++ (b ++ c).
Proof.
  induction a as [|x a IH]; [done|]. by rewrite !string_app_cons, IH.
Qed.

Lemma string_app_nil_r (a : string) : a ++ "" = a.
Proof.
  induction a as [|x a IH]; [done|]. by rewrite string_app_cons, IH.
Qed.

Lemma string_app_length (a b : string) :
  String.length (a ++ b) = (String.length a + String.length b)%nat.
Proof.
  induction a as [|x a IH]; [done|]. rewrite string_app_cons. simpl.
  by rewrite IH.
Qed.

(** *** String literals *)

Lemma read_quote_char (c : ascii) (x : string) :
  read_string_body (quote_char c ++ x)
  = ('(t, rest) ← read_string_body x; Some (String c t, rest)).
Proof. destruct c as [[] [] [] [] [] [] [] []]; reflexivity. Qed.

Lemma read_quote_body (s r : string) :
  read_string_body (quote_body s ++ String dquote r) = Some (s, r).
Proof.
  induction s as [|c s IH]; [done|].
  simpl quote_body. by rewrite string_app_assoc, read_quote_char, IH.
Qed.

Lemma quote_app (s r : string) :
  quote s ++ r = String dquote (quote_body s ++ String dquote r).
Proof. unfold quote. by rewrite string_app_cons, string_app_assoc. Qed.

(** *** Numbers *)

Lemma digit_value_pretty (d : N) :
  (d < 10)%N → digit_value (pretty_N_char d) = Some d.
Proof.
  intros Hd.
  assert (d = 0 ∨ d = 1 ∨ d = 2 ∨ d = 3 ∨ d = 4 ∨ d = 5 ∨ d = 6 ∨ d = 7
          ∨ d = 8 ∨ d = 9)%N as Hcases by lia.
  repeat (destruct Hcases as [->|Hcases]; [done|]). by subst.
Qed.

Lemma pretty_N_go_app (x : N) (s r : string) :
  pretty_N_go x s ++ r = pretty_N_go x (s ++ r).
Proof.
  revert s. induction (N.lt_wf_0 x) as [x _ IH]; intros s.
  assert (x = 0 ∨ 0 < x)%N as [->|Hx] by lia; [done|].
  rewrite (pretty_N_go_step x s), (pretty_N_go_step x (s ++ r)) by done.
  rewrite IH by (by apply N.div_lt). done.
Qed.

Lemma read_digits_pretty (x : N) (s : string) (acc : N) :
  ∃ k, read_digits acc (pretty_N_go x s) = read_digits (acc * 10 ^ k + x)%N s.
Proof.
  revert s. induction (N.lt_wf_0 x) as [x _ IH]; intros s.
  assert (x = 0 ∨ 0 < x)%N as [->|Hx] by lia.
  - exists 0%N. rewrite pretty_N_go_0. f_equal. lia.
  - rewrite pretty_N_go_step by done.
    destruct (IH (x `div` 10)%N (N.div_lt x 10 Hx eq_refl)
                 (String (pretty_N_char (x `mod` 10)) s)) as [k ->].
    exists (k + 1)%N. simpl read_digits.
    rewrite digit_value_pretty by (by apply N.mod_lt).
    f_equal. rewrite N.pow_add_r, N.pow_1_r.
    pose proof (N.div_mod x 10 ltac:(done)). nia.
Qed.

Lemma starts_with_digit_pretty (x : N) (s : string) :
  (0 < x)%N → starts_with_digit (pretty_N_go x s) = true.
Proof.
  revert s. induction (N.lt_wf_0 x) as [x _ IH]; intros s Hx.
  rewrite pretty_N_go_step by done.
  destruct (N.eq_0_gt_0_cases (x `div` 10)) as [->|Hq].
  - rewrite pretty_N_go_0. simpl.
    by rewrite digit_value_pretty by (by apply N.mod_lt).
  - apply IH; [by apply N.div_lt | done].
Qed.

Lemma read_digits_end (n : N) (r : string) :
  starts_with_digit r = false → read_digits n r = (n, r).
Proof. destruct r as [|c r]; [done|]. simpl. by destruct (digit_value c). Qed.

Lemma read_natural_pretty (p : positive) (r : string) :
  starts_with_digit r = false →
  read_natural (pretty (Npos p) ++ r) = Some (Npos p, r).
Proof.
  intros Hr. unfold pretty, pretty_N. rewrite decide_False by done.
  rewrite pretty_N_go_app. unfold read_natural.
  rewrite starts_with_digit_pretty by done. f_equal.
  destruct (read_digits_pretty (Npos p) ("" ++ r) 0) as [k ->].
  by rewrite read_digits_end.
Qed.

Lemma starts_number_pretty (z : Z) (r : string) :
  ∃ c t, pretty z ++ r = String c t ∧ opens_number c = true.
Proof.
  destruct z as [|p|p].
  - by exists "0"%char, r.
  - assert (starts_with_digit (pretty (Z.pos p) ++ r) = true) as H.
    { unfold pretty, pretty_Z, pretty, pretty_positive, pretty, pretty_N.
      rewrite decide_False by done.
      by rewrite pretty_N_go_app, starts_with_digit_pretty. }
    destruct (pretty (Z.pos p) ++ r) as [|c t]; [done|].
    exists c, t. split; [done|]. unfold opens_number.
    simpl in H. destruct (digit_value c); [|done]. apply orb_true_r.
  - by eexists "-"%char, _.
Qed.

Lemma read_number_pretty (z : Z) (r : string) :
  starts_with_digit r = false → read_number (pretty z ++ r) = Some (z, r).
Proof.
  intros Hr. destruct z as [|p|p].
  - simpl. unfold read_natural. simpl. by rewrite read_digits_end.
  - assert (read_natural (pretty (Z.pos p) ++ r) = Some (Npos p, r)) as Hnat
      by by apply read_natural_pretty.
    unfold read_number. destruct (pretty (Z.pos p) ++ r) as [|c t] eqn:E.
    { done. }
    assert (Ascii.eqb c "-" = false) as ->.
    { unfold read_natural in Hnat. simpl in Hnat.
      destruct (Ascii.eqb_spec c "-") as [->|]; [done|done]. }
    by rewrite Hnat.
  - change (pretty (Z.neg p) ++ r) with (String "-" (pretty (Npos p) ++ r)).
    simpl. by rewrite read_natural_pretty.
Qed.

(** *** Values *)

Lemma jsval_nested_ind (P : jsval → Prop) :
  P JUndefined → P JNull → (∀ b, P (JBool b)) → (∀ n, P (JNum n)) →
  (∀ s, P (JStr s)) →
  (∀ xs, Forall P xs → P (JArr xs)) →
  (∀ ps, Forall (λ p, P (snd p)) ps → P (JObj ps)) →
  ∀ v, P v.
Proof.
  intros Hu Hn Hb Hz Hs Ha Ho. fix IH 1. intros [| |b|n|s|xs|ps].
  - exact Hu.
  - exact Hn.
  - apply Hb.
  - apply Hz.
  - apply Hs.
  - apply Ha. induction xs as [|x xs IHxs]; constructor; [apply IH | exact IHxs].
  - apply Ho. induction ps as [|[k x] ps IHps]; constructor; [apply IH | exact IHps].
Qed.

Lemma opens_number_dispatch (c : ascii) :
  opens_number c = true →
  Ascii.eqb c "n" = false ∧ Ascii.eqb c "t" = false ∧ Ascii.eqb c "f" = false
  ∧ Ascii.eqb c dquote = false ∧ Ascii.eqb c "[" = false ∧ Ascii.eqb c "{" = false.
Proof.
  destruct c as [[] [] [] [] [] [] [] []];
    (discriminate || (intros _; repeat split; reflexivity)).
Qed.

Lemma read_value_unfold (fuel : nat) (c : ascii) (r : string) :
  read_value (S fuel) (String c r)
  = if Ascii.eqb c "n" then rest ← expect "ull" r; Some (JNull, rest)
    else if Ascii.eqb c "t" then rest ← expect "rue" r; Some (JBool true, rest)
    else if Ascii.eqb c "f" then rest ← expect "alse" r; Some (JBool false, rest)
    else if Ascii.eqb c dquote then
      '(t, rest) ← read_string_body r; Some (JStr t, rest)
    else if Ascii.eqb c "[" then
      match r with
      | String "]" rest => Some (JArr [], rest)
      | _ => '(xs, rest) ← read_elements fuel r; Some (JArr xs, rest)
      end
    else if Ascii.eqb c "{" then
      match r with
      | String "}" rest => Some (JObj [], rest)
      | _ => '(ps, rest) ← read_members fuel r; Some (JObj ps, rest)
      end
    else '(n, rest) ← read_number (String c r); Some (JNum n, rest).
Proof. reflexivity. Qed.

Lemma read_elements_unfold (fuel : nat) (s : string) :
  read_elements (S fuel) s
  = ('(v, rest) ← read_value fuel s;
     match rest with
     | String "," rest' =>
         '(vs, rest'') ← read_elements fuel rest'; Some (v :: vs, rest'')
     | String "]" rest' => Some ([v], rest')
     | _ => None
     end).
Proof. reflexivity. Qed.

Lemma read_members_unfold (fuel : nat) (r : string) :
  read_members (S fuel) (String dquote r)
  = ('(k, rest) ← read_string_body r;
     match rest with
     | String ":" rest0 =>
         '(v, rest1) ← read_value fuel rest0;
         match rest1 with
         | String "," rest' =>
             '(ps, rest'') ← read_members fuel rest'; Some ((k, v) :: ps, rest'')
         | String "}" rest' => Some ([(k, v)], rest')
         | _ => None
         end
     | _ => None
     end).
Proof. reflexivity. Qed.

Lemma read_value_number (fuel : nat) (z : Z) (r : string) :
  starts_with_digit r = false →
  read_value (S fuel) (pretty z ++ r) = Some (JNum z, r).
Proof.
  intros Hr. destruct (starts_number_pretty z r) as (c & t & E & Hc).
  pose proof (read_number_pretty z r Hr) as Hnum. rewrite E in *.
  rewrite read_value_unfold.
  destruct (opens_number_dispatch c Hc) as (-> & -> & -> & -> & -> & ->).
  by rewrite Hnum.
Qed.

(** Every value starts with one of the openers. *)
Lemma serialize_head (v : jsval) (r : string) :
  ∃ c t, serialize v ++ r = String c t ∧ opens_value c = true.
Proof.
  destruct v as [| |[]|n|s|xs|ps]; try by eexists _, _.
  destruct (starts_number_pretty n r) as (c & t & E & Hc).
  exists c, t. split; [done|]. unfold opens_value. by rewrite Hc.
Qed.

Lemma join_cons (sep p : string) (ps : list string) :
  ps ≠ [] → join sep (p :: ps) = p ++ sep ++ join sep ps.
Proof. by destruct ps. Qed.

Lemma read_elements_serialize (xs : list jsval) :
  xs ≠ [] → Forall reads_back xs → forallb expressible xs = true →
  ∀ (fuel : nat) (r : string),
    (list_sum (map (λ x, S (weight x)) xs) ≤ fuel)%nat →
    read_elements fuel (join "," (map serialize xs) ++ "]" ++ r) = Some (xs, r).
Proof.
  intros Hne Hall. induction Hall as [|x xs Hx Hxs IH]; [done|].
  intros [Hex Hexs]%andb_true_iff fuel r Hfuel. simpl in Hfuel.
  destruct fuel as [|fuel]; [lia|]. rewrite read_elements_unfold.
  destruct xs as [|y ys].
  - simpl join. rewrite (string_app_char "]"), Hx; [done..|lia|done].
  - rewrite map_cons, join_cons by done.
    rewrite !string_app_assoc, (string_app_char ","). rewrite Hx; [|done|lia|done].
    simpl. rewrite IH; [done..|]. simpl in *. lia.
Qed.

Lemma omap_members (ps : list (string * jsval)) :
  forallb (λ p, expressible (snd p)) ps = true →
  omap (λ p : string * jsval,
          match p with
          | (_, JUndefined) => None
          | (k, v) => Some (quote k ++ ":" ++ serialize v)
          end) ps
  = map member_text ps.
Proof.
  induction ps as [|[k v] ps IH]; [done|].
  intros [Hv Hps]%andb_true_iff.
  destruct v; try done; csimpl; f_equal; by apply IH.
Qed.

Lemma read_members_serialize (ps : list (string * jsval)) :
  ps ≠ [] → Forall (λ p, reads_back (snd p)) ps →
  forallb (λ p, expressible (snd p)) ps = true →
  ∀ (fuel : nat) (r : string),
    (list_sum (map (λ p, S (weight (snd p))) ps) ≤ fuel)%nat →
    read_members fuel (join "," (map member_text ps) ++ "}" ++ r) = Some (ps, r).
Proof.
  intros Hne Hall. induction Hall as [|[k x] ps Hx Hps IH]; [done|].
  intros [Hex Hexs]%andb_true_iff fuel r Hfuel. simpl in Hfuel, Hx, Hex.
  destruct fuel as [|fuel]; [lia|].
  assert (∀ rest, member_text (k, x) ++ rest
                  = String dquote (quote_body k ++ String dquote (String ":" (serialize x ++ rest))))
    as Hmember.
  { intros rest. unfold member_text. simpl fst. simpl snd.
    by rewrite string_app_assoc, quote_app, string_app_assoc, !string_app_char. }
  destruct ps as [|q qs].
  - simpl join. rewrite Hmember, read_members_unfold, read_quote_body. simpl.
    rewrite (string_app_char "}"), Hx; [done..|lia|done].
  - rewrite map_cons, join_cons by done.
    rewrite !string_app_assoc, Hmember, read_members_unfold, read_quote_body. simpl.
    rewrite (string_app_char ","), Hx; [|done|lia|done].
    simpl. rewrite IH; [done..|]. simpl in *. lia.
Qed.

(** The reader undoes the serializer. *)
Lemma read_value_serialize (v : jsval) : reads_back v.
Proof.
  induction v as [| |b|n|s|xs IH|ps IH] using jsval_nested_ind;
    intros Hex fuel r Hfuel Hr; simpl in Hfuel;
    (destruct fuel as [|fuel]; [lia|]).
  - done.
  - done.
  - by destruct b.
  - by apply read_value_number.
  - simpl serialize. rewrite quote_app, read_value_unfold. simpl.
    by rewrite read_quote_body.
  - simpl serialize. rewrite !string_app_assoc, string_app_char, read_value_unfold.
    simpl. destruct xs as [|x xs]; [done|].
    rewrite read_elements_serialize; [|done..|lia].
    destruct (serialize_head x (match xs with [] => "" | _ => "," ++ join "," (map serialize xs) end ++ "]" ++ r))
      as (c & t & E & Hc).
    assert (join "," (map serialize (x :: xs)) ++ "]" ++ r = String c t) as ->.
    { rewrite <-E. destruct xs; [done|].
      rewrite map_cons, join_cons by done. by rewrite !string_app_assoc. }
    destruct (Ascii.eqb_spec c "]") as [->|]; [done|].
    by destruct c as [[] [] [] [] [] [] [] []].
  - simpl serialize. simpl in Hex. rewrite omap_members by done.
    rewrite !string_app_assoc, string_app_char, read_value_unfold.
    simpl. destruct ps as [|[k x] ps]; [done|].
    rewrite read_members_serialize; [|done..|lia].
    assert (∃ t, join "," (map member_text ((k, x) :: ps)) ++ "}" ++ r
                 = String dquote t) as [t ->].
    { destruct ps; [by eexists|].
      rewrite map_cons, join_cons by done. by eexists. }
    done.
Qed.

(** The text of a value is long enough to serve as the reader's fuel. *)
Lemma weight_le_length (v : jsval) :
  expressible v = true → (weight v ≤ String.length (serialize v))%nat.
Proof.
  induction v as [| |b|n|s|xs IH|ps IH] using jsval_nested_ind; intros Hex.
  - done.
  - simpl. lia.
  - destruct b; simpl; lia.
  - destruct (starts_number_pretty n "") as (c & t & E & _).
    rewrite string_app_nil_r in E. simpl serialize. rewrite E. simpl. lia.
  - simpl. lia.
  - simpl serialize. simpl weight. simpl in Hex.
    rewrite string_app_char. simpl String.length. rewrite string_app_length.
    change (String.length "]") with 1%nat.
    assert (list_sum (map (λ x, S (weight x)) xs)
            ≤ S (String.length (join "," (map serialize xs))))%nat; [|lia].
    induction IH as [|x xs Hx _ IHxs]; [simpl; lia|].
    apply andb_true_iff in Hex as [Hex Hexs].
    specialize (Hx Hex). specialize (IHxs Hexs).
    destruct xs as [|y ys]; [simpl in *; lia|].
    rewrite map_cons, (map_cons serialize), join_cons by done.
    rewrite !string_app_length. simpl in *. lia.
  - simpl serialize. simpl weight. simpl in Hex. rewrite omap_members by done.
    rewrite string_app_char. simpl String.length. rewrite string_app_length.
    change (String.length "}") with 1%nat.
    assert (list_sum (map (λ p, S (weight (snd p))) ps)
            ≤ S (String.length (join "," (map member_text ps))))%nat; [|lia].
    induction IH as [|[k x] ps Hx _ IHps]; [simpl; lia|].
    apply andb_true_iff in Hex as [Hex Hexs].
    specialize (Hx Hex). specialize (IHps Hexs).
    assert (weight x < String.length (member_text (k, x)))%nat as Hmember.
    { unfold member_text. rewrite !string_app_length. simpl in *. lia. }
    destruct ps as [|q qs]; [simpl in *; lia|].
    rewrite map_cons, (map_cons member_text), join_cons by done.
    rewrite !string_app_length. simpl in *. lia.
Qed.

(** Reading the text of a value gives the value back: serialization keeps
    every member and every element as it is. *)
Lemma read_serialize (v : jsval) :
  expressible v = true → read (serialize v) = Some v.
Proof.
  intros Hex. unfold read.
  pose proof (read_value_serialize v Hex (String.length (serialize v)) ""
                (weight_le_length v Hex) eq_refl) as Hread.
  rewrite string_app_nil_r in Hread. by rewrite Hread.
Qed.

End ReadBack.

(** C5: the Generate call posts one request whose JSON body carries
    team_name, output_dir and save_to_system as given and, under
    entries_json, the JSON text of the entries exactly as they were passed
    in: reading the body back gives these four members, and reading
    entries_json back gives the entries themselves, every field as it was.
    The call consults the server with that request only, and to every
    successful response it answers a record of the response's blob, a file
    name and a content type. *)
Theorem generateSchedule_sends_entries_verbatim
    (VITE_API_URL : option string)
    (fetch : ApiClient.Request → completion ApiClient.Response)
    (teamName : string) (entries : jsval) (outputDir : string) (saveToSystem : bool) :
  let request :=
    ApiClient.schedule_request VITE_API_URL teamName entries outputDir saveToSystem in
  let run f :=
    ApiClient.generateSchedule VITE_API_URL f teamName entries outputDir saveToSystem in
  ApiClient.req_method request = "POST"%string
  ∧ ApiClient.req_headers request = [("Content-Type", "application/json")%string]
  ∧ ApiClient.req_body request
    = JSON.serialize
        (JObj [ ("team_name", JStr teamName);
                ("entries_json", JSON.stringify entries);
                ("output_dir", JStr outputDir);
                ("save_to_system", JBool saveToSystem) ]%string)
  ∧ (JSONText.expressible entries = true →
     JSONText.read (ApiClient.req_body request)
     = Some (JObj [ ("team_name", JStr teamName);
                    ("entries_json", JStr (JSON.serialize entries));
                    ("output_dir", JStr outputDir);
                    ("save_to_system", JBool saveToSystem) ]%string)
     ∧ JSONText.read (JSON.serialize entries) = Some entries)
  ∧ (∀ fetch', fetch' request = fetch request → run fetch' = run fetch)
  ∧ (∀ response,
       fetch request = Normal response → ApiClient.resp_ok response = true →
       ∃ name type,
         run fetch = Normal {| ApiClient.blob := ApiClient.resp_blob response;
                               ApiClient.filename := name;
                               ApiClient.contentType := type |}).
Proof.
  cbv zeta. split; [done|]. split; [done|]. split; [done|]. split; [|split].
  - intros Hex. split; [|by apply read_serialize].
    unfold ApiClient.schedule_request, ApiClient.req_body.
    assert (JSON.stringify entries = JStr (JSON.serialize entries)) as ->
      by by destruct entries.
    by apply read_serialize.
  - intros fetch' Heq. unfold ApiClient.generateSchedule. by rewrite Heq.
  - intros response Hfetch Hok. eexists _, _.
    by apply generateSchedule_ok.
Qed.

Lemma generateSchedule_sends_entries_witness :
  JSONText.read
    (ApiClient.req_body (ApiClient.schedule_request None "T1" sample_entries "" false))
  = Some (JObj [ ("team_name", JStr "T1");
                 ("entries_json", JStr (JSON.serialize sample_entries));
                 ("output_dir", JStr "");
                 ("save_to_system", JBool false) ]%string)
  ∧ JSONText.read (JSON.serialize sample_entries) = Some sample_entries.
Proof.
  exact (proj1 (proj2 (proj2 (proj2
           (generateSchedule_sends_entries_verbatim None
              (fun _ => Normal sample_ok_response) "T1" sample_entries "" false))))
           eq_refl).
Defined.

(** ** White space *)

Section WhiteSpace.

Lemma trim_start_empty (s : string) : trim_start s = "" ↔ blank s = true.
Proof.
  unfold blank. induction s as [|c s IH]; simpl; [done|].
  destruct (white_space c); simpl; [exact IH|]. by split.
Qed.

Lemma trim_start_head (s : string) :
  trim_start s = ""
  ∨ ∃ c t, trim_start s = String c t ∧ white_space c = false.
Proof.
  induction s as [|c s IH]; simpl; [by left|].
  destruct (white_space c) eqn:E; [exact IH|]. right. by exists c, s.
Qed.

Lemma trim_end_head (c : ascii) (t : string) :
  white_space c = false → trim_end (String c t) ≠ "".
Proof. intros E. simpl. rewrite E. by destruct (trim_end t). Qed.

(** Trimming leaves nothing exactly of the texts of white space. *)
Lemma trim_empty (s : string) : trim s = "" ↔ blank s = true.
Proof.
  rewrite <-trim_start_empty. unfold trim.
  destruct (trim_start_head s) as [->|(c & t & -> & E)]; [done|].
  split; [|done]. intros H. by apply trim_end_head in H.
Qed.

Lemma trim_eqb_blank (s : string) : String.eqb (trim s) "" = blank s.
Proof.
  destruct (blank s) eqn:E.
  - apply String.eqb_eq. by apply trim_empty.
  - apply String.eqb_neq. intros H. apply trim_empty in H. congruence.
Qed.

End WhiteSpace.

(** ** The Preview call and its handler *)

Section PreviewCall.

Import ApiClient FileGeneration PageHandlers.

Variable VITE_API_URL : option string.
Variable fetch : Request → completion Response.
Variable rawTsv : string.

Local Abbreviation request := (preview_request VITE_API_URL rawTsv).
Local Abbreviation call := (previewSchedule VITE_API_URL fetch rawTsv).
Local Abbreviation run := (handlePreview VITE_API_URL fetch rawTsv).

(** The hook of [p] with [loading] off and the given [error]. *)
Local Abbreviation settled msg p :=
  {| error := msg;
     successMessage := successMessage (hook (world p));
     loading := false;
     outputDir := outputDir (hook (world p));
     useDefaultDownload := useDefaultDownload (hook (world p)) |}.

Lemma previewSchedule_refused (response : Response) :
  fetch request = Normal response → resp_ok response = false →
  call = Throw {| exn_name := "Error"; exn_message := "Failed to preview schedule" |}.
Proof. intros Hfetch Hok. unfold previewSchedule. rewrite Hfetch. simpl. by rewrite Hok. Qed.

Lemma previewSchedule_answered (response : Response) :
  fetch request = Normal response → resp_ok response = true →
  call = resp_json response.
Proof. intros Hfetch Hok. unfold previewSchedule. rewrite Hfetch. simpl. by rewrite Hok. Qed.

(** The handler on a text that is not blank, by what the call and the
    reading of [entries] come to. *)
Lemma handlePreview_nonblank (p : Page) :
  blank rawTsv = false →
  run p =
    match result ← call; get_named_prop result "entries" with
    | Normal v => (Normal tt, page_with (settled None p) v p)
    | Throw e => (Normal tt, page_with (settled (Some (exn_message e)) p) (entries p) p)
    end.
Proof.
  intros Hblank. unfold handlePreview. rewrite trim_eqb_blank, Hblank.
  unfold mbind at 1 2. unfold Act_bind, act_finally, act_catch, use_hook, await.
  simpl. unfold mbind, Act_bind, completion_bind.
  destruct call as [result|e]; simpl; [|done].
  by destruct (get_named_prop result "entries").
Qed.

End PreviewCall.

(** X1: the Preview call posts the pasted text as it is.  The request is
    a POST of JSON whose body, read back, is the one member raw_tsv holding
    the text character for character (tabs, line ends and quotes
    included); the call consults the server with that request only. *)
Theorem previewSchedule_sends_text_verbatim
    (VITE_API_URL : option string)
    (fetch : ApiClient.Request → completion ApiClient.Response) (rawTsv : string) :
  let request := ApiClient.preview_request VITE_API_URL rawTsv in
  ApiClient.req_url request
  = (ApiClient.API_BASE_URL VITE_API_URL ++ "/inspections/preview/")%string
  ∧ ApiClient.req_method request = "POST"%string
  ∧ ApiClient.req_headers request = [("Content-Type", "application/json")%string]
  ∧ JSONText.read (ApiClient.req_body request)
    = Some (JObj [("raw_tsv"%string, JStr rawTsv)])
  ∧ (∀ fetch', fetch' request = fetch request →
       ApiClient.previewSchedule VITE_API_URL fetch' rawTsv
       = ApiClient.previewSchedule VITE_API_URL fetch rawTsv).
Proof.
  cbv zeta. split; [done|]. split; [done|]. split; [done|]. split.
  - unfold ApiClient.preview_request, ApiClient.req_body. by apply read_serialize.
  - intros fetch' Heq. unfold ApiClient.previewSchedule. by rewrite Heq.
Qed.

(** X2: a Preview click on a text of white space only sets the error
    "Data is empty, cannot generate preview" and does nothing else: the
    entries, the loading flag, the success message and the files stay as
    they were, and the server is not consulted (the outcome is the same
    for every server). *)
Theorem handlePreview_blank_text
    (VITE_API_URL : option string)
    (fetch : ApiClient.Request → completion ApiClient.Response)
    (rawTsv : string) (p : PageHandlers.Page) :
  blank rawTsv = true →
  PageHandlers.handlePreview VITE_API_URL fetch rawTsv p
  = (Normal tt,
     {| PageHandlers.world :=
          with_error (Some "Data is empty, cannot generate preview"%string)
            (PageHandlers.world p);
        PageHandlers.entries := PageHandlers.entries p |}).
Proof.
  intros Hblank. unfold PageHandlers.handlePreview.
  by rewrite trim_eqb_blank, Hblank.
Qed.

Lemma handlePreview_blank_witness :
  PageHandlers.handlePreview None (fun _ => Normal sample_preview_response)
    sample_blank_text sample_page
  = (Normal tt,
     {| PageHandlers.world :=
          with_error (Some "Data is empty, cannot generate preview"%string) sample_world;
        PageHandlers.entries := JArr [] |}).
Proof.
  exact (handlePreview_blank_text None (fun _ => Normal sample_preview_response)
           sample_blank_text sample_page eq_refl).
Defined.

(** X3: a Preview click on a text that is not blank, answered by an ok
    response whose JSON body is an object, replaces the entries by the
    body's entries member, clears the error and ends with loading off;
    the success message, the output directory and the files are
    untouched. *)
Theorem handlePreview_stores_entries
    (VITE_API_URL : option string)
    (fetch : ApiClient.Request → completion ApiClient.Response)
    (rawTsv : string) (p : PageHandlers.Page)
    (response : ApiClient.Response) (body : object) :
  blank rawTsv = false →
  fetch (ApiClient.preview_request VITE_API_URL rawTsv) = Normal response →
  ApiClient.resp_ok response = true →
  ApiClient.resp_json response = Normal (JObj body) →
  let h := FileGeneration.hook (PageHandlers.world p) in
  PageHandlers.handlePreview VITE_API_URL fetch rawTsv p
  = (Normal tt,
     page_with
       {| FileGeneration.error := None;
          FileGeneration.successMessage := FileGeneration.successMessage h;
          FileGeneration.loading := false;
          FileGeneration.outputDir := FileGeneration.outputDir h;
          FileGeneration.useDefaultDownload := FileGeneration.useDefaultDownload h |}
       (obj_get body "entries") p).
Proof.
  intros Hblank Hfetch Hok Hjson. cbv zeta.
  rewrite handlePreview_nonblank by done.
  by rewrite (previewSchedule_answered _ _ _ _ Hfetch Hok), Hjson.
Qed.

Lemma handlePreview_stores_entries_witness :
  PageHandlers.handlePreview None (fun _ => Normal sample_preview_response)
    sample_tsv sample_page
  = (Normal tt, page_with sample_hook_state sample_entries sample_page).
Proof.
  exact (handlePreview_stores_entries None (fun _ => Normal sample_preview_response)
           sample_tsv sample_page sample_preview_response
           [("entries"%string, sample_entries)] eq_refl eq_refl eq_refl eq_refl).
Defined.

(** X4: when a Preview click on a text that is not blank fails, the
    entries are kept, the error is the failure's message and loading ends
    off.  The message is that of the network failure, the fixed "Failed to
    preview schedule" for every response that is not ok (its body is never
    read), the parser's for an ok body that is not JSON, and the TypeError
    of reading entries for an ok body that is null. *)
Theorem handlePreview_reports_failure
    (VITE_API_URL : option string)
    (fetch : ApiClient.Request → completion ApiClient.Response)
    (rawTsv : string) (p : PageHandlers.Page) :
  blank rawTsv = false →
  let request := ApiClient.preview_request VITE_API_URL rawTsv in
  let h := FileGeneration.hook (PageHandlers.world p) in
  let failed msg :=
    (Normal tt,
     page_with
       {| FileGeneration.error := Some msg;
          FileGeneration.successMessage := FileGeneration.successMessage h;
          FileGeneration.loading := false;
          FileGeneration.outputDir := FileGeneration.outputDir h;
          FileGeneration.useDefaultDownload := FileGeneration.useDefaultDownload h |}
       (PageHandlers.entries p) p) in
  let run := PageHandlers.handlePreview VITE_API_URL fetch rawTsv p in
  (∀ e, fetch request = Throw e → run = failed (exn_message e))
  ∧ (∀ response, fetch request = Normal response →
       ApiClient.resp_ok response = false →
       run = failed "Failed to preview schedule"%string)
  ∧ (∀ response e, fetch request = Normal response →
       ApiClient.resp_ok response = true →
       ApiClient.resp_json response = Throw e →
       run = failed (exn_message e))
  ∧ (∀ response, fetch request = Normal response →
       ApiClient.resp_ok response = true →
       ApiClient.resp_json response = Normal JNull →
       run = failed "Cannot read properties of null (reading 'entries')"%string).
Proof.
  intros Hblank. cbv zeta. repeat split.
  - intros e Hfetch. rewrite handlePreview_nonblank by done.
    unfold ApiClient.previewSchedule. by rewrite Hfetch.
  - intros response Hfetch Hok. rewrite handlePreview_nonblank by done.
    by rewrite (previewSchedule_refused _ _ _ _ Hfetch Hok).
  - intros response e Hfetch Hok Hjson. rewrite handlePreview_nonblank by done.
    by rewrite (previewSchedule_answered _ _ _ _ Hfetch Hok), Hjson.
  - intros response Hfetch Hok Hjson. rewrite handlePreview_nonblank by done.
    by rewrite (previewSchedule_answered _ _ _ _ Hfetch Hok), Hjson.
Qed.

Lemma handlePreview_reports_failure_witness :
  PageHandlers.handlePreview None (fun _ => Normal sample_error_response)
    sample_tsv sample_page
  = (Normal tt,
     page_with
       {| FileGeneration.error := Some "Failed to preview schedule"%string;
          FileGeneration.successMessage := None;
          FileGeneration.loading := false;
          FileGeneration.outputDir := ""%string;
          FileGeneration.useDefaultDownload := false |}
       (JArr []) sample_page).
Proof.
  exact (proj1 (proj2 (handlePreview_reports_failure None
                         (fun _ => Normal sample_error_response)
                         sample_tsv sample_page eq_refl))
           sample_error_response eq_refl eq_refl).
Defined.

(** ** The branches of the generate handler *)

Section HandlerBranches.

Import ApiClient FileGeneration.

Variable captured : HookState.
Variable apiFunction : string → completion Schedule.
Variable dataValidator : unit → Validation.
Variable showDirectoryPicker : completion DirHandle.

Local Abbreviation handler :=
  (generateHandler captured apiFunction dataValidator showDirectoryPicker).
Local Abbreviation choose := (choose_directory captured showDirectoryPicker).

(** What the block before the API call comes to. *)
Lemma choose_directory_run (w : World) :
  choose w =
    if dismissed captured showDirectoryPicker then (Normal None, w)
    else
      (Normal (Some (if negb (useDefaultDownload captured)
                        && String.eqb (outputDir captured) ""
                     then match showDirectoryPicker with
                          | Normal h => Some h
                          | Throw _ => None
                          end
                     else None, run_dir captured showDirectoryPicker)),
       if negb (useDefaultDownload captured)
          && String.eqb (outputDir captured) ""
       then match showDirectoryPicker with
            | Normal _ => w
            | Throw _ =>
                with_error
                  (Some "Failed to select directory. Falling back to browser download.")
                  w
            end
       else w).
Proof.
  unfold choose_directory, dismissed, run_dir.
  destruct (negb (useDefaultDownload captured) && String.eqb (outputDir captured) "");
    simpl; [|done].
  unfold try_catch, mbind, Eff_bind, lift, selectOutputDirectory.
  destruct showDirectoryPicker as [h|e]; simpl.
  - pose proof (str_or_empty_default (dh_name h)) as Hname.
    unfold str_or in Hname. by rewrite Hname.
  - by destruct (String.eqb (exn_name e) "AbortError").
Qed.

(** A run that passes the validator and is not dismissed: the state calls,
    the body of the [try], its [catch] and its [finally]. *)
Lemma generateHandler_run (w w1 : World) (dirHandle : option DirHandle) (dir : string) :
  valid (dataValidator tt) = true →
  choose w = (Normal (Some (dirHandle, dir)), w1) →
  handler w =
    match deliver captured apiFunction dirHandle dir (started dir w1) with
    | (Normal _, w2) =>
        (Normal tt,
         {| hook := hook_after (error (hook w2)) (successMessage (hook w2))
                      (outputDir (hook w2)) w2;
            downloads := downloads w2; written := written w2 |})
    | (Throw e, w2) =>
        (Normal tt,
         {| hook := hook_after (Some (exn_message e)) (successMessage (hook w2))
                      (outputDir (hook w2)) w2;
            downloads := downloads w2; written := written w2 |})
    end.
Proof.
  intros Hvalid Hchoose. unfold generateHandler. rewrite Hvalid. simpl.
  unfold mbind at 1. unfold Eff_bind. rewrite Hchoose.
  unfold mbind, Eff_bind, try_finally, try_catch. simpl.
  change {| hook := _; downloads := downloads w1; written := written w1 |}
    with (started dir w1).
  by destruct (deliver captured apiFunction dirHandle dir (started dir w1))
    as [[[]|e] w2].
Qed.

(** A run whose API call throws. *)
Lemma generateHandler_api_throw (e : exn) (w : World) :
  valid (dataValidator tt) = true →
  dismissed captured showDirectoryPicker = false →
  apiFunction (run_dir captured showDirectoryPicker) = Throw e →
  handler w
  = (Normal tt,
     {| hook := hook_after (Some (exn_message e)) None
                  (run_dir captured showDirectoryPicker) w;
        downloads := downloads w;
        written := written w |}).
Proof.
  intros Hvalid Hrun Hapi.
  pose proof (choose_directory_run w) as Hchoose. rewrite Hrun in Hchoose.
  rewrite (generateHandler_run _ _ _ _ Hvalid Hchoose).
  unfold deliver, mbind, Eff_bind, lift. rewrite Hapi.
  destruct (negb (useDefaultDownload captured) && String.eqb (outputDir captured) "");
    [|done].
  by destruct showDirectoryPicker.
Qed.

End HandlerBranches.

(** The handler asks the API for the directory of the run and for nothing
    else. *)
Lemma generateHandler_api_ext
    (captured : FileGeneration.HookState)
    (apiFunction apiFunction' : string → completion ApiClient.Schedule)
    (dataValidator : unit → FileGeneration.Validation)
    (showDirectoryPicker : completion FileGeneration.DirHandle)
    (w : FileGeneration.World) :
  apiFunction' (run_dir captured showDirectoryPicker)
  = apiFunction (run_dir captured showDirectoryPicker) →
  FileGeneration.generateHandler captured apiFunction' dataValidator
    showDirectoryPicker w
  = FileGeneration.generateHandler captured apiFunction dataValidator
      showDirectoryPicker w.
Proof.
  intros Hagree.
  destruct (FileGeneration.valid (dataValidator tt)) eqn:Hvalid.
  2: { unfold FileGeneration.generateHandler. by rewrite Hvalid. }
  pose proof (choose_directory_run captured showDirectoryPicker w) as Hchoose.
  destruct (dismissed captured showDirectoryPicker) eqn:Hrun.
  { unfold FileGeneration.generateHandler. rewrite Hvalid. simpl.
    unfold mbind, FileGeneration.Eff_bind. by rewrite Hchoose. }
  rewrite (generateHandler_run _ apiFunction _ _ _ _ _ _ Hvalid Hchoose).
  rewrite (generateHandler_run _ apiFunction' _ _ _ _ _ _ Hvalid Hchoose).
  unfold FileGeneration.deliver, mbind, FileGeneration.Eff_bind, FileGeneration.lift.
  by rewrite Hagree.
Qed.

(** X5: with "Save to default download folder" ticked, a valid click
    whose API call answers a document hands exactly that document to the
    browser as one download under its file name, writes nothing itself,
    never opens the directory picker, and ends with the success message
    naming the file, no error and loading off. *)
Theorem default_download_delivers
    (captured : FileGeneration.HookState)
    (apiFunction : string → completion ApiClient.Schedule)
    (dataValidator : unit → FileGeneration.Validation)
    (showDirectoryPicker : completion FileGeneration.DirHandle)
    (doc : ApiClient.Schedule) (w : FileGeneration.World) :
  FileGeneration.valid (dataValidator tt) = true →
  FileGeneration.useDefaultDownload captured = true →
  apiFunction (FileGeneration.outputDir captured) = Normal doc →
  FileGeneration.generateHandler captured apiFunction dataValidator
    showDirectoryPicker w
  = (Normal tt,
     {| FileGeneration.hook :=
          hook_after None
            (Some ("Download complete, saved to default browser download folder as "
                   ++ String JSON.dquote
                        (ApiClient.filename doc ++ String JSON.dquote ""))%string)
            (FileGeneration.outputDir captured) w;
        FileGeneration.downloads :=
          FileGeneration.downloads w ++ [(ApiClient.blob doc, ApiClient.filename doc)];
        FileGeneration.written := FileGeneration.written w |}).
Proof.
  intros Hvalid Hdefault Hapi.
  pose proof (choose_directory_run captured showDirectoryPicker w) as Hchoose.
  unfold dismissed, run_dir in Hchoose. rewrite Hdefault in Hchoose. simpl in Hchoose.
  rewrite (generateHandler_run _ _ _ _ _ _ _ _ Hvalid Hchoose).
  unfold FileGeneration.deliver. rewrite Hdefault.
  unfold mbind, FileGeneration.Eff_bind, FileGeneration.lift. by rewrite Hapi.
Qed.

Lemma default_download_witness :
  FileGeneration.generateHandler FileGeneration.initial_hook
    (fun _ => Normal sample_document) (fun _ => sample_validation)
    (Throw sample_refusal) sample_world
  = (Normal tt,
     {| FileGeneration.hook :=
          hook_after None
            (Some ("Download complete, saved to default browser download folder as "
                   ++ String JSON.dquote ("week.xlsx" ++ String JSON.dquote ""))%string)
            ""%string sample_world;
        FileGeneration.downloads := [("PK"%string, "week.xlsx"%string)];
        FileGeneration.written := [] |}).
Proof.
  exact (default_download_delivers FileGeneration.initial_hook
           (fun _ => Normal sample_document) (fun _ => sample_validation)
           (Throw sample_refusal) sample_document sample_world
           eq_refl eq_refl eq_refl).
Defined.

(** X6: with the box unticked and a directory typed into the output
    field, a valid click whose API call answers a document reports
    "Saved to <directory>/<file name>" and produces no file on the client:
    no download, nothing written, and the directory picker is not opened.
    The typed text is passed to the API as it is. *)
Theorem typed_directory_reports_saved
    (captured : FileGeneration.HookState)
    (apiFunction : string → completion ApiClient.Schedule)
    (dataValidator : unit → FileGeneration.Validation)
    (showDirectoryPicker : completion FileGeneration.DirHandle)
    (doc : ApiClient.Schedule) (w : FileGeneration.World) :
  FileGeneration.valid (dataValidator tt) = true →
  FileGeneration.useDefaultDownload captured = false →
  FileGeneration.outputDir captured ≠ ""%string →
  apiFunction (FileGeneration.outputDir captured) = Normal doc →
  FileGeneration.generateHandler captured apiFunction dataValidator
    showDirectoryPicker w
  = (Normal tt,
     {| FileGeneration.hook :=
          hook_after None
            (Some ("Saved to " ++ FileGeneration.outputDir captured ++ "/"
                   ++ ApiClient.filename doc)%string)
            (FileGeneration.outputDir captured) w;
        FileGeneration.downloads := FileGeneration.downloads w;
        FileGeneration.written := FileGeneration.written w |}).
Proof.
  intros Hvalid Hdefault Hdir Hapi.
  pose proof (choose_directory_run captured showDirectoryPicker w) as Hchoose.
  unfold dismissed, run_dir in Hchoose. rewrite Hdefault in Hchoose.
  apply String.eqb_neq in Hdir. rewrite Hdir in Hchoose. simpl in Hchoose.
  rewrite (generateHandler_run _ _ _ _ _ _ _ _ Hvalid Hchoose).
  unfold FileGeneration.deliver. rewrite Hdefault.
  unfold mbind, FileGeneration.Eff_bind, FileGeneration.lift. by rewrite Hapi.
Qed.

Lemma typed_directory_witness :
  FileGeneration.generateHandler sample_typed_hook
    (fun _ => Normal sample_document) (fun _ => sample_validation)
    (Normal sample_directory) sample_world
  = (Normal tt,
     {| FileGeneration.hook :=
          hook_after None (Some "Saved to /srv/schedules/week.xlsx"%string)
            "/srv/schedules"%string sample_world;
        FileGeneration.downloads := [];
        FileGeneration.written := [] |}).
Proof.
  exact (typed_directory_reports_saved sample_typed_hook
           (fun _ => Normal sample_document) (fun _ => sample_validation)
           (Normal sample_directory) sample_document sample_world
           eq_refl eq_refl ltac:(discriminate) eq_refl).
Defined.

(** X7: with the box unticked and the output field empty, a valid click
    opens the directory picker; when a directory is picked, the API call
    (made with the directory's name) answers a document and the four file
    calls succeed, the document is written into that directory under its
    file name, nothing is downloaded, the success message names directory
    and file, and the output field now holds the directory's name. *)
Theorem picked_directory_receives_file
    (captured : FileGeneration.HookState)
    (apiFunction : string → completion ApiClient.Schedule)
    (dataValidator : unit → FileGeneration.Validation)
    (dirHandle : FileGeneration.DirHandle)
    (doc : ApiClient.Schedule) (w : FileGeneration.World) :
  FileGeneration.valid (dataValidator tt) = true →
  FileGeneration.useDefaultDownload captured = false →
  FileGeneration.outputDir captured = ""%string →
  apiFunction (FileGeneration.dh_name dirHandle) = Normal doc →
  FileGeneration.write_calls (ApiClient.blob doc) (ApiClient.filename doc) dirHandle
    = Normal tt →
  FileGeneration.generateHandler captured apiFunction dataValidator
    (Normal dirHandle) w
  = (Normal tt,
     {| FileGeneration.hook :=
          hook_after None
            (Some ("Download complete, saved to output: "
                   ++ FileGeneration.dh_name dirHandle ++ "/"
                   ++ ApiClient.filename doc)%string)
            (FileGeneration.dh_name dirHandle) w;
        FileGeneration.downloads := FileGeneration.downloads w;
        FileGeneration.written :=
          FileGeneration.written w
          ++ [(FileGeneration.dh_name dirHandle, ApiClient.filename doc,
               ApiClient.blob doc)] |}).
Proof.
  intros Hvalid Hdefault Hdir Hapi Hwrite.
  pose proof (choose_directory_run captured (Normal dirHandle) w) as Hchoose.
  unfold dismissed, run_dir in Hchoose. rewrite Hdefault, Hdir in Hchoose.
  simpl in Hchoose.
  rewrite (generateHandler_run _ _ _ _ _ _ _ _ Hvalid Hchoose).
  unfold FileGeneration.deliver. rewrite Hdefault.
  unfold mbind, FileGeneration.Eff_bind, FileGeneration.lift,
    FileGeneration.try_catch, FileGeneration.saveFileToDirectory.
  by rewrite Hapi, Hwrite.
Qed.

Lemma picked_directory_witness :
  FileGeneration.generateHandler sample_hook_state
    (fun _ => Normal sample_document) (fun _ => sample_validation)
    (Normal sample_directory) sample_world
  = (Normal tt,
     {| FileGeneration.hook :=
          hook_after None
            (Some "Download complete, saved to output: schedules/week.xlsx"%string)
            "schedules"%string sample_world;
        FileGeneration.downloads := [];
        FileGeneration.written :=
          [("schedules"%string, "week.xlsx"%string, "PK"%string)] |}).
Proof.
  exact (picked_directory_receives_file sample_hook_state
           (fun _ => Normal sample_document) (fun _ => sample_validation)
           sample_directory sample_document sample_world
           eq_refl eq_refl eq_refl eq_refl eq_refl).
Defined.

(** X8: closing the directory picker cancels the click: when the picker
    throws an AbortError nothing at all changes (no state call, no file)
    and the API is not called, whatever it would answer. *)
Theorem dismissed_picker_changes_nothing
    (captured : FileGeneration.HookState)
    (apiFunction : string → completion ApiClient.Schedule)
    (dataValidator : unit → FileGeneration.Validation)
    (e : exn) (w : FileGeneration.World) :
  FileGeneration.valid (dataValidator tt) = true →
  FileGeneration.useDefaultDownload captured = false →
  FileGeneration.outputDir captured = ""%string →
  exn_name e = "AbortError"%string →
  FileGeneration.generateHandler captured apiFunction dataValidator (Throw e) w
  = (Normal tt, w).
Proof.
  intros Hvalid Hdefault Hdir Hname.
  pose proof (choose_directory_run captured (Throw e) w) as Hchoose.
  unfold dismissed in Hchoose. rewrite Hdefault, Hdir, Hname in Hchoose.
  simpl in Hchoose.
  unfold FileGeneration.generateHandler. rewrite Hvalid. simpl.
  unfold mbind, FileGeneration.Eff_bind. by rewrite Hchoose.
Qed.

Lemma dismissed_picker_witness :
  FileGeneration.generateHandler sample_hook_state
    (fun _ => Normal sample_document) (fun _ => sample_validation)
    (Throw sample_abort) sample_world
  = (Normal tt, sample_world).
Proof.
  exact (dismissed_picker_changes_nothing sample_hook_state
           (fun _ => Normal sample_document) (fun _ => sample_validation)
           sample_abort sample_world eq_refl eq_refl eq_refl eq_refl).
Defined.

(** X9: when the directory picker fails with anything but an AbortError,
    the message "Failed to select directory. Falling back to browser
    download." does not survive the run and no download takes place: the
    API is called with the empty directory, and when it answers a document
    the run ends with no error, the success message "Saved to /<file
    name>", nothing downloaded and nothing written. *)
Theorem failed_picker_downloads_nothing
    (captured : FileGeneration.HookState)
    (apiFunction : string → completion ApiClient.Schedule)
    (dataValidator : unit → FileGeneration.Validation)
    (e : exn) (doc : ApiClient.Schedule) (w : FileGeneration.World) :
  FileGeneration.valid (dataValidator tt) = true →
  FileGeneration.useDefaultDownload captured = false →
  FileGeneration.outputDir captured = ""%string →
  exn_name e ≠ "AbortError"%string →
  apiFunction ""%string = Normal doc →
  FileGeneration.generateHandler captured apiFunction dataValidator (Throw e) w
  = (Normal tt,
     {| FileGeneration.hook :=
          hook_after None (Some ("Saved to /" ++ ApiClient.filename doc)%string)
            ""%string w;
        FileGeneration.downloads := FileGeneration.downloads w;
        FileGeneration.written := FileGeneration.written w |}).
Proof.
  intros Hvalid Hdefault Hdir Hname Hapi.
  pose proof (choose_directory_run captured (Throw e) w) as Hchoose.
  unfold dismissed, run_dir in Hchoose. rewrite Hdefault, Hdir in Hchoose.
  apply String.eqb_neq in Hname. rewrite Hname in Hchoose. simpl in Hchoose.
  rewrite (generateHandler_run _ _ _ _ _ _ _ _ Hvalid Hchoose).
  unfold FileGeneration.deliver. rewrite Hdefault.
  unfold mbind, FileGeneration.Eff_bind, FileGeneration.lift. by rewrite Hapi.
Qed.

Lemma failed_picker_witness :
  FileGeneration.generateHandler sample_hook_state
    (fun _ => Normal sample_document) (fun _ => sample_validation)
    (Throw sample_refusal) sample_world
  = (Normal tt,
     {| FileGeneration.hook :=
          hook_after None (Some "Saved to /week.xlsx"%string) ""%string sample_world;
        FileGeneration.downloads := [];
        FileGeneration.written := [] |}).
Proof.
  exact (failed_picker_downloads_nothing sample_hook_state
           (fun _ => Normal sample_document) (fun _ => sample_validation)
           sample_refusal sample_document sample_world
           eq_refl eq_refl eq_refl ltac:(discriminate) eq_refl).
Defined.

(** X10: when the API call of a click that got past the validator and the
    picker fails, the failure's message becomes the hook's error, no
    success message is set, no file is downloaded or written, and loading
    ends off. *)
Theorem api_failure_is_reported
    (captured : FileGeneration.HookState)
    (apiFunction : string → completion ApiClient.Schedule)
    (dataValidator : unit → FileGeneration.Validation)
    (showDirectoryPicker : completion FileGeneration.DirHandle)
    (e : exn) (w : FileGeneration.World) :
  FileGeneration.valid (dataValidator tt) = true →
  dismissed captured showDirectoryPicker = false →
  apiFunction (run_dir captured showDirectoryPicker) = Throw e →
  FileGeneration.generateHandler captured apiFunction dataValidator
    showDirectoryPicker w
  = (Normal tt,
     {| FileGeneration.hook :=
          hook_after (Some (exn_message e)) None
            (run_dir captured showDirectoryPicker) w;
        FileGeneration.downloads := FileGeneration.downloads w;
        FileGeneration.written := FileGeneration.written w |}).
Proof.
  intros Hvalid Hrun Hapi. by apply generateHandler_api_throw.
Qed.

Lemma api_failure_witness :
  FileGeneration.generateHandler FileGeneration.initial_hook
    (fun _ => Throw sample_network_failure) (fun _ => sample_validation)
    (Normal sample_directory) sample_world
  = (Normal tt,
     {| FileGeneration.hook :=
          hook_after (Some "Failed to fetch"%string) None ""%string sample_world;
        FileGeneration.downloads := [];
        FileGeneration.written := [] |}).
Proof.
  exact (api_failure_is_reported FileGeneration.initial_hook
           (fun _ => Throw sample_network_failure) (fun _ => sample_validation)
           (Normal sample_directory) sample_network_failure sample_world
           eq_refl eq_refl eq_refl).
Defined.

(** X11: a click never throws and hands over at most one file, and only a
    document the API answered for the directory of the run: either nothing,
    or one download, or one file written into the picked directory; never
    both a download and a written file, and the files of earlier runs stay
    in place. *)
Theorem generateHandler_delivers_at_most_once
    (captured : FileGeneration.HookState)
    (apiFunction : string → completion ApiClient.Schedule)
    (dataValidator : unit → FileGeneration.Validation)
    (showDirectoryPicker : completion FileGeneration.DirHandle)
    (w : FileGeneration.World) :
  ∃ w',
    FileGeneration.generateHandler captured apiFunction dataValidator
      showDirectoryPicker w = (Normal tt, w')
    ∧ ((FileGeneration.downloads w' = FileGeneration.downloads w
        ∧ FileGeneration.written w' = FileGeneration.written w)
       ∨ (∃ doc,
            apiFunction (run_dir captured showDirectoryPicker) = Normal doc
            ∧ FileGeneration.downloads w'
              = FileGeneration.downloads w
                ++ [(ApiClient.blob doc, ApiClient.filename doc)]
            ∧ FileGeneration.written w' = FileGeneration.written w)
       ∨ (∃ doc dirHandle,
            apiFunction (run_dir captured showDirectoryPicker) = Normal doc
            ∧ showDirectoryPicker = Normal dirHandle
            ∧ FileGeneration.downloads w' = FileGeneration.downloads w
            ∧ FileGeneration.written w'
              = FileGeneration.written w
                ++ [(FileGeneration.dh_name dirHandle, ApiClient.filename doc,
                     ApiClient.blob doc)])).
Proof.
  destruct (FileGeneration.valid (dataValidator tt)) eqn:Hvalid.
  2: { eexists. split; [unfold FileGeneration.generateHandler; by rewrite Hvalid|].
       by left. }
  pose proof (choose_directory_run captured showDirectoryPicker w) as Hchoose.
  destruct (dismissed captured showDirectoryPicker) eqn:Hrun.
  { exists w. split; [|by left].
    unfold FileGeneration.generateHandler. rewrite Hvalid. simpl.
    unfold mbind, FileGeneration.Eff_bind. by rewrite Hchoose. }
  rewrite (generateHandler_run _ _ _ _ _ _ _ _ Hvalid Hchoose).
  unfold FileGeneration.deliver, mbind, FileGeneration.Eff_bind, FileGeneration.lift.
  destruct (apiFunction (run_dir captured showDirectoryPicker)) as [doc|e] eqn:Hapi.
  2: { eexists. split; [done|]. left.
       destruct (negb (FileGeneration.useDefaultDownload captured)
                 && String.eqb (FileGeneration.outputDir captured) ""); [|done].
       by destruct showDirectoryPicker. }
  destruct (FileGeneration.useDefaultDownload captured) eqn:Hdefault; simpl.
  { eexists. split; [done|]. right; left. by exists doc. }
  destruct (String.eqb (FileGeneration.outputDir captured) "") eqn:Hdir; simpl.
  2: { eexists. split; [done|]. by left. }
  destruct showDirectoryPicker as [dirHandle|e]; simpl.
  2: { eexists. split; [done|]. by left. }
  unfold FileGeneration.try_catch, FileGeneration.saveFileToDirectory.
  destruct (FileGeneration.write_calls _ _ dirHandle) as [[]|e]; simpl.
  - eexists. split; [done|]. right; right. by exists doc, dirHandle.
  - eexists. split; [done|]. right; left. by exists doc.
Qed.

(** X12: a click that reaches the API call ends with loading off, the
    directory of the run in the output field, and exactly one of the two
    messages: an error or a success message, never both and never
    neither. *)
Theorem generateHandler_error_or_success
    (captured : FileGeneration.HookState)
    (apiFunction : string → completion ApiClient.Schedule)
    (dataValidator : unit → FileGeneration.Validation)
    (showDirectoryPicker : completion FileGeneration.DirHandle)
    (w : FileGeneration.World) :
  FileGeneration.valid (dataValidator tt) = true →
  dismissed captured showDirectoryPicker = false →
  ∃ w',
    FileGeneration.generateHandler captured apiFunction dataValidator
      showDirectoryPicker w = (Normal tt, w')
    ∧ FileGeneration.loading (FileGeneration.hook w') = false
    ∧ FileGeneration.outputDir (FileGeneration.hook w')
      = run_dir captured showDirectoryPicker
    ∧ ((FileGeneration.error (FileGeneration.hook w') = None
        ∧ is_Some (FileGeneration.successMessage (FileGeneration.hook w')))
       ∨ (is_Some (FileGeneration.error (FileGeneration.hook w'))
          ∧ FileGeneration.successMessage (FileGeneration.hook w') = None)).
Proof.
  intros Hvalid Hrun.
  pose proof (choose_directory_run captured showDirectoryPicker w) as Hchoose.
  rewrite Hrun in Hchoose.
  rewrite (generateHandler_run _ _ _ _ _ _ _ _ Hvalid Hchoose).
  unfold FileGeneration.deliver, mbind, FileGeneration.Eff_bind, FileGeneration.lift.
  destruct (apiFunction (run_dir captured showDirectoryPicker)) as [doc|e].
  2: { eexists. split; [done|]. simpl. split; [done|]. split; [done|]. right. eauto. }
  destruct (FileGeneration.useDefaultDownload captured); simpl.
  { eexists. split; [done|]. simpl. split; [done|]. split; [done|]. left. eauto. }
  destruct (String.eqb (FileGeneration.outputDir captured) ""); simpl.
  2: { eexists. split; [done|]. simpl. split; [done|]. split; [done|]. left. eauto. }
  destruct showDirectoryPicker as [dirHandle|e]; simpl.
  2: { eexists. split; [done|]. simpl. split; [done|]. split; [done|]. left. eauto. }
  unfold FileGeneration.try_catch, FileGeneration.saveFileToDirectory.
  destruct (FileGeneration.write_calls _ _ dirHandle) as [[]|e]; simpl.
  - eexists. split; [done|]. simpl. split; [done|]. split; [done|]. left. eauto.
  - eexists. split; [done|]. simpl. split; [done|]. split; [done|]. right. eauto.
Qed.

Lemma generateHandler_error_or_success_witness :
  ∃ w',
    FileGeneration.generateHandler sample_hook_state
      (fun _ => Normal sample_document) (fun _ => sample_validation)
      (Normal sample_refusing_directory) sample_world = (Normal tt, w')
    ∧ FileGeneration.loading (FileGeneration.hook w') = false
    ∧ FileGeneration.outputDir (FileGeneration.hook w') = "schedules"%string
    ∧ ((FileGeneration.error (FileGeneration.hook w') = None
        ∧ is_Some (FileGeneration.successMessage (FileGeneration.hook w')))
       ∨ (is_Some (FileGeneration.error (FileGeneration.hook w'))
          ∧ FileGeneration.successMessage (FileGeneration.hook w') = None)).
Proof.
  exact (generateHandler_error_or_success sample_hook_state
           (fun _ => Normal sample_document) (fun _ => sample_validation)
           (Normal sample_refusing_directory) sample_world eq_refl eq_refl).
Defined.

(** X13: after a click that picked a directory and wrote its file there,
    the output field holds the directory's name; the next click from that
    state (box still unticked) therefore never opens the picker and has no
    directory handle: when the API answers a document it reports "Saved to
    <name>/<file name>", yet nothing is written and nothing is downloaded. *)
Theorem second_click_after_picking
    (apiFunction apiFunction' : string → completion ApiClient.Schedule)
    (dataValidator : unit → FileGeneration.Validation)
    (showDirectoryPicker' : completion FileGeneration.DirHandle)
    (dirHandle : FileGeneration.DirHandle)
    (doc doc' : ApiClient.Schedule) (w : FileGeneration.World) :
  FileGeneration.valid (dataValidator tt) = true →
  FileGeneration.useDefaultDownload (FileGeneration.hook w) = false →
  FileGeneration.outputDir (FileGeneration.hook w) = ""%string →
  FileGeneration.dh_name dirHandle ≠ ""%string →
  apiFunction (FileGeneration.dh_name dirHandle) = Normal doc →
  FileGeneration.write_calls (ApiClient.blob doc) (ApiClient.filename doc) dirHandle
    = Normal tt →
  apiFunction' (FileGeneration.dh_name dirHandle) = Normal doc' →
  ∃ w1,
    FileGeneration.generateHandler (FileGeneration.hook w) apiFunction
      dataValidator (Normal dirHandle) w = (Normal tt, w1)
    ∧ FileGeneration.outputDir (FileGeneration.hook w1)
      = FileGeneration.dh_name dirHandle
    ∧ FileGeneration.generateHandler (FileGeneration.hook w1) apiFunction'
        dataValidator showDirectoryPicker' w1
      = (Normal tt,
         {| FileGeneration.hook :=
              hook_after None
                (Some ("Saved to " ++ FileGeneration.dh_name dirHandle ++ "/"
                       ++ ApiClient.filename doc')%string)
                (FileGeneration.dh_name dirHandle) w1;
            FileGeneration.downloads := FileGeneration.downloads w1;
            FileGeneration.written := FileGeneration.written w1 |}).
Proof.
  intros Hvalid Hdefault Hdir Hname Hapi Hwrite Hapi'.
  assert (∀ w1,
            FileGeneration.useDefaultDownload (FileGeneration.hook w1) = false →
            FileGeneration.outputDir (FileGeneration.hook w1)
            = FileGeneration.dh_name dirHandle →
            FileGeneration.generateHandler (FileGeneration.hook w1) apiFunction'
              dataValidator showDirectoryPicker' w1
            = (Normal tt,
               {| FileGeneration.hook :=
                    hook_after None
                      (Some ("Saved to " ++ FileGeneration.dh_name dirHandle ++ "/"
                             ++ ApiClient.filename doc')%string)
                      (FileGeneration.dh_name dirHandle) w1;
                  FileGeneration.downloads := FileGeneration.downloads w1;
                  FileGeneration.written := FileGeneration.written w1 |}))
    as Hsecond.
  { intros w1 Hdefault1 Hdir1.
    pose proof (choose_directory_run (FileGeneration.hook w1) showDirectoryPicker' w1)
      as Hchoose.
    unfold dismissed, run_dir in Hchoose. rewrite Hdefault1, Hdir1 in Hchoose.
    apply String.eqb_neq in Hname. rewrite Hname in Hchoose. simpl in Hchoose.
    rewrite (generateHandler_run _ _ _ _ _ _ _ _ Hvalid Hchoose).
    unfold FileGeneration.deliver. rewrite Hdefault1.
    unfold mbind, FileGeneration.Eff_bind, FileGeneration.lift. by rewrite Hapi'. }
  pose proof (choose_directory_run (FileGeneration.hook w) (Normal dirHandle) w)
    as Hchoose.
  unfold dismissed, run_dir in Hchoose. rewrite Hdefault, Hdir in Hchoose.
  simpl in Hchoose.
  rewrite (generateHandler_run _ _ _ _ _ _ _ _ Hvalid Hchoose).
  unfold FileGeneration.deliver at 1. rewrite Hdefault.
  unfold mbind, FileGeneration.Eff_bind, FileGeneration.lift,
    FileGeneration.try_catch, FileGeneration.saveFileToDirectory.
  rewrite Hapi, Hwrite. eexists. split; [reflexivity|]. split; [reflexivity|].
  by apply Hsecond.
Qed.

Lemma second_click_witness :
  ∃ w1,
    FileGeneration.generateHandler sample_hook_state
      (fun _ => Normal sample_document) (fun _ => sample_validation)
      (Normal sample_directory) sample_world = (Normal tt, w1)
    ∧ FileGeneration.outputDir (FileGeneration.hook w1) = "schedules"%string
    ∧ FileGeneration.generateHandler (FileGeneration.hook w1)
        (fun _ => Normal sample_document) (fun _ => sample_validation)
        (Normal sample_directory) w1
      = (Normal tt,
         {| FileGeneration.hook :=
              hook_after None (Some "Saved to schedules/week.xlsx"%string)
                "schedules"%string w1;
            FileGeneration.downloads := FileGeneration.downloads w1;
            FileGeneration.written := FileGeneration.written w1 |}).
Proof.
  exact (second_click_after_picking
           (fun _ => Normal sample_document) (fun _ => Normal sample_document)
           (fun _ => sample_validation) (Normal sample_directory)
           sample_directory sample_document sample_document sample_world
           eq_refl eq_refl eq_refl ltac:(discriminate) eq_refl eq_refl eq_refl).
Defined.

(** ** The Generate click of the Schedule page *)

Section SchedulePageGenerate.

Import ApiClient FileGeneration PageHandlers.

Variables (selectedTeam : string) (entries : list jsval).

Lemma dataValidator_valid :
  valid (dataValidator selectedTeam entries tt) = true
  ↔ selectedTeam ≠ "" ∧ entries ≠ [].
Proof.
  unfold dataValidator.
  destruct (String.eqb selectedTeam "") eqn:Hteam; simpl.
  - apply String.eqb_eq in Hteam. split; [done|]. by intros [? _].
  - apply String.eqb_neq in Hteam. destruct entries; simpl.
    + split; [done|]. by intros [_ ?].
    + by split.
Qed.

End SchedulePageGenerate.

(** X14: the validator of the pages accepts exactly a selected team
    together with at least one entry.  A missing team is reported first
    ("Please select a team", also when there are no entries); entries
    missing alone give "Please preview data to add entries"; an accepted
    state carries no message.  Whenever the Generate button is enabled the
    validator accepts. *)
Theorem dataValidator_accepts_team_with_entries
    (selectedTeam : string) (entries : list jsval) :
  (FileGeneration.valid (PageHandlers.dataValidator selectedTeam entries tt) = true
   ↔ selectedTeam ≠ ""%string ∧ entries ≠ [])
  ∧ (selectedTeam = ""%string →
     PageHandlers.dataValidator selectedTeam entries tt
     = {| FileGeneration.valid := false;
          FileGeneration.validation_error := Some "Please select a team"%string |})
  ∧ (selectedTeam ≠ ""%string → entries = [] →
     PageHandlers.dataValidator selectedTeam entries tt
     = {| FileGeneration.valid := false;
          FileGeneration.validation_error :=
            Some "Please preview data to add entries"%string |})
  ∧ (FileGeneration.valid (PageHandlers.dataValidator selectedTeam entries tt) = true →
     FileGeneration.validation_error
       (PageHandlers.dataValidator selectedTeam entries tt) = None)
  ∧ (∀ loading,
       PageHandlers.generate_disabled selectedTeam entries loading = false →
       FileGeneration.valid (PageHandlers.dataValidator selectedTeam entries tt)
       = true).
Proof.
  split; [apply dataValidator_valid|].
  unfold PageHandlers.dataValidator, PageHandlers.generate_disabled.
  repeat split.
  - by intros ->.
  - intros Hteam ->. apply String.eqb_neq in Hteam. by rewrite Hteam.
  - by destruct (String.eqb selectedTeam "" || (length entries =? 0)%nat).
  - intros loading Hoff. apply orb_false_elim in Hoff as [Hoff Hteam].
    apply orb_false_elim in Hoff as [_ Hlen]. by rewrite Hteam, Hlen.
Qed.

(** X15: a Generate click of the Schedule page without a team, or with a
    team but without entries, only sets the validator's message as the
    error: loading, the success message, the output field and the files
    stay as they were, the picker is not opened and the server is not
    consulted (the outcome is the same whatever they would answer). *)
Theorem generate_refused_without_team_or_entries
    (VITE_API_URL : option string)
    (fetch : ApiClient.Request → completion ApiClient.Response)
    (selectedTeam : string) (entries : list jsval)
    (captured : FileGeneration.HookState)
    (showDirectoryPicker : completion FileGeneration.DirHandle)
    (w : FileGeneration.World) :
  (selectedTeam = ""%string →
   PageHandlers.handleGenerate VITE_API_URL fetch selectedTeam entries captured
     showDirectoryPicker w
   = (Normal tt, with_error (Some "Please select a team"%string) w))
  ∧ (selectedTeam ≠ ""%string → entries = [] →
     PageHandlers.handleGenerate VITE_API_URL fetch selectedTeam entries captured
       showDirectoryPicker w
     = (Normal tt, with_error (Some "Please preview data to add entries"%string) w)).
Proof.
  unfold PageHandlers.handleGenerate, FileGeneration.generateHandler,
    PageHandlers.dataValidator.
  split.
  - by intros ->.
  - intros Hteam ->. apply String.eqb_neq in Hteam. by rewrite Hteam.
Qed.

(** X16: when the server refuses the Generate request of the Schedule
    page, the page shows the server's words: for a response that is not ok
    the click ends with no file, no success message and loading off, and
    the error is the non-empty error string of the JSON body, or "Failed
    to generate schedule" when the body is not JSON. *)
Theorem schedule_page_shows_server_error
    (VITE_API_URL : option string)
    (fetch : ApiClient.Request → completion ApiClient.Response)
    (selectedTeam : string) (entries : list jsval)
    (captured : FileGeneration.HookState)
    (showDirectoryPicker : completion FileGeneration.DirHandle)
    (response : ApiClient.Response) (w : FileGeneration.World) :
  selectedTeam ≠ ""%string → entries ≠ [] →
  dismissed captured showDirectoryPicker = false →
  fetch (ApiClient.schedule_request VITE_API_URL selectedTeam (JArr entries)
           (run_dir captured showDirectoryPicker) false) = Normal response →
  ApiClient.resp_ok response = false →
  ∃ w',
    PageHandlers.handleGenerate VITE_API_URL fetch selectedTeam entries captured
      showDirectoryPicker w = (Normal tt, w')
    ∧ FileGeneration.downloads w' = FileGeneration.downloads w
    ∧ FileGeneration.written w' = FileGeneration.written w
    ∧ FileGeneration.successMessage (FileGeneration.hook w') = None
    ∧ FileGeneration.loading (FileGeneration.hook w') = false
    ∧ (∀ o s, ApiClient.resp_json response = Normal (JObj o) →
              obj_get o "error" = JStr s → s ≠ ""%string →
              FileGeneration.error (FileGeneration.hook w') = Some s)
    ∧ (∀ x, ApiClient.resp_json response = Throw x →
            FileGeneration.error (FileGeneration.hook w')
            = Some "Failed to generate schedule"%string).
Proof.
  intros Hteam Hentries Hrun Hfetch Hok.
  assert (FileGeneration.valid (PageHandlers.dataValidator selectedTeam entries tt)
          = true) as Hvalid by by apply dataValidator_valid.
  pose proof (generateSchedule_not_ok _ _ _ _ _ _ _ Hfetch Hok) as Hcall.
  unfold PageHandlers.handleGenerate.
  destruct (ApiClient.resp_json response) as [v|x] eqn:Hjson.
  - destruct (get_named_prop v "error") as [m|e] eqn:Hprop; simpl in Hcall.
    + assert (∀ o s, Normal v = Normal (JObj o) → obj_get o "error" = JStr s →
                     s ≠ ""%string →
                     new_Error (js_or m (JStr "Failed to generate schedule"))
                     = Normal {| exn_name := "Error"; exn_message := s |}) as Hstring.
      { intros o s [= ->] Hs Hne. simpl in Hprop. injection Hprop as <-.
        rewrite Hs. unfold js_or. simpl.
        destruct (String.eqb s "") eqn:E; [by apply String.eqb_eq in E|done]. }
      destruct (new_Error (js_or m (JStr "Failed to generate schedule")))
        as [err|t] eqn:Herr; simpl in Hcall;
        rewrite (generateHandler_api_throw _ _ _ _ _ _ Hvalid Hrun Hcall);
        (eexists; split; [done|]; simpl; repeat split; [|done]);
        intros o s Hv Hs Hne; by specialize (Hstring o s Hv Hs Hne) as [= ->].
    + rewrite (generateHandler_api_throw _ _ _ _ _ _ Hvalid Hrun Hcall).
      eexists. split; [done|]. simpl. repeat split; [|done].
      intros o s [= ->]. done.
  - simpl in Hcall.
    rewrite (generateHandler_api_throw _ _ _ _ _ _ Hvalid Hrun Hcall).
    eexists. split; [done|]. simpl. by repeat split.
Qed.

Lemma schedule_page_shows_server_error_witness :
  ∃ w',
    PageHandlers.handleGenerate None (fun _ => Normal sample_error_response)
      "T9" (PageHandlers.rows_value sample_rows) FileGeneration.initial_hook
      (Normal sample_directory) sample_world = (Normal tt, w')
    ∧ FileGeneration.downloads w' = []
    ∧ FileGeneration.error (FileGeneration.hook w') = Some "Unknown team: T9"%string.
Proof.
  destruct (schedule_page_shows_server_error None
              (fun _ => Normal sample_error_response) "T9"
              (PageHandlers.rows_value sample_rows) FileGeneration.initial_hook
              (Normal sample_directory) sample_error_response sample_world
              ltac:(discriminate) ltac:(discriminate) eq_refl eq_refl eq_refl)
    as (w' & Hrun & Hdownloads & _ & _ & _ & Hserver & _).
  exists w'. split; [exact Hrun|]. split; [exact Hdownloads|].
  exact (Hserver _ "Unknown team: T9"%string eq_refl eq_refl ltac:(discriminate)).
Defined.

(** X17: a Generate click of the Schedule page consults the server with
    one request at most: the POST of the team, the entries, the directory
    of the run and save_to_system = false (also when a directory was typed
    or picked).  Two servers that answer this request alike give the same
    outcome, and the request's body reads back as these four members. *)
Theorem schedule_page_posts_one_request
    (VITE_API_URL : option string)
    (fetch fetch' : ApiClient.Request → completion ApiClient.Response)
    (selectedTeam : string) (entries : list jsval)
    (captured : FileGeneration.HookState)
    (showDirectoryPicker : completion FileGeneration.DirHandle)
    (w : FileGeneration.World) :
  let request :=
    ApiClient.schedule_request VITE_API_URL selectedTeam (JArr entries)
      (run_dir captured showDirectoryPicker) false in
  fetch' request = fetch request →
  PageHandlers.handleGenerate VITE_API_URL fetch' selectedTeam entries captured
    showDirectoryPicker w
  = PageHandlers.handleGenerate VITE_API_URL fetch selectedTeam entries captured
      showDirectoryPicker w
  ∧ (JSONText.expressible (JArr entries) = true →
     JSONText.read (ApiClient.req_body request)
     = Some (JObj [ ("team_name", JStr selectedTeam);
                    ("entries_json", JStr (JSON.serialize (JArr entries)));
                    ("output_dir", JStr (run_dir captured showDirectoryPicker));
                    ("save_to_system", JBool false) ]%string)).
Proof.
  intros request Hagree. split.
  - unfold PageHandlers.handleGenerate. apply generateHandler_api_ext.
    unfold ApiClient.generateSchedule. fold request. by rewrite Hagree.
  - intros Hex. unfold request, ApiClient.schedule_request, ApiClient.req_body.
    by apply read_serialize.
Qed.

Lemma schedule_page_posts_one_request_witness :
  PageHandlers.handleGenerate None (fun _ => Normal sample_ok_response)
    "T1" (PageHandlers.rows_value sample_rows) sample_typed_hook
    (Normal sample_directory) sample_world
  = PageHandlers.handleGenerate None
      (fun request =>
         if String.eqb (ApiClient.req_method request) "POST"
         then Normal sample_ok_response else Throw sample_network_failure)
      "T1" (PageHandlers.rows_value sample_rows) sample_typed_hook
      (Normal sample_directory) sample_world.
Proof.
  exact (proj1 (schedule_page_posts_one_request None
                  (fun request =>
                     if String.eqb (ApiClient.req_method request) "POST"
                     then Normal sample_ok_response else Throw sample_network_failure)
                  (fun _ => Normal sample_ok_response)
                  "T1" (PageHandlers.rows_value sample_rows) sample_typed_hook
                  (Normal sample_directory) sample_world eq_refl)).
Defined.

(** ** Editing a cell, then showing and sending it *)

Section EditedCell.

Import PageHandlers.

Lemma expressible_rows (rows : list (option object)) :
  JSONText.expressible (JArr (rows_value rows)) = true
  ↔ Forall (λ row, ∃ o, row = Some o ∧ JSONText.expressible (JObj o) = true) rows.
Proof.
  simpl. induction rows as [|row rows IH]; simpl.
  - split; [by constructor|done].
  - rewrite andb_true_iff, IH. split.
    + intros [Hrow Hrows]. constructor; [|done].
      destruct row as [o|]; [by exists o|done].
    + intros H. inversion H as [|? ? (o & -> & Ho) Hrows]; subst. by split.
Qed.

Lemma expressible_obj_set (o : object) (field : string) (v : jsval) :
  JSONText.expressible (JObj o) = true → JSONText.expressible v = true →
  JSONText.expressible (JObj (obj_set o field v)) = true.
Proof.
  simpl. intros Ho Hv. induction o as [|[k x] o IH]; simpl.
  - by rewrite Hv.
  - simpl in Ho. apply andb_true_iff in Ho as [Hx Ho].
    destruct (String.eqb k field); simpl.
    + by rewrite Hv, Ho.
    + by rewrite Hx, IH.
Qed.

(** An edit in range, as an update of the list at that place. *)
Lemma handleCellChange_in_range (rows : list (option object))
    (i : nat) (field : string) (v : jsval) (o : object) :
  rows !! i = Some (Some o) →
  SchedulePage.handleCellChange i field v rows
  = <[i := Some (obj_set o field v)]> rows.
Proof.
  intros Hrow. unfold SchedulePage.handleCellChange, arr_set, arr_get.
  rewrite Hrow. simpl.
  destruct (decide (i < length rows)) as [|Hout]; [done|].
  apply lookup_lt_Some in Hrow. lia.
Qed.

End EditedCell.

(** X18: an edit is what gets sent.  After a cell of a table without
    holes and without undefined fields has lost focus, the Generate
    request for the edited table reads back as that table: the edited row
    holds the trimmed text under the edited field, the row count is the
    same, every other row is as it was, and entries_json is the JSON text
    of exactly these rows. *)
Theorem edited_cell_is_sent
    (VITE_API_URL : option string) (teamName outputDir : string)
    (rows : list (option object)) (idx : nat) (field innerText : string) :
  JSONText.expressible (JArr (PageHandlers.rows_value rows)) = true →
  idx < length rows →
  let rows' := PageHandlers.schedule_cell_onBlur idx field innerText rows in
  let request :=
    ApiClient.schedule_request VITE_API_URL teamName
      (JArr (PageHandlers.rows_value rows')) outputDir false in
  (∃ row, rows' !! idx = Some (Some row)
          ∧ obj_get row field = JStr (trim innerText))
  ∧ length rows' = length rows
  ∧ (∀ j, j ≠ idx → rows' !! j = rows !! j)
  ∧ JSONText.read (ApiClient.req_body request)
    = Some (JObj [ ("team_name", JStr teamName);
                   ("entries_json",
                    JStr (JSON.serialize (JArr (PageHandlers.rows_value rows'))));
                   ("output_dir", JStr outputDir);
                   ("save_to_system", JBool false) ]%string)
  ∧ JSONText.read (JSON.serialize (JArr (PageHandlers.rows_value rows')))
    = Some (JArr (PageHandlers.rows_value rows')).
Proof.
  intros Hex Hidx rows' request.
  pose proof (proj1 (expressible_rows rows) Hex) as Hrows.
  destruct (lookup_lt_is_Some_2 rows idx Hidx) as [row Hrow].
  destruct (proj1 (Forall_lookup _ _) Hrows idx row Hrow) as (o & -> & Ho).
  assert (rows' = <[idx := Some (obj_set o field (JStr (trim innerText)))]> rows)
    as Hrows' by by apply handleCellChange_in_range.
  assert (JSONText.expressible (JArr (PageHandlers.rows_value rows')) = true) as Hex'.
  { apply expressible_rows. rewrite Hrows'. apply Forall_insert; [done|].
    eexists. split; [done|]. by apply expressible_obj_set. }
  split; [|split; [|split; [|split]]].
  - rewrite Hrows'. eexists. split; [by apply list_lookup_insert_eq|].
    apply obj_get_set_eq.
  - rewrite Hrows'. by rewrite length_insert.
  - intros j Hj. rewrite Hrows'. by apply list_lookup_insert_ne.
  - unfold request, ApiClient.schedule_request, ApiClient.req_body.
    by apply read_serialize.
  - by apply read_serialize.
Qed.

Lemma edited_cell_is_sent_witness :
  JSONText.read
    (JSON.serialize
       (JArr (PageHandlers.rows_value
                (PageHandlers.schedule_cell_onBlur 1 "due_date" " 11/30/25 "
                   sample_rows))))
  = Some (JArr (PageHandlers.rows_value
                  (PageHandlers.schedule_cell_onBlur 1 "due_date" " 11/30/25 "
                     sample_rows))).
Proof.
  exact (proj2 (proj2 (proj2 (proj2
           (edited_cell_is_sent None "T1" "" sample_rows 1 "due_date" " 11/30/25 "
              eq_refl ltac:(vm_compute; lia))))))%string.
Defined.

(** X19: an edited cell shows what was stored.  Whatever the row held
    before (also past the end of the table), after the cell has lost focus
    the row exists and its cell renders the trimmed text; a text of white
    space only stores the empty string, so the cell is blank again ("-"
    for due_date); and the cell carries the class "lc-y" exactly when it
    is the lane_closed cell and the trimmed text is "Y".  The same on both
    pages. *)
Theorem edited_cell_shows_trimmed_text
    (idx : nat) (field innerText : string) (prev : list (option object)) :
  let shown :=
    if blank innerText then (if String.eqb field "due_date" then "-" else "")%string
    else trim innerText in
  let class :=
    (if String.eqb field "lane_closed" && String.eqb (trim innerText) "Y"
     then "lc-y" else "")%string in
  (∃ row,
     arr_get (PageHandlers.schedule_cell_onBlur idx field innerText prev) idx
     = Some row
     ∧ obj_get row field = JStr (trim innerText)
     ∧ SchedulePage.cell_text row field = Some shown
     ∧ SchedulePage.cell_className row field = class)
  ∧ (∃ row,
       arr_get (PageHandlers.daily_cell_onBlur idx field innerText prev) idx
       = Some row
       ∧ obj_get row field = JStr (trim innerText)
       ∧ DailyLogsPage.cell_text row field = Some shown
       ∧ DailyLogsPage.cell_className row field = class).
Proof.
  intros shown class.
  assert (∀ row, obj_get row field = JStr (trim innerText) →
                 react_text (js_or (obj_get row field)
                               (if String.eqb field "due_date"
                                then JStr "-" else JStr "")) = Some shown
                 ∧ (if String.eqb field "lane_closed"
                       && strict_eq_str (obj_get row field) "Y"
                    then "lc-y" else "")%string = class) as Hcell.
  { intros row ->. unfold js_or, shown, class. simpl.
    rewrite trim_eqb_blank. split; [|done].
    destruct (blank innerText); [|done]. by destruct (String.eqb field "due_date"). }
  split.
  - eexists. split; [apply arr_get_set_eq|].
    split; [apply obj_get_set_eq|]. apply Hcell, obj_get_set_eq.
  - eexists. split; [apply arr_get_set_eq|].
    split; [apply obj_get_set_eq|]. apply Hcell, obj_get_set_eq.
Qed.

(** ** The daily log preview *)

Section DayButtons.

Import DailyLogsPage.

Variable Date_getDay : jsval → day_index.

Local Abbreviation entriesByDay := (entriesByDay Date_getDay).
Local Abbreviation daysWithEntries := (daysWithEntries Date_getDay).
Local Abbreviation bucket := (bucket Date_getDay).
Local Abbreviation of_day := (entries_of_day Date_getDay).

Lemma bucket_filter (entries : list object) (d : day_index) :
  bucket entries d = of_day d entries.
Proof.
  unfold DailyLogsPage.bucket. rewrite entriesByDay_lookup.
  unfold entries_of_day, entry_day. by destruct (filter _ entries).
Qed.

Lemma days_permutation (entries : list object) :
  daysWithEntries entries ≡ₚ (map_to_list (entriesByDay entries)).*1.
Proof. apply merge_sort_Permutation. Qed.

Lemma days_NoDup (entries : list object) : NoDup (daysWithEntries entries).
Proof. rewrite days_permutation. apply NoDup_fst_map_to_list. Qed.

(** The listed days are the days that have an entry. *)
Lemma days_elem (entries : list object) (d : day_index) :
  d ∈ daysWithEntries entries ↔ of_day d entries ≠ [].
Proof.
  rewrite days_permutation, list_elem_of_fmap. split.
  - intros ([k b] & -> & Hin). apply elem_of_map_to_list in Hin. simpl.
    rewrite entriesByDay_lookup in Hin. unfold entries_of_day.
    unfold entry_day in Hin. by destruct (filter _ entries).
  - intros Hne. exists (d, of_day d entries). split; [done|].
    apply elem_of_map_to_list. rewrite entriesByDay_lookup.
    unfold entries_of_day in *. unfold entry_day.
    by destruct (filter _ entries).
Qed.

Lemma days_nil (entries : list object) : daysWithEntries entries = [] ↔ entries = [].
Proof.
  split.
  - intros Hdays. destruct entries as [|e entries]; [done|].
    assert (Date_getDay (obj_get e "scheduled_date") ∈ daysWithEntries (e :: entries))
      as Hin.
    { apply days_elem. unfold entries_of_day.
      by rewrite filter_cons_True. }
    rewrite Hdays in Hin. by apply elem_of_nil in Hin.
  - by intros ->.
Qed.

(** The buckets cover the input. *)
Lemma bucket_union_permutation (entries : list object) :
  bucket_union Date_getDay entries ≡ₚ entries.
Proof.
  unfold bucket_union.
  induction entries as [|e entries IH] using rev_ind; [done|].
  unfold DailyLogsPage.entriesByDay in *. rewrite foldl_snoc.
  by rewrite group_step_union, IH.
Qed.

Lemma bucket_lengths (m : gmap day_index (list object)) :
  sum_list ((λ d, length (default [] (m !! d))) <$> (map_to_list m).*1)
  = length (mjoin (snd <$> map_to_list m)).
Proof.
  induction m as [|k b m Hk Hfirst IH] using map_first_key_ind; [done|].
  rewrite map_to_list_insert_first_key by done. csimpl.
  rewrite lookup_insert_eq, length_app. simpl. f_equal.
  rewrite <-IH. f_equal. apply list_fmap_ext.
  intros i k' Hin. simpl.
  apply list_elem_of_lookup_2, list_elem_of_fmap in Hin as ([k'' b'] & -> & Hin).
  apply elem_of_map_to_list in Hin. simpl.
  rewrite lookup_insert_ne; [done|]. intros <-. congruence.
Qed.

(** The numbers on the buttons add up to the number of entries. *)
Lemma button_counts (entries : list object) :
  sum_list ((λ d, length (bucket entries d)) <$> daysWithEntries entries)
  = length entries.
Proof.
  rewrite days_permutation. unfold DailyLogsPage.bucket.
  rewrite bucket_lengths.
  apply Permutation_length, bucket_union_permutation.
Qed.

End DayButtons.

Section WeekOrder.

Import DailyLogsPage.

Lemma key_le_total : Total key_le.
Proof.
  intros a b. unfold key_le.
  destruct (String.leb_total (day_key a) (day_key b)) as [H|H]; rewrite H; auto.
Qed.

(** On the days of a week the order of the keys is the order of the
    week, with [NaN] after Saturday. *)
Lemma key_le_week (a b : day_index) :
  on_week a → on_week b → key_le a b → (week_rank a ≤ week_rank b)%nat.
Proof.
  unfold key_le.
  destruct a as [n|], b as [m|]; simpl; intros Ha Hb Hle; [| lia | | lia].
  - do 7 (destruct n as [|n]; [do 7 (destruct m as [|m]; [by (lia || done)|]); lia|]).
    lia.
  - do 7 (destruct m as [|m]; [done|]). lia.
Qed.

Lemma week_rank_inj (a b : day_index) :
  on_week a → on_week b → week_rank a = week_rank b → a = b.
Proof.
  destruct a as [n|], b as [m|]; simpl; intros Ha Hb Heq; try lia; by subst.
Qed.

Lemma Sorted_between {A} (R R' : relation A) (P : A → Prop) (l : list A) :
  (∀ a b, P a → P b → R a b → R' a b) → Forall P l → Sorted R l → Sorted R' l.
Proof.
  intros Himpl Hall Hsorted. induction Hsorted as [|a l Hl IH Hhd]; [constructor|].
  inversion Hall as [|? ? Ha Hrest]; subst. constructor; [by apply IH|].
  destruct Hhd as [|b l Hab]; constructor.
  inversion Hrest; subst. by apply Himpl.
Qed.

Lemma StronglySorted_strict {A} (R R' : relation A) (P : A → Prop) (l : list A) :
  (∀ a b, P a → P b → R a b → a ≠ b → R' a b) →
  Forall P l → NoDup l → StronglySorted R l → StronglySorted R' l.
Proof.
  intros Himpl Hall Hnodup Hsorted.
  induction Hsorted as [|a l Hl IH Hhd]; [constructor|].
  inversion Hall as [|? ? Ha Hrest]; subst.
  inversion Hnodup as [|? ? Hnotin Hnodup']; subst.
  constructor; [by apply IH|].
  apply Forall_forall. intros b Hb.
  apply Himpl; [done| |by eapply Forall_forall in Hhd|].
  - by eapply Forall_forall in Hrest.
  - intros ->. done.
Qed.

End WeekOrder.

Section PreviewRender.

Import DailyLogsPage.

Variable Date_getDay : jsval → day_index.

Local Abbreviation days := (daysWithEntries Date_getDay).
Local Abbreviation render := (DailyLogPreview Date_getDay).
Local Abbreviation of_day := (entries_of_day Date_getDay).

(** What a render that shows something is made of. *)
Lemma render_Some (activeDay : option day_index) (entries : list object)
    (view : Preview) :
  render activeDay entries = Some view →
  entries ≠ []
  ∧ activated view = match activeDay with
                     | None => head (days entries)
                     | Some _ => None
                     end
  ∧ tabs view = tab_of Date_getDay entries activeDay <$> days entries
  ∧ table view = day_table match activeDay with
                           | Some d => of_day d entries
                           | None => []
                           end.
Proof.
  unfold DailyLogPreview.
  destruct (length (days entries) =? 0)%nat eqn:Hlen; [done|].
  intros [= <-]. simpl. split; [|split; [done|split; [done|]]].
  - intros ->. by rewrite (proj2 (days_nil Date_getDay [])) in Hlen.
  - destruct activeDay as [d|]; [|done]. by rewrite bucket_filter.
Qed.

Lemma render_entries (activeDay : option day_index) (entries : list object) :
  entries ≠ [] → ∃ view, render activeDay entries = Some view.
Proof.
  intros Hne. unfold DailyLogPreview.
  destruct (length (days entries) =? 0)%nat eqn:Hlen; [|by eexists].
  apply Nat.eqb_eq, length_zero_iff_nil, days_nil in Hlen. done.
Qed.

Lemma tabs_days (entries : list object) (activeDay : option day_index) :
  tab_day <$> (tab_of Date_getDay entries activeDay <$> days entries) = days entries.
Proof. rewrite <-list_fmap_compose. apply list_fmap_id. Qed.

End PreviewRender.

(** X20: the daily log preview shows nothing exactly when there are no
    entries, whichever day is active. *)
Theorem preview_hidden_iff_no_entries
    (Date_getDay : jsval → DailyLogsPage.day_index)
    (activeDay : option DailyLogsPage.day_index) (entries : list object) :
  DailyLogsPage.DailyLogPreview Date_getDay activeDay entries = None
  ↔ entries = [].
Proof.
  split.
  - intros Hnone. destruct entries as [|e entries]; [done|].
    destruct (render_entries Date_getDay activeDay (e :: entries)) as [view Hview];
      [done|congruence].
  - intros ->. done.
Qed.

(** X21: the day buttons account for every entry.  There is one button
    for each day that has an entry and none for any other day; the number
    on a button is the number of entries of its day and is never 0; the
    label is the day's name (nothing for an invalid date) followed by the
    number in brackets; and the numbers add up to the number of
    entries. *)
Theorem day_buttons_cover_entries
    (Date_getDay : jsval → DailyLogsPage.day_index)
    (activeDay : option DailyLogsPage.day_index) (entries : list object)
    (view : DailyLogsPage.Preview) :
  DailyLogsPage.DailyLogPreview Date_getDay activeDay entries = Some view →
  NoDup (DailyLogsPage.tab_day <$> DailyLogsPage.tabs view)
  ∧ (∀ d, d ∈ DailyLogsPage.tab_day <$> DailyLogsPage.tabs view
          ↔ entries_of_day Date_getDay d entries ≠ [])
  ∧ (∀ t, t ∈ DailyLogsPage.tabs view →
          DailyLogsPage.tab_count t
          = length (entries_of_day Date_getDay (DailyLogsPage.tab_day t) entries)
          ∧ 0 < DailyLogsPage.tab_count t
          ∧ DailyLogsPage.tab_text t
            = (DailyLogsPage.day_name (DailyLogsPage.tab_day t) ++ " ("
               ++ pretty (DailyLogsPage.tab_count t) ++ ")")%string)
  ∧ sum_list (DailyLogsPage.tab_count <$> DailyLogsPage.tabs view) = length entries.
Proof.
  intros Hview. apply render_Some in Hview as (_ & _ & Htabs & _).
  rewrite Htabs, tabs_days. split; [apply days_NoDup|].
  split; [intros d; apply days_elem|]. split.
  - intros t Hin. apply list_elem_of_fmap in Hin as (d & -> & Hd). simpl.
    rewrite bucket_filter. split; [done|]. split; [|done].
    apply days_elem in Hd. destruct (entries_of_day _ d entries); [done|simpl; lia].
  - rewrite <-list_fmap_compose. apply button_counts.
Qed.

Lemma day_buttons_witness :
  sum_list (DailyLogsPage.tab_count
              <$> (DailyLogsPage.tab_of sample_getDay sample_log_entries None
                     <$> DailyLogsPage.daysWithEntries sample_getDay sample_log_entries))
  = 4.
Proof.
  exact (proj2 (proj2 (proj2
           (day_buttons_cover_entries sample_getDay None sample_log_entries _
              eq_refl)))).
Defined.

(** X22: when every scheduled date falls on a day of the week or is
    invalid (what getDay can answer), the buttons stand in the order of the
    week, Sunday first, each day once, with the button of the invalid
    dates last: the sort, which compares the day numbers as strings, does
    no harm on one-digit numbers. *)
Theorem day_buttons_in_week_order
    (Date_getDay : jsval → DailyLogsPage.day_index)
    (activeDay : option DailyLogsPage.day_index) (entries : list object)
    (view : DailyLogsPage.Preview) :
  (∀ e, e ∈ entries → on_week (Date_getDay (obj_get e "scheduled_date"))) →
  DailyLogsPage.DailyLogPreview Date_getDay activeDay entries = Some view →
  StronglySorted (λ a b, week_rank a < week_rank b)
    (DailyLogsPage.tab_day <$> DailyLogsPage.tabs view).
Proof.
  intros Hweek Hview. apply render_Some in Hview as (_ & _ & Htabs & _).
  rewrite Htabs, tabs_days.
  assert (Forall on_week (DailyLogsPage.daysWithEntries Date_getDay entries)) as Hall.
  { apply Forall_forall. intros d Hd. apply days_elem in Hd.
    unfold entries_of_day in Hd.
    destruct (filter _ entries) as [|e rest] eqn:Hfilter; [done|].
    assert (e ∈ filter (λ e, Date_getDay (obj_get e "scheduled_date") = d) entries)
      as Hin by (rewrite Hfilter; left).
    apply list_elem_of_filter in Hin as [<- Hin]. by apply Hweek. }
  apply (StronglySorted_strict (λ a b, (week_rank a ≤ week_rank b)%nat) _ on_week).
  - intros a b Ha Hb Hle Hne.
    destruct (decide (week_rank a = week_rank b)) as [Heq|]; [|lia].
    by apply week_rank_inj in Heq.
  - done.
  - apply days_NoDup.
  - apply Sorted_StronglySorted; [intros a b c; lia|].
    apply (Sorted_between key_le _ on_week); [apply key_le_week|done|].
    apply (@Sorted_merge_sort _ _ _ key_le_total).
Qed.

Lemma day_buttons_in_week_order_witness :
  StronglySorted (λ a b, week_rank a < week_rank b)
    [DailyLogsPage.DayNum 0; DailyLogsPage.DayNum 2; DailyLogsPage.DayNaN].
Proof.
  exact (day_buttons_in_week_order sample_getDay None sample_log_entries _
           ltac:(intros e He; repeat (apply elem_of_cons in He as [->|He]);
                 [vm_compute; lia ..|by apply elem_of_nil in He])
           eq_refl).
Defined.

(** X23: with a day active, the table under the buttons shows the first
    seven entries of that day in the order of the input, six cells a row,
    under the scheduled date of the day's first entry; from the eighth
    entry on the note gives the number of entries left out.  A day without
    entries (a stale choice after a new preview) shows no table at all. *)
Theorem day_table_shows_first_seven
    (Date_getDay : jsval → DailyLogsPage.day_index)
    (d : DailyLogsPage.day_index) (entries : list object)
    (view : DailyLogsPage.Preview) :
  DailyLogsPage.DailyLogPreview Date_getDay (Some d) entries = Some view →
  let day_entries := entries_of_day Date_getDay d entries in
  match DailyLogsPage.table view with
  | None => day_entries = []
  | Some t =>
      day_entries ≠ []
      ∧ DailyLogsPage.table_rows t = DailyLogsPage.log_row <$> take 7 day_entries
      ∧ length (DailyLogsPage.table_rows t) = min 7 (length day_entries)
      ∧ Forall (λ row, length row = 6) (DailyLogsPage.table_rows t)
      ∧ DailyLogsPage.table_date t
        = js_or (match head day_entries with
                 | Some entry => obj_get entry "scheduled_date"
                 | None => JUndefined
                 end) (JStr "")
      ∧ ((length day_entries ≤ 7)%nat → DailyLogsPage.table_note t = None)
      ∧ (7 < length day_entries →
         DailyLogsPage.table_note t
         = Some ("Note: Daily log sheet can hold max 7 entries. "
                 ++ pretty (length day_entries - 7)
                 ++ " entries will not be displayed.")%string)
  end.
Proof.
  intros Hview day_entries.
  apply render_Some in Hview as (_ & _ & _ & ->). fold day_entries.
  unfold DailyLogsPage.day_table.
  destruct (0 <? length day_entries)%nat eqn:Hlen.
  - apply Nat.ltb_lt in Hlen. split; [by destruct day_entries; [simpl in Hlen; lia|]|].
    simpl. split; [done|]. split; [by rewrite length_fmap, length_take|].
    split; [|split; [done|split]].
    + apply Forall_fmap, Forall_forall. by intros e _.
    + intros Hle. by rewrite (proj2 (Nat.ltb_ge _ _) Hle).
    + intros Hlt. by rewrite (proj2 (Nat.ltb_lt _ _) Hlt).
  - apply Nat.ltb_ge in Hlen. destruct day_entries; [done|simpl in Hlen; lia].
Qed.

Lemma day_table_witness :
  match DailyLogsPage.day_table (entries_of_day sample_getDay (DailyLogsPage.DayNum 2)
                                   sample_log_entries) with
  | None => False
  | Some t => length (DailyLogsPage.table_rows t) = 2
  end.
Proof.
  exact (proj1 (proj2 (proj2
           (day_table_shows_first_seven sample_getDay (DailyLogsPage.DayNum 2)
              sample_log_entries _ eq_refl)))).
Defined.

(** X24: the first render picks the first button.  With entries present
    and no day chosen yet, the component shows the buttons (none of them
    active) and no table, and sets the active day to the day of the first
    button; the render with that day shows a table with at least one row,
    makes no further state call, and marks as active exactly the button of
    that day (no button when the day is the one of the invalid dates, since
    NaN equals nothing). *)
Theorem first_render_selects_first_day
    (Date_getDay : jsval → DailyLogsPage.day_index) (entries : list object) :
  entries ≠ [] →
  ∃ view d,
    DailyLogsPage.DailyLogPreview Date_getDay None entries = Some view
    ∧ DailyLogsPage.activated view = Some d
    ∧ head (DailyLogsPage.tab_day <$> DailyLogsPage.tabs view) = Some d
    ∧ DailyLogsPage.table view = None
    ∧ Forall (λ b, DailyLogsPage.tab_active b = false) (DailyLogsPage.tabs view)
    ∧ DailyLogsPage.next_activeDay Date_getDay None entries = Some d
    ∧ ∃ view' t,
        DailyLogsPage.DailyLogPreview Date_getDay (Some d) entries = Some view'
        ∧ DailyLogsPage.activated view' = None
        ∧ DailyLogsPage.table view' = Some t
        ∧ DailyLogsPage.table_rows t ≠ []
        ∧ (∀ b, b ∈ DailyLogsPage.tabs view' →
                DailyLogsPage.tab_active b = true
                ↔ DailyLogsPage.tab_day b = d ∧ d ≠ DailyLogsPage.DayNaN).
Proof.
  intros Hne.
  destruct (render_entries Date_getDay None entries Hne) as [view Hview].
  pose proof (render_Some _ _ _ _ Hview) as (_ & Hact & Htabs & Htable).
  destruct (DailyLogsPage.daysWithEntries Date_getDay entries) as [|d rest] eqn:Hdays.
  { by apply days_nil in Hdays. }
  assert (entries_of_day Date_getDay d entries ≠ []) as Hday.
  { apply days_elem. rewrite Hdays. left. }
  exists view, d. split; [done|]. split; [done|].
  split; [by rewrite Htabs|]. split; [done|]. split.
  { rewrite Htabs. apply Forall_fmap, Forall_forall. intros b _. simpl.
    by destruct b. }
  split.
  { unfold DailyLogsPage.next_activeDay. by rewrite Hview, Hact. }
  destruct (render_entries Date_getDay (Some d) entries Hne) as [view' Hview'].
  pose proof (render_Some _ _ _ _ Hview') as (_ & Hact' & Htabs' & Htable').
  unfold DailyLogsPage.day_table in Htable'.
  destruct (entries_of_day Date_getDay d entries) as [|e es] eqn:Hes; [done|].
  simpl in Htable'. eexists view', _. split; [done|]. split; [done|].
  split; [exact Htable'|]. split; [done|].
  intros b Hb. rewrite Htabs' in Hb.
  apply list_elem_of_fmap in Hb as (d' & -> & _). simpl.
  destruct d' as [n|], d as [m|]; simpl.
  - rewrite Nat.eqb_eq. split; [by intros ->|]. by intros [[= ->] _].
  - split; [done|]. by intros [_ ?].
  - split; [done|]. by intros [? _].
  - split; [done|]. by intros [_ ?].
Qed.

Lemma first_render_witness :
  ∃ view d,
    DailyLogsPage.DailyLogPreview sample_getDay None sample_log_entries = Some view
    ∧ DailyLogsPage.activated view = Some d
    ∧ DailyLogsPage.next_activeDay sample_getDay None sample_log_entries = Some d.
Proof.
  destruct (first_render_selects_first_day sample_getDay sample_log_entries
              ltac:(discriminate))
    as (view & d & Hview & Hact & _ & _ & _ & Hnext & _).
  exists view, d. split; [exact Hview|]. split; [exact Hact|exact Hnext].
Defined.

(** ** The teams provider *)

(** X25: what the pages get from the teams provider once its mount effect
    has run.  One GET of <base>/teams/ decides it: the parsed body becomes
    the teams (no error) when the response is ok and its body is JSON; in
    every other case the teams stay the empty list and the error is the
    failure's message, which is "Failed to fetch teams" for every response
    that is not ok, whatever its body.  So an error never comes with
    teams. *)
Theorem teams_provider_outcomes
    (VITE_API_URL : option string)
    (fetch : ApiClient.Request → completion ApiClient.Response) :
  let request := ApiClient.teams_request VITE_API_URL in
  let provided := TeamContext.TeamsProvider VITE_API_URL fetch in
  ApiClient.req_url request = (ApiClient.API_BASE_URL VITE_API_URL ++ "/teams/")%string
  ∧ (∀ fetch', fetch' request = fetch request →
       TeamContext.TeamsProvider VITE_API_URL fetch' = provided)
  ∧ (∀ response data,
       fetch request = Normal response → ApiClient.resp_ok response = true →
       ApiClient.resp_json response = Normal data →
       provided = {| TeamContext.teams := data; TeamContext.error := None |})
  ∧ (∀ response,
       fetch request = Normal response → ApiClient.resp_ok response = false →
       provided = {| TeamContext.teams := JArr [];
                     TeamContext.error := Some "Failed to fetch teams"%string |})
  ∧ (∀ response e,
       fetch request = Normal response → ApiClient.resp_ok response = true →
       ApiClient.resp_json response = Throw e →
       provided = {| TeamContext.teams := JArr [];
                     TeamContext.error := Some (exn_message e) |})
  ∧ (∀ e, fetch request = Throw e →
          provided = {| TeamContext.teams := JArr [];
                        TeamContext.error := Some (exn_message e) |})
  ∧ (is_Some (TeamContext.error provided) → TeamContext.teams provided = JArr []).
Proof.
  cbv zeta. unfold TeamContext.TeamsProvider, TeamContext.mount, ApiClient.fetchTeams.
  split; [done|]. split; [by intros fetch' ->|].
  destruct (fetch (ApiClient.teams_request VITE_API_URL)) as [response|e]; simpl.
  - destruct (ApiClient.resp_ok response) eqn:Hok; simpl.
    + destruct (ApiClient.resp_json response) as [data|e] eqn:Hjson.
      * repeat split; try done; try congruence. by intros [].
      * repeat split; try done; congruence.
    + repeat split; try done; congruence.
  - repeat split; try done; congruence.
Qed.

(** ** The page that keeps its own state *)

(** X26: on the page that asks for the directory in a dialog, a Generate
    click with a team and entries, an answered dialog and an ok response
    always hands the file to the browser as one download, also when a
    directory was entered; the trimmed answer is what the request carries
    and what the output field holds afterwards, the error is cleared and
    loading ends off. *)
Theorem standalone_generate_always_downloads
    (VITE_API_URL : option string)
    (fetch : ApiClient.Request → completion ApiClient.Response)
    (selectedTeam : string) (entries : list jsval) (dir : string)
    (response : ApiClient.Response) (w : FileGeneration.World) :
  selectedTeam ≠ ""%string → entries ≠ [] →
  fetch (ApiClient.schedule_request VITE_API_URL selectedTeam (JArr entries)
           (trim dir) false) = Normal response →
  ApiClient.resp_ok response = true →
  ∃ name,
    StandaloneSchedulePage.handleGenerate VITE_API_URL fetch selectedTeam entries
      (Some dir) w
    = (Normal tt,
       {| FileGeneration.hook :=
            {| FileGeneration.error := None;
               FileGeneration.successMessage :=
                 FileGeneration.successMessage (FileGeneration.hook w);
               FileGeneration.loading := false;
               FileGeneration.outputDir := trim dir;
               FileGeneration.useDefaultDownload :=
                 FileGeneration.useDefaultDownload (FileGeneration.hook w) |};
          FileGeneration.downloads :=
            FileGeneration.downloads w ++ [(ApiClient.resp_blob response, name)];
          FileGeneration.written := FileGeneration.written w |}).
Proof.
  intros Hteam Hentries Hfetch Hok.
  unfold StandaloneSchedulePage.handleGenerate.
  apply String.eqb_neq in Hteam. rewrite Hteam.
  destruct entries as [|e es]; [done|]. simpl.
  unfold mbind, FileGeneration.Eff_bind, FileGeneration.try_finally,
    FileGeneration.try_catch, FileGeneration.lift. simpl.
  rewrite (generateSchedule_ok _ _ _ _ _ _ _ Hfetch Hok). by eexists.
Qed.

Lemma standalone_generate_witness :
  ∃ name,
    StandaloneSchedulePage.handleGenerate None (fun _ => Normal sample_ok_response)
      "T1" (PageHandlers.rows_value sample_rows) (Some " /srv/schedules ")
      sample_world
    = (Normal tt,
       {| FileGeneration.hook :=
            {| FileGeneration.error := None;
               FileGeneration.successMessage := None;
               FileGeneration.loading := false;
               FileGeneration.outputDir := "/srv/schedules";
               FileGeneration.useDefaultDownload := false |};
          FileGeneration.downloads := [("PK"%string, name)];
          FileGeneration.written := [] |}).
Proof.
  exact (standalone_generate_always_downloads None
           (fun _ => Normal sample_ok_response) "T1"
           (PageHandlers.rows_value sample_rows) " /srv/schedules "
           sample_ok_response sample_world
           ltac:(discriminate) ltac:(discriminate) eq_refl eq_refl).
Defined.

(** X27: on the same page a Generate click without a team, without
    entries, or with the dialog cancelled does nothing at all: no state
    changes, no message appears and the server is not consulted. *)
Theorem standalone_generate_silent
    (VITE_API_URL : option string)
    (fetch : ApiClient.Request → completion ApiClient.Response)
    (selectedTeam : string) (entries : list jsval) (prompt : option string)
    (w : FileGeneration.World) :
  selectedTeam = ""%string ∨ entries = [] ∨ prompt = None →
  StandaloneSchedulePage.handleGenerate VITE_API_URL fetch selectedTeam entries
    prompt w
  = (Normal tt, w).
Proof.
  unfold StandaloneSchedulePage.handleGenerate.
  intros [-> | [-> | ->]]; [done| |].
  - by rewrite orb_true_r.
  - by destruct (String.eqb selectedTeam "" || (length entries =? 0)%nat).
Qed.

Lemma standalone_generate_silent_witness :
  StandaloneSchedulePage.handleGenerate None (fun _ => Normal sample_ok_response)
    "T1" (PageHandlers.rows_value sample_rows) None sample_world
  = (Normal tt, sample_world).
Proof.
  exact (standalone_generate_silent None (fun _ => Normal sample_ok_response)
           "T1" (PageHandlers.rows_value sample_rows) None sample_world
           (or_intror (or_intror eq_refl))).
Defined.

(** X28: the Preview click of the page that keeps its own state and the
    Preview click of the hook-based pages differ on blank text only: on a
    text of white space the former does nothing at all, where the latter
    sets the error "Data is empty, cannot generate preview"; on every other
    text the two do the same. *)
Theorem standalone_preview_agrees
    (VITE_API_URL : option string)
    (fetch : ApiClient.Request → completion ApiClient.Response)
    (rawTsv : string) (p : PageHandlers.Page) :
  (blank rawTsv = true →
   StandaloneSchedulePage.handlePreview VITE_API_URL fetch rawTsv p = (Normal tt, p)
   ∧ FileGeneration.error
       (FileGeneration.hook
          (PageHandlers.world
             (PageHandlers.handlePreview VITE_API_URL fetch rawTsv p).2))
     = Some "Data is empty, cannot generate preview"%string)
  ∧ (blank rawTsv = false →
     StandaloneSchedulePage.handlePreview VITE_API_URL fetch rawTsv p
     = PageHandlers.handlePreview VITE_API_URL fetch rawTsv p).
Proof.
  unfold StandaloneSchedulePage.handlePreview, PageHandlers.handlePreview.
  rewrite trim_eqb_blank. by split; intros ->.
Qed.

(** ** The message of a refused Generate call *)

Section ErrorMessage.

(** The only failure of ToString on a parsed value is the conversion of
    an object that hides its [toString]. *)
Lemma to_string_throw (v : jsval) (e : exn) :
  to_string v = Throw e → e = TypeError_convert.
Proof.
  revert e.
  induction v as [| |b|n|s|xs IH|ps IH] using jsval_nested_ind; intros e.
  - done.
  - done.
  - by destruct b.
  - done.
  - done.
  - simpl.
    match goal with
    | |- cbind (?each xs) _ = _ → _ =>
        assert (∀ r, each xs = Throw r → r = TypeError_convert) as Heach
    end.
    { induction IH as [|x xs Hx _ IHxs]; intros r; [done|]. simpl.
      match goal with
      | |- cbind ?c _ = _ → _ => destruct c as [part|t] eqn:Hpart
      end; simpl.
      - match goal with
        | |- cbind ?c _ = _ → _ => destruct c as [parts|t] eqn:Hparts
        end; simpl; [done|]. intros [= <-]. by apply IHxs.
      - intros [= <-]. destruct x; try done; by apply Hx. }
    match goal with
    | |- cbind ?c _ = _ → _ => destruct c as [parts|t] eqn:Hparts
    end; simpl; [done|]. intros [= <-]. by apply Heach.
  - simpl. destruct (obj_has ps "toString"); [|done]. by intros [= <-].
Qed.

Lemma new_Error_string (s : string) :
  new_Error (JStr s) = Normal {| exn_name := "Error"; exn_message := s |}.
Proof. done. Qed.

(** What [new Error(m)] comes to for a value that is not [undefined]. *)
Lemma new_Error_outcome (m : jsval) :
  m ≠ JUndefined →
  (∃ msg, to_string m = Normal msg
          ∧ new_Error m = Normal {| exn_name := "Error"; exn_message := msg |})
  ∨ (to_string m = Throw TypeError_convert
     ∧ new_Error m = Throw TypeError_convert).
Proof.
  intros Hm.
  assert (new_Error m
          = cbind (to_string m)
              (λ message, Normal {| exn_name := "Error"; exn_message := message |}))
    as -> by by destruct m.
  destruct (to_string m) as [msg|t] eqn:Hstring.
  - left. by exists msg.
  - apply to_string_throw in Hstring as ->. by right.
Qed.

End ErrorMessage.

(** X29: what the Generate call throws to a response that is not ok: never
    a document.  The thrown value is an Error with the server's [error]
    string as message when the JSON body carries a non-empty one, and with
    "Failed to generate schedule" when the body is not JSON or its [error]
    is missing or falsy.  An [error] that is an object with a property named
    [toString] cannot be turned into a message: the call throws the
    TypeError of the conversion.  The last part lists all outcomes: the
    fixed message; an Error whose message is the text of a truthy [error]
    (its decimal text and the like, for values whose numbers a double holds
    exactly); the TypeError of the conversion; and the TypeError of reading
    [error] off a body that is [null]. *)
Theorem generateSchedule_failure_message
    (VITE_API_URL : option string)
    (fetch : ApiClient.Request → completion ApiClient.Response)
    (teamName : string) (entries : jsval) (outputDir : string) (saveToSystem : bool)
    (response : ApiClient.Response) :
  fetch (ApiClient.schedule_request VITE_API_URL teamName entries outputDir saveToSystem)
    = Normal response →
  ApiClient.resp_ok response = false →
  ∃ e,
    ApiClient.generateSchedule VITE_API_URL fetch teamName entries outputDir saveToSystem
      = Throw e
    ∧ (∀ o s, ApiClient.resp_json response = Normal (JObj o) →
              obj_get o "error" = JStr s → s ≠ ""%string →
              e = {| exn_name := "Error"; exn_message := s |})
    ∧ (∀ x, ApiClient.resp_json response = Throw x →
            e = {| exn_name := "Error";
                   exn_message := "Failed to generate schedule" |})
    ∧ (∀ v m, ApiClient.resp_json response = Normal v →
              get_named_prop v "error" = Normal m → truthy m = false →
              e = {| exn_name := "Error";
                     exn_message := "Failed to generate schedule" |})
    ∧ (∀ o m, ApiClient.resp_json response = Normal (JObj o) →
              obj_get o "error" = JObj m → obj_has m "toString" = true →
              e = TypeError_convert)
    ∧ (e = {| exn_name := "Error"; exn_message := "Failed to generate schedule" |}
       ∨ (∃ v m msg,
            ApiClient.resp_json response = Normal v
            ∧ get_named_prop v "error" = Normal m ∧ truthy m = true
            ∧ e = {| exn_name := "Error"; exn_message := msg |}
            ∧ (safe_numbers m = true → to_string m = Normal msg))
       ∨ (∃ v m,
            ApiClient.resp_json response = Normal v
            ∧ get_named_prop v "error" = Normal m ∧ truthy m = true
            ∧ to_string m = Throw TypeError_convert ∧ e = TypeError_convert)
       ∨ (∃ v, ApiClient.resp_json response = Normal v
               ∧ (v = JNull ∨ v = JUndefined) ∧ e = TypeError_read v "error")).
Proof.
  intros Hfetch Hok. rewrite (generateSchedule_not_ok _ _ _ _ _ _ _ Hfetch Hok).
  destruct (ApiClient.resp_json response) as [v|x] eqn:Hjson.
  2: { simpl. eexists. split; [reflexivity|]. split; [done|]. split; [done|].
       split; [done|]. split; [done|]. by left. }
  destruct (get_named_prop v "error") as [m|t] eqn:Hprop; simpl.
  2: { exists t. split; [done|]. split; [by intros o s [= ->]|]. split; [done|].
       split; [intros v' m' [= <-] Hm'; congruence|].
       split; [by intros o m' [= ->]|].
       right; right; right. exists v. split; [done|].
       destruct v; simplify_eq/=; auto. }
  destruct (truthy m) eqn:Htruthy.
  2: { unfold js_or. rewrite Htruthy. simpl. eexists. split; [reflexivity|].
       split.
       { intros o s [= ->] Hs Hne. simpl in Hprop. injection Hprop as <-.
         rewrite Hs in Htruthy. simpl in Htruthy.
         apply negb_false_iff, String.eqb_eq in Htruthy. done. }
       split; [done|]. split; [done|]. split.
       { intros o m' [= ->] Hm'. simpl in Hprop. injection Hprop as <-.
         by rewrite Hm' in Htruthy. }
       by left. }
  unfold js_or. rewrite Htruthy.
  assert (m ≠ JUndefined) as Hm by (by intros ->).
  destruct (new_Error_outcome m Hm) as [(msg & Hstring & ->)|[Hstring ->]]; simpl.
  - eexists. split; [reflexivity|]. split.
    { intros o s [= ->] Hs Hne. simpl in Hprop. injection Hprop as <-.
      rewrite Hs in Hstring. by injection Hstring as <-. }
    split; [done|]. split; [intros v' m' [= <-] Hm'; congruence|]. split.
    { intros o m' [= ->] Hm' Hhas. simpl in Hprop. injection Hprop as <-.
      rewrite Hm' in Hstring. simpl in Hstring. by rewrite Hhas in Hstring. }
    right; left. by exists v, m, msg.
  - eexists. split; [reflexivity|]. split.
    { intros o s [= ->] Hs Hne. simpl in Hprop. injection Hprop as <-.
      by rewrite Hs in Hstring. }
    split; [done|]. split; [intros v' m' [= <-] Hm'; congruence|].
    split; [done|]. right; right; left. by exists v, m.
Qed.

Lemma generateSchedule_failure_witness :
  ApiClient.generateSchedule None (fun _ => Normal sample_error_response)
    "T9" sample_entries "" false
  = Throw {| exn_name := "Error"; exn_message := "Unknown team: T9" |}
  ∧ ApiClient.generateSchedule None (fun _ => Normal sample_object_error_response)
      "T9" sample_entries "" false
    = Throw TypeError_convert.
Proof.
  split.
  - destruct (generateSchedule_failure_message None
                (fun _ => Normal sample_error_response) "T9" sample_entries "" false
                sample_error_response eq_refl eq_refl)
      as (e & Hrun & Hserver & _).
    rewrite Hrun. f_equal.
    exact (Hserver _ "Unknown team: T9"%string eq_refl eq_refl ltac:(discriminate)).
  - destruct (generateSchedule_failure_message None
                (fun _ => Normal sample_object_error_response) "T9" sample_entries
                "" false sample_object_error_response eq_refl eq_refl)
      as (e & Hrun & _ & _ & _ & Hobject & _).
    rewrite Hrun. f_equal.
    exact (Hobject _ [("toString"%string, JStr "x")] eq_refl eq_refl eq_refl).
Defined.
